(** * go-nk-sdl: the Nuklear/SDL2 frame driver and its input translator

    A shallow embedding of package [nksdl] (the [Driver] of the frame
    life cycle and the [EventHandler] of events.go) and the properties
    of its specification.

    Conventions of the embedding:
    - Go's fixed-width integers are [Z] with the wrap-around written out;
      [float32] is the IEEE-754 binary32 instance of [spec_float];
    - a Go [map] is a [gmap]; the order in which [range] visits it, which
      the Go runtime chooses, is an explicit argument;
    - a pointer to a library resource is an [option Handle], [None] being
      [nil];
    - SDL and Nuklear are an explicit [World]: the state of the renderer,
      the event queue, the frame the GUI context has recorded, the log of
      the calls made, and the outcome of every fallible call. *)

From Stdlib Require Import ZArith Lia List String DecimalString Floats.SpecFloat.
From stdpp Require Import gmap strings list fin_maps.

Local Open Scope Z_scope.

(** ** Go values *)

Module Go.

(** [error] values. [fmt.Errorf("ctx: %w", err)] keeps the error it
    wraps; [ErrWrapNil] is what it gives when [err] is [nil]. *)
Inductive error : Type :=
  | ErrQuit
  | ErrLib (msg : string)
  | ErrNew (msg : string)
  | ErrWrap (ctx : string) (inner : error)
  | ErrWrapNil (ctx : string).

Fixpoint error_eqb (a b : error) : bool :=
  match a, b with
  | ErrQuit, ErrQuit => true
  | ErrLib x, ErrLib y => String.eqb x y
  | ErrNew x, ErrNew y => String.eqb x y
  | ErrWrap c x, ErrWrap d y => String.eqb c d && error_eqb x y
  | ErrWrapNil c, ErrWrapNil d => String.eqb c d
  | _, _ => false
  end.

(** [int32(z)] on an integer: two's complement wrap-around. *)
Definition wrap32 (z : Z) : Z := (z + 2 ^ 31) mod 2 ^ 32 - 2 ^ 31.

(** A slice of a buffer: the offset of its first element in the buffer,
    its length and its capacity. *)
Record slice : Type := { s_off : Z; s_len : Z; s_cap : Z }.

(** [s[:n]]; [None] is the run-time panic of an index out of range. *)
Definition slice_to (s : slice) (n : Z) : option slice :=
  if (0 <=? n) && (n <=? s_cap s)
  then Some {| s_off := s_off s; s_len := n; s_cap := s_cap s |}
  else None.

(** [s[n:]]. *)
Definition slice_from (s : slice) (n : Z) : option slice :=
  if (0 <=? n) && (n <=? s_len s)
  then Some {| s_off := s_off s + n; s_len := s_len s - n; s_cap := s_cap s - n |}
  else None.

End Go.

(** ** float32 *)

Module F32.

Definition prec : Z := 24.
Definition emax : Z := 128.

Definition float32 : Type := spec_float.

Definition valid (x : float32) : bool := valid_binary prec emax x.

Definition of_Z (z : Z) : float32 := binary_normalize prec emax z 0 false.

Definition zero : float32 := S754_zero false.
Definition one : float32 := of_Z 1.
Definition five : float32 := of_Z 5.
(** 1.5 = 3 * 2^-1 *)
Definition one_and_half : float32 := binary_normalize prec emax 3 (-1) false.

Definition eqb (x y : float32) : bool := SFeqb x y.
Definition ltb (x y : float32) : bool := SFltb x y.
Definition div (x y : float32) : float32 := SFdiv prec emax x y.

(** [int32(f)]: the fraction is discarded (truncation towards zero). The
    Go specification leaves the result open when the value does not fit;
    the model takes what amd64 gives, the "integer indefinite" value
    -2^31, also for NaN and the infinities. *)
Definition trunc (x : float32) : option Z :=
  match x with
  | S754_zero _ => Some 0
  | S754_finite s m e =>
      let v := if 0 <=? e then Z.pos m * 2 ^ e else Z.pos m / 2 ^ (- e) in
      Some (if s then - v else v)
  | _ => None
  end.

Definition to_int32 (x : float32) : Z :=
  match trunc x with
  | Some v => if (- 2 ^ 31 <=? v) && (v <? 2 ^ 31) then v else - 2 ^ 31
  | None => - 2 ^ 31
  end.

(** *** The values of float32

    Every finite float32 is a whole number of units of 2^-149, the
    smallest positive float32; [units] is that number. *)
Definition units (x : float32) : Z :=
  match x with
  | S754_finite s m e => (if s then -1 else 1) * (Z.pos m * 2 ^ (e + 149))
  | _ => 0
  end.

Definition five_units : Z := 5 * 2 ^ 149.

Definition is_nan (x : float32) : Prop :=
  match x with S754_nan => True | _ => False end.

Definition is_zero (x : float32) : Prop :=
  match x with S754_zero _ => True | _ => False end.

(** x < 0 *)
Definition below_zero (x : float32) : Prop :=
  match x with
  | S754_infinity s => s = true
  | S754_finite _ _ _ => units x < 0
  | _ => False
  end.

(** 5 < x *)
Definition above_five (x : float32) : Prop :=
  match x with
  | S754_infinity s => s = false
  | S754_finite _ _ _ => five_units < units x
  | _ => False
  end.

(** 0 < x <= 5 *)
Definition in_0_5 (x : float32) : Prop :=
  match x with
  | S754_finite _ _ _ => 0 < units x <= five_units
  | _ => False
  end.

End F32.

Abbreviation float32 := F32.float32.

(** ** The two libraries, as far as package nksdl uses them *)

Definition Handle : Type := positive.

Module sdl.

Definition Keycode : Type := Z.
Definition Keymod : Type := Z.

(** SDL_keycode.h *)
Definition K_UNKNOWN : Keycode := 0.
Definition K_BACKSPACE : Keycode := 8.
Definition K_TAB : Keycode := 9.
Definition K_RETURN : Keycode := 13.
Definition K_a : Keycode := 97.
Definition K_c : Keycode := 99.
Definition K_e : Keycode := 101.
Definition K_v : Keycode := 118.
Definition K_x : Keycode := 120.
Definition K_z : Keycode := 122.
Definition SCANCODE_MASK : Z := 2 ^ 30.
Definition K_HOME : Keycode := Z.lor 74 SCANCODE_MASK.
Definition K_PAGEUP : Keycode := Z.lor 75 SCANCODE_MASK.
Definition K_END : Keycode := Z.lor 77 SCANCODE_MASK.
Definition K_PAGEDOWN : Keycode := Z.lor 78 SCANCODE_MASK.
Definition K_RIGHT : Keycode := Z.lor 79 SCANCODE_MASK.
Definition K_LEFT : Keycode := Z.lor 80 SCANCODE_MASK.
Definition K_DOWN : Keycode := Z.lor 81 SCANCODE_MASK.
Definition K_UP : Keycode := Z.lor 82 SCANCODE_MASK.
Definition K_LSHIFT : Keycode := Z.lor 225 SCANCODE_MASK.
Definition K_RSHIFT : Keycode := Z.lor 229 SCANCODE_MASK.

Definition KMOD_NONE : Keymod := 0x0000.
Definition KMOD_LSHIFT : Keymod := 0x0001.
Definition KMOD_RSHIFT : Keymod := 0x0002.
Definition KMOD_LCTRL : Keymod := 0x0040.
Definition KMOD_RCTRL : Keymod := 0x0080.
Definition KMOD_LALT : Keymod := 0x0100.
Definition KMOD_RALT : Keymod := 0x0200.
Definition KMOD_LGUI : Keymod := 0x0400.
Definition KMOD_RGUI : Keymod := 0x0800.
Definition KMOD_CTRL : Keymod := Z.lor KMOD_LCTRL KMOD_RCTRL.
Definition KMOD_SHIFT : Keymod := Z.lor KMOD_LSHIFT KMOD_RSHIFT.
Definition KMOD_ALT : Keymod := Z.lor KMOD_LALT KMOD_RALT.
Definition KMOD_GUI : Keymod := Z.lor KMOD_LGUI KMOD_RGUI.

Definition PRESSED : Z := 1.
Definition RELEASED : Z := 0.
Definition BUTTON_LEFT : Z := 1.
Definition BUTTON_MIDDLE : Z := 2.
Definition BUTTON_RIGHT : Z := 3.

(** [VERSIONNUM(X, Y, Z)] of SDL_version.h *)
Definition VERSIONNUM (x y z : Z) : Z := x * 1000 + y * 100 + z.

Record Keysym : Type := { Sym : Keycode; Mod : Keymod }.

Record Rect : Type := { X : Z; Y : Z; W : Z; H : Z }.

Record Color : Type := { R : Z; G : Z; B : Z; A : Z }.

Inductive Event : Type :=
  | QuitEvent
  | MouseMotionEvent (x y : Z)
  | MouseButtonEvent (x y : Z) (Button State Clicks : Z)
  | MouseWheelEvent (PreciseX PreciseY : float32)
  | KeyboardEvent (State : Z) (keysym : Keysym)
  | TextInputEvent (text : list Z)
  | OtherEvent (type : Z).

End sdl.

Module nk.

(** [enum nk_keys]; [KeyNone] is its first member, so it is the zero
    value of the Go type. *)
Inductive Key : Type :=
  | KeyNone | KeyShift | KeyCtrl | KeyDel | KeyEnter | KeyTab
  | KeyBackspace | KeyCopy | KeyCut | KeyPaste | KeyUp | KeyDown
  | KeyLeft | KeyRight | KeyTextInsertMode | KeyTextReplaceMode
  | KeyTextResetMode | KeyTextLineStart | KeyTextLineEnd | KeyTextStart
  | KeyTextEnd | KeyTextUndo | KeyTextRedo | KeyTextSelectAll
  | KeyTextWordLeft | KeyTextWordRight | KeyScrollStart | KeyScrollEnd
  | KeyScrollDown | KeyScrollUp.

#[global] Instance Key_eq_dec : EqDecision Key.
Proof. solve_decision. Defined.

Inductive Buttons : Type :=
  | ButtonLeft | ButtonMiddle | ButtonRight | ButtonDouble.

(** The calls of an input session on a context. *)
Inductive InputCall : Type :=
  | InputMotion (x y : Z)
  | InputButton (b : Buttons) (x y : Z) (down : bool)
  | InputScroll (x y : float32)
  | InputKey (k : Key) (down : bool)
  | InputUnicode (r : Z).

Record Rect : Type := { X : float32; Y : float32; W : float32; H : float32 }.

(** [nk_draw_command]: the number of indices it draws, its clip
    rectangle and its texture handle. *)
Record DrawCommand : Type :=
  { ElemCount : Z; ClipRect : Rect; Texture : option Handle }.

End nk.

(** ** events.go *)

Record KeyInput : Type := { Code : sdl.Keycode; Mod : sdl.Keymod }.

Record KeyAction : Type := { Key1 : nk.Key; Key2 : nk.Key }.

#[global] Instance KeyInput_eq_dec : EqDecision KeyInput.
Proof. solve_decision. Defined.

#[global] Instance KeyAction_eq_dec : EqDecision KeyAction.
Proof. solve_decision. Defined.

#[global] Instance KeyInput_countable : Countable KeyInput :=
  inj_countable' (fun k => (Code k, Mod k))
    (fun p => {| Code := fst p; Mod := snd p |})
    (fun k => match k with Build_KeyInput _ _ => eq_refl end).

(** The zero value of [KeyAction], which a Go map lookup gives for a
    missing key. *)
Definition KeyAction_zero : KeyAction :=
  {| Key1 := nk.KeyNone; Key2 := nk.KeyNone |}.

Definition key (c : sdl.Keycode) (m : sdl.Keymod) : KeyInput :=
  {| Code := c; Mod := m |}.

Definition act1 (k : nk.Key) : KeyAction := {| Key1 := k; Key2 := nk.KeyNone |}.

(** The entries of [DefaultBindings], in the order of the source text. *)
Definition DefaultBindings_entries : list (KeyInput * KeyAction) :=
  [ (key sdl.K_LSHIFT 0, act1 nk.KeyShift);
    (key sdl.K_RSHIFT 0, act1 nk.KeyShift);
    (key sdl.K_RETURN 0, act1 nk.KeyEnter);
    (key sdl.K_TAB 0, act1 nk.KeyTab);
    (key sdl.K_BACKSPACE 0, act1 nk.KeyBackspace);
    (key sdl.K_HOME 0, {| Key1 := nk.KeyTextStart; Key2 := nk.KeyScrollStart |});
    (key sdl.K_END 0, {| Key1 := nk.KeyTextEnd; Key2 := nk.KeyScrollEnd |});
    (key sdl.K_PAGEUP 0, act1 nk.KeyScrollUp);
    (key sdl.K_PAGEDOWN 0, {| Key1 := nk.KeyNone; Key2 := nk.KeyScrollDown |});
    (key sdl.K_UP 0, act1 nk.KeyUp);
    (key sdl.K_DOWN 0, act1 nk.KeyDown);
    (key sdl.K_LEFT 0, act1 nk.KeyLeft);
    (key sdl.K_RIGHT 0, act1 nk.KeyRight);
    (key sdl.K_c sdl.KMOD_CTRL, act1 nk.KeyCopy);
    (key sdl.K_x sdl.KMOD_CTRL, act1 nk.KeyCut);
    (key sdl.K_v sdl.KMOD_CTRL, act1 nk.KeyPaste);
    (key sdl.K_a sdl.KMOD_CTRL, act1 nk.KeyTextLineStart);
    (key sdl.K_e sdl.KMOD_CTRL, act1 nk.KeyTextLineEnd);
    (key sdl.K_z sdl.KMOD_CTRL, act1 nk.KeyTextUndo);
    (key sdl.K_z (Z.lor sdl.KMOD_CTRL sdl.KMOD_SHIFT), act1 nk.KeyTextRedo) ].

Definition DefaultBindings : gmap KeyInput KeyAction :=
  list_to_map DefaultBindings_entries.

Inductive EventType : Type :=
  | EventTypeUnhandled
  | EventTypeQuit
  | EventTypeInputMotion
  | EventTypeInputButton
  | EventTypeInputScroll
  | EventTypeInputKey
  | EventTypeInputUnicode.

#[global] Instance EventType_eq_dec : EqDecision EventType.
Proof. solve_decision. Defined.

Definition KeysymInput (sym : sdl.Keysym) : KeyInput :=
  {| Code := sdl.Sym sym; Mod := sdl.Mod sym |}.

Record EventHandler : Type := { bindings : gmap KeyInput KeyAction }.

Record keyBinding : Type := { input : KeyInput; action : KeyAction }.

(** The loop of [expandModBinding]: [n] iterations are left, [i] is the
    index. The binding at [i] is replaced in place by its left variant
    and the right variant is appended. *)
Fixpoint expandModBinding_loop (n : nat) (i : nat) (bs : list keyBinding)
    (both left right : sdl.Keymod) : list keyBinding :=
  match n with
  | O => bs
  | S n' =>
      match bs !! i with
      | None => bs
      | Some b =>
          let inp := input b in
          let act := action b in
          if negb (Z.land (Mod inp) both =? both)
          then expandModBinding_loop n' (S i) bs both left right
          else
            let leftMod := Z.lor (Z.ldiff (Mod inp) both) left in
            let leftInput := {| Code := Code inp; Mod := leftMod |} in
            let bs1 := <[ i := {| input := leftInput; action := act |} ]> bs in
            let rightMod := Z.lor (Z.ldiff (Mod inp) both) right in
            let rightInput := {| Code := Code inp; Mod := rightMod |} in
            let bs2 := bs1 ++ [ {| input := rightInput; action := act |} ] in
            expandModBinding_loop n' (S i) bs2 both left right
      end
  end.

Definition expandModBinding (bs : list keyBinding)
    (both left right : sdl.Keymod) : list keyBinding :=
  expandModBinding_loop (length bs) 0 bs both left right.

(** The four expansions that [expandModBindings] applies to one entry. *)
Definition expandEntry (inp : KeyInput) (act : KeyAction) : list keyBinding :=
  let bs := [ {| input := inp; action := act |} ] in
  let bs := expandModBinding bs sdl.KMOD_CTRL sdl.KMOD_LCTRL sdl.KMOD_RCTRL in
  let bs := expandModBinding bs sdl.KMOD_SHIFT sdl.KMOD_LSHIFT sdl.KMOD_RSHIFT in
  let bs := expandModBinding bs sdl.KMOD_ALT sdl.KMOD_LALT sdl.KMOD_RALT in
  expandModBinding bs sdl.KMOD_GUI sdl.KMOD_LGUI sdl.KMOD_RGUI.

(** [src[k]] in Go: the zero value when [k] is missing. *)
Definition map_index (m : gmap KeyInput KeyAction) (k : KeyInput) : KeyAction :=
  default KeyAction_zero (m !! k).

(** The inner loop of [expandModBindings]: the bindings of one entry are
    written to [dst]; [None] is the panic. *)
Fixpoint writeBindings (src : gmap KeyInput KeyAction) (bs : list keyBinding)
    (dst : gmap KeyInput KeyAction) : option (gmap KeyInput KeyAction) :=
  match bs with
  | [] => Some dst
  | b :: bs' =>
      match dst !! input b with
      | Some dstBinding =>
          if decide (dstBinding <> map_index src (input b))
          then None
          else writeBindings src bs' (<[ input b := action b ]> dst)
      | None => writeBindings src bs' (<[ input b := action b ]> dst)
      end
  end.

(** [expandModBindings dst src], with [dst] a map other than [src] as in
    [NewEventHandler]. [order] is the order in which [range src] visits
    the entries. *)
Fixpoint expandModBindings (order : list (KeyInput * KeyAction))
    (dst src : gmap KeyInput KeyAction) : option (gmap KeyInput KeyAction) :=
  match order with
  | [] => Some dst
  | (inp, act) :: rest =>
      match writeBindings src (expandEntry inp act) dst with
      | None => None
      | Some dst' => expandModBindings rest dst' src
      end
  end.

(** [order] is a possible iteration order of [range m]. *)
Definition range_order (m : gmap KeyInput KeyAction)
    (order : list (KeyInput * KeyAction)) : Prop :=
  order ≡ₚ map_to_list m.

Definition NewEventHandler (order : list (KeyInput * KeyAction))
    (bs : gmap KeyInput KeyAction) : option EventHandler :=
  match expandModBindings order ∅ bs with
  | None => None
  | Some bindingsCopy => Some {| bindings := bindingsCopy |}
  end.

(** [HandleEvent]: the calls made on the context, the type of the event
    and whether Nuklear used it. *)
Definition HandleEvent (h : EventHandler) (event : sdl.Event)
    : list nk.InputCall * (EventType * bool) :=
  match event with
  | sdl.QuitEvent => ([], (EventTypeQuit, false))
  | sdl.MouseMotionEvent x y =>
      ([nk.InputMotion x y], (EventTypeInputMotion, true))
  | sdl.MouseButtonEvent x y button state clicks =>
      let down := if state =? sdl.PRESSED then true else false in
      let calls :=
        if button =? sdl.BUTTON_LEFT then
          (if clicks =? 2 then [nk.InputButton nk.ButtonDouble x y down] else [])
          ++ [nk.InputButton nk.ButtonLeft x y down]
        else if button =? sdl.BUTTON_RIGHT then
          [nk.InputButton nk.ButtonRight x y down]
        else if button =? sdl.BUTTON_MIDDLE then
          [nk.InputButton nk.ButtonMiddle x y down]
        else [] in
      (calls, (EventTypeInputButton, true))
  | sdl.MouseWheelEvent px py =>
      ([nk.InputScroll px py], (EventTypeInputScroll, true))
  | sdl.KeyboardEvent state keysym =>
      let down := if state =? sdl.PRESSED then true else false in
      let inp := KeysymInput keysym in
      let act := map_index (bindings h) inp in
      if decide (Key1 act <> nk.KeyNone) then
        ([nk.InputKey (Key1 act) down]
           ++ (if decide (Key2 act <> nk.KeyNone)
               then [nk.InputKey (Key2 act) down] else []),
         (EventTypeInputKey, true))
      else ([], (EventTypeInputKey, false))
  | sdl.TextInputEvent text =>
      (map nk.InputUnicode text, (EventTypeInputUnicode, true))
  | sdl.OtherEvent _ => ([], (EventTypeUnhandled, false))
  end.

(** ** The world of the two libraries *)

(** The calls package nksdl makes that have an effect or can fail. *)
Inductive Call : Type :=
  | InitSDL
  | CreateWindow
  | CreateRenderer (window : option Handle)
  | RendererGetInfo (r : Handle)
  | RendererGetOutputSize (r : Handle)
  | RendererGetDrawColor (r : Handle)
  | RendererSetDrawColor (r : Handle) (c : sdl.Color)
  | RendererClear (r : Handle)
  | RendererSetScale (r : Handle) (x y : float32)
  | RendererSetClipRect (r : Handle) (rect : option sdl.Rect)
  | RendererGeometry (r : Handle) (texture : option Handle)
      (vertices : Z) (first count : Z)
  | RendererPresent (r : Handle)
  | RendererCreateTexture (r : Handle) (width height : Z)
  | TextureUpdate (t : Handle) (pitch : Z)
  | TextureSetBlendMode (t : Handle)
  | WindowDestroy (w : Handle)
  | RendererDestroy (r : Handle)
  | TextureDestroy (t : Handle)
  | SdlQuit
  | PollEvent (e : sdl.Event)
  | CreateContext
  | CreateFontAtlas
  | CreateFont (atlas : option Handle) (scale : float32)
  | CreateConvertConfig (null : option Handle)
  | NewBuffer
  | FontScaleHeight (font : Handle) (s : float32)
  | AtlasBake (atlas : Handle)
  | AtlasEnd (atlas : Handle) (texture : option Handle)
  | AtlasCleanup (atlas : Handle)
  | NkFree (h : Handle)
  | ContextClear (c : Handle)
  | ContextInputBegin (c : Handle)
  | ContextInputEnd (c : Handle)
  | ContextInput (c : Handle) (i : nk.InputCall)
  | ContextStyleSetFont (c : Handle) (font : Handle)
  | ContextConvert (c : Handle)
  | BufferClear (b : Handle).

(** What the model keeps of an SDL renderer. [clip = None] is clipping
    disabled, the state [SetClipRect(nil)] gives. The fields are kept in
    the coordinates the getters answer in, each on its own. *)
Record Renderer : Type :=
  { scale : float32 * float32;
    clip : option sdl.Rect;
    viewport : sdl.Rect;
    drawColor : sdl.Color;
    outputSize : Z * Z;
    name : string }.

Record World : Type :=
  { outcome : nat -> option Go.error;
    (** the error of the n-th fallible call, [None] when it succeeds *)
    ticks : nat;
    log : list Call;
    fresh : Handle;
    rend : Renderer;
    windowSize : Z * Z;
    version : Z * Z * Z;
    baked : option (Z * Z);
    (** what [FontAtlas.Bake] gives: no image, or its width and height *)
    events : list sdl.Event;
    gui_commands : list nk.DrawCommand;
    gui_elements : Z;
    gui_vertices : Z;
    (** the frame the context has recorded: its draw commands and the
        sizes in bytes of the element and vertex data [Convert] emits *)
    commands_mem : list nk.DrawCommand;
    elements_mem : Z;
    vertices_mem : Z;
    elements_spare : N;
    vertices_spare : N
    (** the capacity, beyond its length, of the byte slice [Memory]
        gives for the element and for the vertex buffer *) }.

Definition set_scale (r : Renderer) (s : float32 * float32) : Renderer :=
  {| scale := s; clip := clip r; viewport := viewport r;
     drawColor := drawColor r; outputSize := outputSize r; name := name r |}.

Definition set_clip (r : Renderer) (c : option sdl.Rect) : Renderer :=
  {| scale := scale r; clip := c; viewport := viewport r;
     drawColor := drawColor r; outputSize := outputSize r; name := name r |}.

Definition set_drawColor (r : Renderer) (c : sdl.Color) : Renderer :=
  {| scale := scale r; clip := clip r; viewport := viewport r;
     drawColor := c; outputSize := outputSize r; name := name r |}.

Definition with_rend (w : World) (r : Renderer) : World :=
  {| outcome := outcome w; ticks := ticks w; log := log w; fresh := fresh w;
     rend := r; windowSize := windowSize w; version := version w;
     baked := baked w; events := events w;
     gui_commands := gui_commands w; gui_elements := gui_elements w;
     gui_vertices := gui_vertices w; commands_mem := commands_mem w;
     elements_mem := elements_mem w; vertices_mem := vertices_mem w;
     elements_spare := elements_spare w; vertices_spare := vertices_spare w |}.

Definition with_log (w : World) (t : nat) (l : list Call) : World :=
  {| outcome := outcome w; ticks := t; log := l; fresh := fresh w;
     rend := rend w; windowSize := windowSize w; version := version w;
     baked := baked w; events := events w;
     gui_commands := gui_commands w; gui_elements := gui_elements w;
     gui_vertices := gui_vertices w; commands_mem := commands_mem w;
     elements_mem := elements_mem w; vertices_mem := vertices_mem w;
     elements_spare := elements_spare w; vertices_spare := vertices_spare w |}.

Definition with_fresh (w : World) (h : Handle) : World :=
  {| outcome := outcome w; ticks := ticks w; log := log w; fresh := h;
     rend := rend w; windowSize := windowSize w; version := version w;
     baked := baked w; events := events w;
     gui_commands := gui_commands w; gui_elements := gui_elements w;
     gui_vertices := gui_vertices w; commands_mem := commands_mem w;
     elements_mem := elements_mem w; vertices_mem := vertices_mem w;
     elements_spare := elements_spare w; vertices_spare := vertices_spare w |}.

Definition with_events (w : World) (es : list sdl.Event) : World :=
  {| outcome := outcome w; ticks := ticks w; log := log w; fresh := fresh w;
     rend := rend w; windowSize := windowSize w; version := version w;
     baked := baked w; events := es;
     gui_commands := gui_commands w; gui_elements := gui_elements w;
     gui_vertices := gui_vertices w; commands_mem := commands_mem w;
     elements_mem := elements_mem w; vertices_mem := vertices_mem w;
     elements_spare := elements_spare w; vertices_spare := vertices_spare w |}.

Definition with_mem (w : World) (c : list nk.DrawCommand) (e v : Z) : World :=
  {| outcome := outcome w; ticks := ticks w; log := log w; fresh := fresh w;
     rend := rend w; windowSize := windowSize w; version := version w;
     baked := baked w; events := events w;
     gui_commands := gui_commands w; gui_elements := gui_elements w;
     gui_vertices := gui_vertices w; commands_mem := c;
     elements_mem := e; vertices_mem := v;
     elements_spare := elements_spare w; vertices_spare := vertices_spare w |}.

(** ** Computations over the world *)

(** A Go computation returns a value or panics. *)
Inductive res (A : Type) : Type :=
  | Val (a : A)
  | Panic.

Arguments Val {A} a.
Arguments Panic {A}.

Definition M (A : Type) : Type := World -> res A * World.

Definition ret {A : Type} (a : A) : M A := fun w => (Val a, w).

Definition bind {A B : Type} (m : M A) (k : A -> M B) : M B :=
  fun w =>
    match m w with
    | (Val a, w') => k a w'
    | (Panic, w') => (Panic, w')
    end.

Definition panic {A : Type} : M A := fun w => (Panic, w).

Notation "'let*' p ':=' m 'in' k" := (bind m (fun p => k))
  (at level 10, p pattern, m at level 100, k at level 200).

(** A function whose deferred call [after] sees the value being returned
    and may change it; while a panic unwinds the stack the deferred call
    runs as [unwinding] and the panic goes on. *)
Definition deferring {A : Type} (body : M A) (after : A -> M A)
    (unwinding : M unit) : M A :=
  fun w =>
    match body w with
    | (Val a, w') => after a w'
    | (Panic, w') => (Panic, snd (unwinding w'))
    end.

Definition get {A : Type} (f : World -> A) : M A := fun w => (Val (f w), w).

Definition put (f : World -> World) : M unit := fun w => (Val tt, f w).

(** A call that cannot fail. *)
Definition effect (c : Call) : M unit :=
  put (fun w => with_log w (ticks w) (log w ++ [c])).

(** A call that can fail: the world decides. *)
Definition fallible (c : Call) : M (option Go.error) :=
  fun w => (Val (outcome w (ticks w)), with_log w (S (ticks w)) (log w ++ [c])).

(** A new resource. *)
Definition alloc : M Handle :=
  fun w => (Val (fresh w), with_fresh w (Pos.succ (fresh w))).

(** A method called through a pointer: through [nil] it faults. The
    methods that tolerate [nil] are [nilsafe]. *)
Definition on {A : Type} (p : option Handle) (k : Handle -> M A) : M A :=
  match p with
  | Some h => k h
  | None => panic
  end.

(** [p == nil] *)
Definition is_nil (p : option Handle) : bool :=
  match p with
  | Some _ => false
  | None => true
  end.

Definition nilsafe (p : option Handle) (k : Handle -> M unit) : M unit :=
  match p with
  | Some h => k h
  | None => ret tt
  end.

(** A fallible call that creates a resource. *)
Definition create (c : Call) : M (option Handle * option Go.error) :=
  let* err := fallible c in
  match err with
  | Some e => ret (None, Some e)
  | None => let* h := alloc in ret (Some h, None)
  end.

(** *** The renderer *)

Definition zeroRect : sdl.Rect := {| sdl.X := 0; sdl.Y := 0; sdl.W := 0; sdl.H := 0 |}.

Definition GetScale (r : option Handle) : M (float32 * float32) :=
  on r (fun _ => get (fun w => scale (rend w))).

Definition SetScale (r : option Handle) (x y : float32) : M (option Go.error) :=
  on r (fun h =>
    let* err := fallible (RendererSetScale h x y) in
    match err with
    | Some e => ret (Some e)
    | None =>
        let* _ := put (fun w => with_rend w (set_scale (rend w) (x, y))) in
        ret None
    end).

(** [GetClipRect] gives an empty rectangle when clipping is disabled. *)
Definition GetClipRect (r : option Handle) : M sdl.Rect :=
  on r (fun _ => get (fun w => default zeroRect (clip (rend w)))).

Definition GetViewport (r : option Handle) : M sdl.Rect :=
  on r (fun _ => get (fun w => viewport (rend w))).

(** [SetClipRect(rect)]: [nil] disables clipping, a rectangle, empty or
    not, becomes the clip rectangle. *)
Definition SetClipRect (r : option Handle) (rect : option sdl.Rect)
    : M (option Go.error) :=
  on r (fun h =>
    let* err := fallible (RendererSetClipRect h rect) in
    match err with
    | Some e => ret (Some e)
    | None =>
        let* _ := put (fun w => with_rend w (set_clip (rend w) rect)) in
        ret None
    end).

Definition GetDrawColor (r : option Handle) : M (sdl.Color * option Go.error) :=
  on r (fun h =>
    let* err := fallible (RendererGetDrawColor h) in
    let* c := get (fun w => drawColor (rend w)) in
    ret (c, err)).

Definition SetDrawColor (r : option Handle) (c : sdl.Color) : M (option Go.error) :=
  on r (fun h =>
    let* err := fallible (RendererSetDrawColor h c) in
    match err with
    | Some e => ret (Some e)
    | None =>
        let* _ := put (fun w => with_rend w (set_drawColor (rend w) c)) in
        ret None
    end).

Definition GetOutputSize (r : option Handle) : M (Z * Z * option Go.error) :=
  on r (fun h =>
    let* err := fallible (RendererGetOutputSize h) in
    match err with
    | Some e => ret (0, 0, Some e)
    | None => let* s := get (fun w => outputSize (rend w)) in ret (fst s, snd s, None)
    end).

Definition GetInfo (r : option Handle) : M (string * option Go.error) :=
  on r (fun h =>
    let* err := fallible (RendererGetInfo h) in
    match err with
    | Some e => ret (EmptyString, Some e)
    | None => let* n := get (fun w => name (rend w)) in ret (n, None)
    end).

Definition GetSize (win : option Handle) : M (Z * Z) :=
  on win (fun _ => get windowSize).

(** *** Buffers of the GUI toolkit *)

Definition Buffer_Clear_commands (b : option Handle) : M unit :=
  on b (fun h =>
    let* _ := effect (BufferClear h) in
    put (fun w => with_mem w [] (elements_mem w) (vertices_mem w))).

Definition Buffer_Clear_elements (b : option Handle) : M unit :=
  on b (fun h =>
    let* _ := effect (BufferClear h) in
    put (fun w => with_mem w (commands_mem w) 0 (vertices_mem w))).

Definition Buffer_Clear_vertices (b : option Handle) : M unit :=
  on b (fun h =>
    let* _ := effect (BufferClear h) in
    put (fun w => with_mem w (commands_mem w) (elements_mem w) 0)).

(** [Convert] writes the recorded frame to the three buffers. *)
Definition Convert (c : option Handle) : M (option Go.error) :=
  on c (fun h =>
    let* err := fallible (ContextConvert h) in
    match err with
    | Some e => ret (Some e)
    | None =>
        let* _ := put (fun w => with_mem w (gui_commands w) (gui_elements w) (gui_vertices w)) in
        ret None
    end).

(** [Buffer.Memory]: the bytes of a buffer, [len] of them, as a slice
    that starts where the buffer does and has [spare] bytes of capacity
    beyond its length. *)
Definition Memory (len : Z) (spare : N) : Go.slice :=
  {| Go.s_off := 0; Go.s_len := len; Go.s_cap := len + Z.of_N spare |}.

(** [reinterpretSlice(p, size)]: the header of [p] with its length and
    its capacity each divided by [size]; the data pointer is kept. *)
Definition reinterpretSlice (p : Go.slice) (size : Z) : Go.slice :=
  {| Go.s_off := Go.s_off p;
     Go.s_len := Z.quot (Go.s_len p) size;
     Go.s_cap := Z.quot (Go.s_cap p) size |}.

(** [unsafe.Sizeof(sdl.Vertex{})]: two float32, four bytes of colour,
    two float32. *)
Definition vertexSize : Z := 20.
Definition vertexAlignment : Z := 4.

(** ** The Driver *)

Definition EventListener : Type :=
  sdl.Event -> EventType -> bool -> option Go.error.

(** The fields of [Driver] other than the two resource drivers, whose
    calls are calls on the world. *)
Record Driver : Type :=
  { eventListener : option EventListener;
    eventHandler : EventHandler;
    window : option Handle;
    renderer : option Handle;
    fontTex : option Handle;
    context : option Handle;
    atlas : option Handle;
    font : option Handle;
    largeFont : option Handle;
    null : option Handle;
    convertConf : option Handle;
    commands : option Handle;
    elements : option Handle;
    vertices : option Handle;
    uiScale : float32;
    bgColor : sdl.Color;
    clampClipRect : bool }.

(** The assignments to one group of fields. *)
Definition set_sdl (d : Driver) (win ren tex : option Handle) : Driver :=
  {| eventListener := eventListener d; eventHandler := eventHandler d;
     window := win; renderer := ren; fontTex := tex;
     context := context d; atlas := atlas d; font := font d;
     largeFont := largeFont d; null := null d; convertConf := convertConf d;
     commands := commands d; elements := elements d; vertices := vertices d;
     uiScale := uiScale d; bgColor := bgColor d;
     clampClipRect := clampClipRect d |}.

Definition set_nk (d : Driver) (ctx atl fnt large nul : option Handle) : Driver :=
  {| eventListener := eventListener d; eventHandler := eventHandler d;
     window := window d; renderer := renderer d; fontTex := fontTex d;
     context := ctx; atlas := atl; font := fnt;
     largeFont := large; null := nul; convertConf := convertConf d;
     commands := commands d; elements := elements d; vertices := vertices d;
     uiScale := uiScale d; bgColor := bgColor d;
     clampClipRect := clampClipRect d |}.

Definition set_buffers (d : Driver) (conf cmds elems verts : option Handle) : Driver :=
  {| eventListener := eventListener d; eventHandler := eventHandler d;
     window := window d; renderer := renderer d; fontTex := fontTex d;
     context := context d; atlas := atlas d; font := font d;
     largeFont := largeFont d; null := null d; convertConf := conf;
     commands := cmds; elements := elems; vertices := verts;
     uiScale := uiScale d; bgColor := bgColor d;
     clampClipRect := clampClipRect d |}.

Definition set_opts (d : Driver) (s : float32) (bg : sdl.Color) (clamp : bool) : Driver :=
  {| eventListener := eventListener d; eventHandler := eventHandler d;
     window := window d; renderer := renderer d; fontTex := fontTex d;
     context := context d; atlas := atlas d; font := font d;
     largeFont := largeFont d; null := null d; convertConf := convertConf d;
     commands := commands d; elements := elements d; vertices := vertices d;
     uiScale := s; bgColor := bg; clampClipRect := clamp |}.

Definition set_window (d : Driver) (h : option Handle) : Driver :=
  set_sdl d h (renderer d) (fontTex d).
Definition set_renderer (d : Driver) (h : option Handle) : Driver :=
  set_sdl d (window d) h (fontTex d).
Definition set_fontTex (d : Driver) (h : option Handle) : Driver :=
  set_sdl d (window d) (renderer d) h.
Definition set_context (d : Driver) (h : option Handle) : Driver :=
  set_nk d h (atlas d) (font d) (largeFont d) (null d).
Definition set_atlas (d : Driver) (h : option Handle) : Driver :=
  set_nk d (context d) h (font d) (largeFont d) (null d).
Definition set_font (d : Driver) (h : option Handle) : Driver :=
  set_nk d (context d) (atlas d) h (largeFont d) (null d).
Definition set_largeFont (d : Driver) (h : option Handle) : Driver :=
  set_nk d (context d) (atlas d) (font d) h (null d).
Definition set_null (d : Driver) (h : option Handle) : Driver :=
  set_nk d (context d) (atlas d) (font d) (largeFont d) h.
Definition set_uiScale (d : Driver) (s : float32) : Driver :=
  set_opts d s (bgColor d) (clampClipRect d).
Definition set_clampClipRect (d : Driver) (b : bool) : Driver :=
  set_opts d (uiScale d) (bgColor d) b.

(** [NewDriver], for a non-nil pair of resource drivers; [None] is the
    panic of [NewEventHandler]. *)
Definition NewDriver (order : list (KeyInput * KeyAction))
    (bs : gmap KeyInput KeyAction) (listener : option EventListener)
    : option Driver :=
  match NewEventHandler order bs with
  | None => None
  | Some h =>
      Some {| eventListener := listener; eventHandler := h;
              window := None; renderer := None; fontTex := None;
              context := None; atlas := None; font := None;
              largeFont := None; null := None; convertConf := None;
              commands := None; elements := None; vertices := None;
              uiScale := F32.one;
              bgColor := {| sdl.R := 0; sdl.G := 0; sdl.B := 0; sdl.A := 0 |};
              clampClipRect := false |}
  end.

Definition SetBGColor (d : Driver) (color : sdl.Color) : Driver :=
  set_opts d (uiScale d) color (clampClipRect d).

(** [computeUIScale]. The warning it logs when the two ratios differ is
    left out. *)
Definition computeUIScale (d : Driver) : M (Driver * option Go.error) :=
  let* (renderW, renderH, err) := GetOutputSize (renderer d) in
  match err with
  | Some e => ret (d, Some (Go.ErrWrap "getting renderer output size" e))
  | None =>
      let* (windowW, windowH) := GetSize (window d) in
      let renderScaleX := F32.div (F32.of_Z renderW) (F32.of_Z windowW) in
      let renderScaleY := F32.div (F32.of_Z renderH) (F32.of_Z windowH) in
      ret (set_uiScale d renderScaleY, None)
  end.

(** [SetUIScale]; [uiScale != uiScale] holds of NaN only. The messages
    of the errors are kept without the values they format. *)
Definition SetUIScale (d : Driver) (s : float32) : M (Driver * option Go.error) :=
  if negb (F32.eqb s s) || F32.ltb s F32.zero || F32.ltb F32.five s
  then ret (d, Some (Go.ErrNew "uiScale is out of bounds"))
  else if F32.eqb s F32.zero
  then
    let* (d', err) := computeUIScale d in
    match err with
    | Some e => ret (d', Some (Go.ErrWrap "computing UI scale" e))
    | None => ret (d', None)
    end
  else ret (set_uiScale d s, None).

(** [err2 != nil && err == nil]: the first error is the one kept. *)
Definition first_error (err err2 : option Go.error) : option Go.error :=
  match err2, err with
  | Some e2, None => Some e2
  | _, _ => err
  end.

(** [Destroy]. Its deferred calls run last in, first out: the six
    [Free]s from [vertices] back to [context], then the three closures
    for the font texture, the renderer and the window, then [sdl.Quit].
    [return nil] has set [err] before any of them runs. *)
Definition Destroy (d : Driver) : M (option Go.error) :=
  let err : option Go.error := None in
  let* _ := nilsafe (vertices d) (fun h => effect (NkFree h)) in
  let* _ := nilsafe (elements d) (fun h => effect (NkFree h)) in
  let* _ := nilsafe (commands d) (fun h => effect (NkFree h)) in
  let* _ := nilsafe (convertConf d) (fun h => effect (NkFree h)) in
  let* _ := nilsafe (atlas d) (fun h => effect (NkFree h)) in
  let* _ := nilsafe (context d) (fun h => effect (NkFree h)) in
  let* err :=
    if negb (is_nil (fontTex d))
    then let* err2 := on (fontTex d) (fun h => fallible (TextureDestroy h)) in
         ret (first_error err err2)
    else ret err in
  let* err :=
    if negb (is_nil (renderer d))
    then let* err2 := on (renderer d) (fun h => fallible (RendererDestroy h)) in
         ret (first_error err err2)
    else ret err in
  let* err :=
    if negb (is_nil (window d))
    then let* err2 := on (window d) (fun h => fallible (WindowDestroy h)) in
         ret (first_error err err2)
    else ret err in
  let* _ := effect SdlQuit in
  ret err.

(** [bakeFont]: the driver, the null texture and the error. *)
Definition bakeFont (d : Driver) : M (Driver * option Handle * option Go.error) :=
  let* image := on (atlas d) (fun h => let* _ := effect (AtlasBake h) in get baked) in
  match image with
  | None => ret (d, None, Some (Go.ErrNew "font baking returned nil image"))
  | Some (width, height) =>
      let* (tex, err) :=
        on (renderer d) (fun r => create (RendererCreateTexture r width height)) in
      let d := set_fontTex d tex in
      match err with
      | Some e => ret (d, None, Some (Go.ErrWrap "creating font texture" e))
      | None =>
          let* err := on (fontTex d) (fun t =>
                        fallible (TextureUpdate t (Go.wrap32 (4 * width)))) in
          match err with
          | Some e => ret (d, None, Some (Go.ErrWrap "uploading font atlas to texture" e))
          | None =>
              let* err := on (fontTex d) (fun t => fallible (TextureSetBlendMode t)) in
              match err with
              | Some e => ret (d, None, Some (Go.ErrWrap "setting texture blend mode" e))
              | None =>
                  let* _ := on (font d) (fun f => effect (FontScaleHeight f (uiScale d))) in
                  let* _ := on (atlas d) (fun a => effect (AtlasEnd a (fontTex d))) in
                  let* _ := on (atlas d) (fun a => effect (AtlasCleanup a)) in
                  ret (d, fontTex d, None)
              end
          end
      end
  end.

(** The body of [Init]: the driver, the variable [err] that the deferred
    closure reads, and the value returned. The [err] of the renderer-info
    step is declared by [:=] in the [if] statement; it is another
    variable than the [err] of the function. *)
Definition Init_body (d : Driver)
    : M (Driver * option Go.error * option Go.error) :=
  let* err := fallible InitSDL in
  match err with
  | Some e => ret (d, err, Some (Go.ErrWrap "initializing SDL" e))
  | None =>
  let* (win, err) := create CreateWindow in
  let d := set_window d win in
  match err with
  | Some e => ret (d, err, Some (Go.ErrWrap "creating SDL window" e))
  | None =>
  let* (ren, err) := create (CreateRenderer (window d)) in
  let d := set_renderer d ren in
  match err with
  | Some e => ret (d, err, Some (Go.ErrWrap "creating SDL renderer" e))
  | None =>
  let* (info_name, err') := GetInfo (renderer d) in
  match err' with
  | Some e => ret (d, err, Some (Go.ErrWrap "getting SDL renderer info" e))
  | None =>
  let* ver := get version in
  let d :=
    if String.eqb info_name "metal" then
      let '(major, minor, patch) := ver in
      if sdl.VERSIONNUM major minor patch <? sdl.VERSIONNUM 2 0 22
      then set_clampClipRect d true
      else d
    else d in
  let* (ctx, err) := create CreateContext in
  let d := set_context d ctx in
  match err with
  | Some e => ret (d, err, Some (Go.ErrWrap "creating Nuklear context" e))
  | None =>
  let* (atl, err) := create CreateFontAtlas in
  let d := set_atlas d atl in
  match err with
  | Some e => ret (d, err, Some (Go.ErrWrap "creating font atlast" e))
  | None =>
  let* (fnt, err) := create (CreateFont (atlas d) (F32.of_Z 1)) in
  let d := set_font d fnt in
  match err with
  | Some e => ret (d, err, Some (Go.ErrWrap "creating font" e))
  | None =>
  let* (fnt, err) := create (CreateFont (atlas d) (F32.of_Z 2)) in
  let d := set_largeFont d fnt in
  match err with
  | Some e => ret (d, err, Some (Go.ErrWrap "creating large font" e))
  | None =>
  let* (d, nul, err) := bakeFont d in
  let d := set_null d nul in
  match err with
  | Some e => ret (d, err, Some (Go.ErrWrap "baking font" e))
  | None =>
  let* _ := on (largeFont d) (fun f => effect (FontScaleHeight f (F32.of_Z 2))) in
  let* _ := effect (CreateConvertConfig (null d)) in
  let* conf := alloc in
  let* _ := effect NewBuffer in
  let* cmds := alloc in
  let* _ := effect NewBuffer in
  let* elems := alloc in
  let* _ := effect NewBuffer in
  let* verts := alloc in
  let d := set_buffers d (Some conf) (Some cmds) (Some elems) (Some verts) in
  ret (d, err, None)
  end end end end end end end end end.

(** [Init]: the deferred closure tears the driver down when the
    function's [err] is not [nil]. *)
Definition Init (d : Driver) : M (Driver * option Go.error) :=
  let* (d', err, result) := Init_body d in
  match err with
  | Some _ => let* _ := Destroy d' in ret (d', result)
  | None => ret (d', result)
  end.

(** The calls [HandleEvent] makes on the context [nkc]. *)
Fixpoint emit (nkc : option Handle) (calls : list nk.InputCall) : M unit :=
  match calls with
  | [] => ret tt
  | c :: rest =>
      let* _ := on nkc (fun h => effect (ContextInput h c)) in
      emit nkc rest
  end.

(** The event loop of [PreRender] on the events [queue] that are
    pending: whether the loop ended with [alive] set, and the error of
    the [return] inside the loop if it was taken. *)
Fixpoint pollEvents (d : Driver) (queue : list sdl.Event) (alive : bool)
    : M (bool * option Go.error) :=
  match queue with
  | [] => ret (alive, None)
  | event :: rest =>
      let* _ := put (fun w => with_events w rest) in
      let* _ := effect (PollEvent event) in
      let '(calls, (eventType, usedByNuklear)) :=
        HandleEvent (eventHandler d) event in
      let* _ := emit (context d) calls in
      match eventListener d with
      | Some listener =>
          match listener event eventType usedByNuklear with
          | Some Go.ErrQuit => pollEvents d rest false
          | Some e =>
              ret (alive, Some (Go.ErrWrap "passing event to event listener" e))
          | None => pollEvents d rest alive
          end
      | None =>
          if decide (eventType = EventTypeQuit)
          then pollEvents d rest false
          else pollEvents d rest alive
      end
  end.

Definition InputEnd (d : Driver) : M unit :=
  on (context d) (fun c => effect (ContextInputEnd c)).

Definition StyleSetFont (d : Driver) (f : option Handle) : M unit :=
  on f (fun fh => on (context d) (fun c => effect (ContextStyleSetFont c fh))).

Definition PreRender (d : Driver) : M (option Go.error) :=
  let* _ := on (context d) (fun c => effect (ContextClear c)) in
  let* _ := on (context d) (fun c => effect (ContextInputBegin c)) in
  deferring
    (let* queue := get events in
     let* (alive, returned) := pollEvents d queue true in
     match returned with
     | Some e => ret (Some e)
     | None =>
     let* _ := InputEnd d in
     if negb alive then ret (Some Go.ErrQuit) else
     let* (old, err) := GetDrawColor (renderer d) in
     match err with
     | Some e => ret (Some (Go.ErrWrap "getting renderer draw color" e))
     | None =>
     deferring
       (let* err := SetDrawColor (renderer d) (bgColor d) in
        match err with
        | Some e => ret (Some (Go.ErrWrap "setting renderer draw color" e))
        | None =>
        let* err := on (renderer d) (fun r => fallible (RendererClear r)) in
        match err with
        | Some e => ret (Some (Go.ErrWrap "clearing renderer" e))
        | None =>
        let* _ :=
          if F32.ltb F32.one_and_half (uiScale d)
          then StyleSetFont d (largeFont d)
          else StyleSetFont d (font d) in
        ret None
        end end)
       (fun err =>
          let* err2 := SetDrawColor (renderer d) old in
          match err2, err with
          | Some _, None => ret (Some (Go.ErrWrapNil "restoring renderer draw color"))
          | _, _ => ret err
          end)
       (let* _ := SetDrawColor (renderer d) old in ret tt)
     end end)
    (fun err => let* _ := InputEnd d in ret err)
    (InputEnd d).

(** The clamp of [PostRender], statement by statement. *)
Definition clampRect (viewport clipRect : sdl.Rect) : sdl.Rect :=
  let clipRect :=
    if sdl.X clipRect <? 0
    then {| sdl.X := 0; sdl.Y := sdl.Y clipRect;
            sdl.W := Go.wrap32 (sdl.W clipRect + sdl.H clipRect);
            sdl.H := sdl.H clipRect |}
    else clipRect in
  let clipRect :=
    if sdl.Y clipRect <? 0
    then {| sdl.X := sdl.X clipRect; sdl.Y := 0;
            sdl.W := sdl.W clipRect;
            sdl.H := Go.wrap32 (sdl.H clipRect + sdl.Y clipRect) |}
    else clipRect in
  let clipRect :=
    if sdl.W viewport <? sdl.W clipRect
    then {| sdl.X := sdl.X clipRect; sdl.Y := sdl.Y clipRect;
            sdl.W := sdl.W viewport; sdl.H := sdl.H clipRect |}
    else clipRect in
  if sdl.H viewport <? sdl.H clipRect
  then {| sdl.X := sdl.X clipRect; sdl.Y := sdl.Y clipRect;
          sdl.W := sdl.W clipRect; sdl.H := sdl.H viewport |}
  else clipRect.

(** The clip rectangle [PostRender] computes for a draw command. *)
Definition commandClipRect (d : Driver) (viewport : sdl.Rect)
    (cmd : nk.DrawCommand) : sdl.Rect :=
  let clipRect :=
    {| sdl.X := F32.to_int32 (nk.X (nk.ClipRect cmd));
       sdl.Y := F32.to_int32 (nk.Y (nk.ClipRect cmd));
       sdl.W := F32.to_int32 (nk.W (nk.ClipRect cmd));
       sdl.H := F32.to_int32 (nk.H (nk.ClipRect cmd)) |} in
  if clampClipRect d then clampRect viewport clipRect else clipRect.

(** The closure [PostRender] passes to [DrawForEach]. It shares the
    variables [indices] and [err] with [PostRender]; it returns whether
    the iteration goes on. *)
Definition drawCommand (d : Driver) (viewport : sdl.Rect) (vertices : Go.slice)
    (cmd : nk.DrawCommand) (indices : Go.slice) (err : option Go.error)
    : M (Go.slice * option Go.error * bool) :=
  if nk.ElemCount cmd =? 0 then ret (indices, err, true) else
  let clipRect := commandClipRect d viewport cmd in
  let* err := SetClipRect (renderer d) (Some clipRect) in
  match err with
  | Some e =>
      ret (indices, Some (Go.ErrWrap "setting renderer clip rectangle" e), false)
  | None =>
      match Go.slice_to indices (nk.ElemCount cmd) with
      | None => panic
      | Some batch =>
          let* err := on (renderer d) (fun r =>
            fallible (RendererGeometry r (nk.Texture cmd) (Go.s_len vertices)
                        (Go.s_off batch) (Go.s_len batch))) in
          match err with
          | Some e =>
              ret (indices, Some (Go.ErrWrap "rendering raw geometry" e), false)
          | None =>
              match Go.slice_from indices (nk.ElemCount cmd) with
              | None => panic
              | Some indices' => ret (indices', err, true)
              end
          end
      end
  end.

(** [DrawForEach]: the commands in order, until the closure returns
    false. *)
Fixpoint DrawForEach (d : Driver) (viewport : sdl.Rect) (vertices : Go.slice)
    (cmds : list nk.DrawCommand) (indices : Go.slice) (err : option Go.error)
    : M (Go.slice * option Go.error) :=
  match cmds with
  | [] => ret (indices, err)
  | cmd :: rest =>
      let* (indices', err', ok) := drawCommand d viewport vertices cmd indices err in
      if ok then DrawForEach d viewport vertices rest indices' err'
      else ret (indices', err')
  end.

(** [PostRender] after the scale is set, up to its [return]. *)
Definition PostRender_body (d : Driver) : M (option Go.error) :=
  let* _ := Buffer_Clear_commands (commands d) in
  let* _ := Buffer_Clear_elements (elements d) in
  let* _ := Buffer_Clear_vertices (vertices d) in
  let* err := Convert (context d) in
  match err with
  | Some e => ret (Some (Go.ErrWrap "converting render commands" e))
  | None =>
      let* oldClipRect := GetClipRect (renderer d) in
      let* viewport := GetViewport (renderer d) in
      let* ebytes := on (elements d) (fun _ =>
                       get (fun w => Memory (elements_mem w) (elements_spare w))) in
      let indices := reinterpretSlice ebytes 4 in
      let* vbytes := on (vertices d) (fun _ =>
                       get (fun w => Memory (vertices_mem w) (vertices_spare w))) in
      let verts := reinterpretSlice vbytes vertexSize in
      let* cmds := on (context d) (fun _ => on (commands d) (fun _ => get commands_mem)) in
      let* (_, err) := DrawForEach d viewport verts cmds indices err in
      match err with
      | Some e => ret (Some (Go.ErrWrap "error in context.DrawForEach" e))
      | None =>
          let* err := SetClipRect (renderer d) (Some oldClipRect) in
          match err with
          | Some e => ret (Some (Go.ErrWrap "restoring clip rect" e))
          | None =>
              let* _ := on (renderer d) (fun r => effect (RendererPresent r)) in
              ret None
          end
      end
  end.

Definition PostRender (d : Driver) : M (option Go.error) :=
  let* (scaleX, scaleY) := GetScale (renderer d) in
  let* err := SetScale (renderer d) (uiScale d) (uiScale d) in
  match err with
  | Some e => ret (Some (Go.ErrWrap "setting renderer scale" e))
  | None =>
      deferring (PostRender_body d)
        (fun err =>
           let* err2 := SetScale (renderer d) scaleX scaleY in
           match err2, err with
           | Some _, None => ret (Some (Go.ErrWrapNil "restoring renderer scale"))
           | _, _ => ret err
           end)
        (let* _ := SetScale (renderer d) scaleX scaleY in ret tt)
  end.

(** ** States to run the driver on *)

Definition no_failure : nat -> option Go.error := fun _ => None.

(** The [k]-th fallible call fails with [e], every other one succeeds. *)
Definition failing_at (k : nat) (e : Go.error) : nat -> option Go.error :=
  fun n => if Nat.eqb n k then Some e else None.

Definition black : sdl.Color := {| sdl.R := 0; sdl.G := 0; sdl.B := 0; sdl.A := 255 |}.

(** An 800x600 window on a display of twice that density, clipping
    disabled, nothing created yet. *)
Definition desktop (out : nat -> option Go.error) (backend : string)
    (ver : Z * Z * Z) (evs : list sdl.Event) (cmds : list nk.DrawCommand)
    (indices : Z) : World :=
  {| outcome := out; ticks := 0; log := []; fresh := 1%positive;
     rend := {| scale := (F32.one, F32.one); clip := None;
                viewport := {| sdl.X := 0; sdl.Y := 0; sdl.W := 800; sdl.H := 600 |};
                drawColor := black; outputSize := (1600, 1200); name := backend |};
     windowSize := (800, 600); version := ver; baked := Some (512, 256);
     events := evs; gui_commands := cmds; gui_elements := 4 * indices;
     gui_vertices := vertexSize * indices;
     commands_mem := []; elements_mem := 0; vertices_mem := 0;
     elements_spare := 0; vertices_spare := 0 |}.

(** The driver [NewDriver] gives, for a handler [h]. *)
Definition blank (h : EventHandler) (listener : option EventListener) : Driver :=
  {| eventListener := listener; eventHandler := h;
     window := None; renderer := None; fontTex := None;
     context := None; atlas := None; font := None;
     largeFont := None; null := None; convertConf := None;
     commands := None; elements := None; vertices := None;
     uiScale := F32.one;
     bgColor := {| sdl.R := 0; sdl.G := 0; sdl.B := 0; sdl.A := 0 |};
     clampClipRect := false |}.

(** The driver a successful [Init] leaves on [desktop]. *)
Definition ready (h : EventHandler) (listener : option EventListener)
    (clamp : bool) : Driver :=
  {| eventListener := listener; eventHandler := h;
     window := Some 1%positive; renderer := Some 2%positive;
     fontTex := Some 7%positive;
     context := Some 3%positive; atlas := Some 4%positive;
     font := Some 5%positive; largeFont := Some 6%positive;
     null := Some 7%positive; convertConf := Some 8%positive;
     commands := Some 9%positive; elements := Some 10%positive;
     vertices := Some 11%positive;
     uiScale := F32.one;
     bgColor := {| sdl.R := 0; sdl.G := 0; sdl.B := 0; sdl.A := 0 |};
     clampClipRect := clamp |}.

Definition default_handler : EventHandler :=
  match NewEventHandler DefaultBindings_entries DefaultBindings with
  | Some h => h
  | None => {| bindings := ∅ |}
  end.

Definition rect32 (x y w h : Z) : nk.Rect :=
  {| nk.X := F32.of_Z x; nk.Y := F32.of_Z y; nk.W := F32.of_Z w; nk.H := F32.of_Z h |}.

Definition command (count : Z) (x y w h : Z) : nk.DrawCommand :=
  {| nk.ElemCount := count; nk.ClipRect := rect32 x y w h;
     nk.Texture := Some 7%positive |}.

Definition boom : Go.error := Go.ErrLib "boom".

(** ** What the specification speaks of *)

(** All the bindings of [bs] written to [dst], the later over the
    earlier. *)
Definition writeAll (bs : list keyBinding) (dst : gmap KeyInput KeyAction)
    : gmap KeyInput KeyAction :=
  foldl (fun m b => <[ input b := action b ]> m) dst bs.

(** The expanded bindings of the entries of a table, in the order
    [range] visits them. *)
Definition expansions (order : list (KeyInput * KeyAction)) : list keyBinding :=
  order ≫= (fun p => expandEntry (fst p) (snd p)).

(** A table that binds Ctrl+c, and LCtrl+c to something else. *)
Definition conflicting : gmap KeyInput KeyAction :=
  list_to_map [ (key sdl.K_c sdl.KMOD_CTRL, act1 nk.KeyCopy);
                (key sdl.K_c sdl.KMOD_LCTRL, act1 nk.KeyCut) ].

Definition alias_first : list (KeyInput * KeyAction) :=
  [ (key sdl.K_c sdl.KMOD_CTRL, act1 nk.KeyCopy);
    (key sdl.K_c sdl.KMOD_LCTRL, act1 nk.KeyCut) ].

Definition alias_last : list (KeyInput * KeyAction) :=
  [ (key sdl.K_c sdl.KMOD_LCTRL, act1 nk.KeyCut);
    (key sdl.K_c sdl.KMOD_CTRL, act1 nk.KeyCopy) ].

Definition pageDown : sdl.Keysym :=
  {| sdl.Sym := sdl.K_PAGEDOWN; sdl.Mod := sdl.KMOD_NONE |}.

(** The scale [SetUIScale(0)] detects: the height the renderer draws to
    over the height of the window. *)
Definition autoDetected (w : World) : float32 :=
  F32.div (F32.of_Z (snd (outputSize (rend w)))) (F32.of_Z (snd (windowSize w))).

(** The releases [Destroy] owes a driver, in the order it makes them. *)
Definition frees (d : Driver) : list Call :=
  NkFree <$> omap id [vertices d; elements d; commands d; convertConf d;
                      atlas d; context d].

Definition destroys (d : Driver) : list Call :=
  (TextureDestroy <$> option_list (fontTex d))
  ++ (RendererDestroy <$> option_list (renderer d))
  ++ (WindowDestroy <$> option_list (window d)).

Definition releases (d : Driver) : list Call :=
  frees d ++ destroys d ++ [SdlQuit].

(** The first error among the outcomes of the [n] fallible calls made
    from tick [t] on. *)
Fixpoint firstError (out : nat -> option Go.error) (t n : nat) : option Go.error :=
  match n with
  | O => None
  | S n' =>
      match out t with
      | Some e => Some e
      | None => firstError out (S t) n'
      end
  end.

(** The clamp as the specification words it: a negative X (resp. Y) is
    set to 0 and the width (resp. height) reduced by the amount below
    zero; width and height are capped at the viewport's. *)
Definition clampRect_spec (viewport clipRect : sdl.Rect) : sdl.Rect :=
  let w := if sdl.X clipRect <? 0
           then Go.wrap32 (sdl.W clipRect + sdl.X clipRect) else sdl.W clipRect in
  let h := if sdl.Y clipRect <? 0
           then Go.wrap32 (sdl.H clipRect + sdl.Y clipRect) else sdl.H clipRect in
  {| sdl.X := Z.max 0 (sdl.X clipRect); sdl.Y := Z.max 0 (sdl.Y clipRect);
     sdl.W := Z.min w (sdl.W viewport); sdl.H := Z.min h (sdl.H viewport) |}.

(** The renderer calls the draw commands [cmds] are due, the index
    cursor being at [cursor]: none for a command without elements, one
    clip rectangle and one draw for every other. *)
Fixpoint drawCalls (d : Driver) (r : Handle) (viewport : sdl.Rect) (nverts : Z)
    (cmds : list nk.DrawCommand) (cursor : Z) : list Call :=
  match cmds with
  | [] => []
  | cmd :: rest =>
      if nk.ElemCount cmd =? 0
      then drawCalls d r viewport nverts rest cursor
      else RendererSetClipRect r (Some (commandClipRect d viewport cmd))
           :: RendererGeometry r (nk.Texture cmd) nverts cursor (nk.ElemCount cmd)
           :: drawCalls d r viewport nverts rest (cursor + nk.ElemCount cmd)
  end.

Definition totalElems (cmds : list nk.DrawCommand) : Z :=
  foldr (fun c n => nk.ElemCount c + n) 0 cmds.

Definition isQuit (e : sdl.Event) : bool :=
  match e with
  | sdl.QuitEvent => true
  | _ => false
  end.

(** The calls one pending event causes: it is polled and translated. *)
Definition translate (h : EventHandler) (c : Handle) (e : sdl.Event) : list Call :=
  PollEvent e :: (ContextInput c <$> fst (HandleEvent h e)).

(** The world in which [PostRender] runs its body: the scale is set. *)
Definition scaled (d : Driver) (r : Handle) (w : World) : World :=
  with_rend (with_log w (S (ticks w))
               (log w ++ [RendererSetScale r (uiScale d) (uiScale d)]))
    (set_scale (rend w) (uiScale d, uiScale d)).

(** A listener that lets every event pass. *)
Definition idle_listener : EventListener := fun _ _ _ => None.

(** The world after a call that cannot fail, and after one that can. *)
Definition logged (w : World) (c : Call) : World :=
  with_log w (ticks w) (log w ++ [c]).

Definition ticked (w : World) (c : Call) : World :=
  with_log w (S (ticks w)) (log w ++ [c]).

(** The index cursor after [n] indices are consumed. *)
Definition advance (s : Go.slice) (n : Z) : Go.slice :=
  {| Go.s_off := Go.s_off s + n; Go.s_len := Go.s_len s - n;
     Go.s_cap := Go.s_cap s - n |}.

(** The world after a draw command is drawn: its clip rectangle is set
    and its indices, from [cursor] on, are drawn. *)
Definition drawn (d : Driver) (r : Handle) (viewport : sdl.Rect) (nverts : Z)
    (cmd : nk.DrawCommand) (cursor : Z) (w : World) : World :=
  ticked
    (with_rend
       (ticked w (RendererSetClipRect r (Some (commandClipRect d viewport cmd))))
       (set_clip (rend w) (Some (commandClipRect d viewport cmd))))
    (RendererGeometry r (nk.Texture cmd) nverts cursor (nk.ElemCount cmd)).

(** The world after the three buffers are cleared. *)
Definition cleared (cb eb vb : Handle) (w : World) : World :=
  with_mem
    (with_log w (ticks w) (log w ++ [BufferClear cb; BufferClear eb; BufferClear vb]))
    [] 0 0.

(** The frame the context has recorded is well formed: element counts
    are unsigned and the element buffer holds the indices of all the
    commands. *)
Definition frame_ok (w : World) : Prop :=
  Forall (fun c => 0 <= nk.ElemCount c) (gui_commands w) /\
  totalElems (gui_commands w) <= Z.quot (gui_elements w) 4.

(** No call fails from now on. *)
Definition quiet (w : World) : Prop :=
  forall n, (ticks w <= n)%nat -> outcome w n = None.

(** The deferred closure of [PostRender], for the scale [(x, y)] read on
    entry. *)
Definition restoreScale (d : Driver) (x y : float32) (err : option Go.error)
    : M (option Go.error) :=
  let* err2 := SetScale (renderer d) x y in
  match err2, err with
  | Some _, None => ret (Some (Go.ErrWrapNil "restoring renderer scale"))
  | _, _ => ret err
  end.

(** [m] returns from [w], with a value and a world that satisfy [Q]. *)
Definition returns {A : Type} (m : M A) (w : World) (Q : A -> World -> Prop) : Prop :=
  exists a w', m w = (Val a, w') /\ Q a w'.

(** The error [Init] returns when the renderer-info step fails. *)
Definition info_failure (res : option Go.error) : Prop :=
  exists e, res = Some (Go.ErrWrap "getting SDL renderer info" e).

(** A frame of three commands; the second has no elements, the first
    starts left of the viewport, the third above it. *)
Definition three_commands : list nk.DrawCommand :=
  [ command 6 (-5) 0 100 50; command 0 0 0 10 10; command 3 0 (-10) 100 50 ].

Definition metal_world (out : nat -> option Go.error) (evs : list sdl.Event)
    : World :=
  desktop out "metal" (2, 0, 20) evs three_commands 9.

Definition setsClip (c : Call) : bool :=
  match c with
  | RendererSetClipRect _ _ => true
  | _ => false
  end.

(** A handler without bindings. *)
Definition unbound : EventHandler := {| bindings := ∅ |}.

(** The table that binds Ctrl with a key to [a1] and LCtrl with the same
    key to [a2]. *)
Definition ctrl_and_lctrl (code : sdl.Keycode) (a1 a2 : KeyAction)
    : gmap KeyInput KeyAction :=
  <[ key code sdl.KMOD_CTRL := a1 ]> (<[ key code sdl.KMOD_LCTRL := a2 ]> ∅).

(** ** events.go: the string form of an input *)

(** [appendMod] on a [strings.Builder] that holds [dst]: what the
    builder holds after the call, and the result. *)
Definition appendMod (dst : string) (mod_ mask : sdl.Keymod) (name : string)
    : string * bool :=
  if negb (Z.land mod_ mask =? mask) then (dst, false)
  else
    let dst := if negb (String.length dst =? 0)%nat
               then String.append dst "+" else dst in
    (String.append dst name, true).

(** The three calls of [ToString] for one modifier: the generic name,
    or else the names of the left and of the right key. *)
Definition appendMods (buf : string) (mod_ both left right : sdl.Keymod)
    (name lname rname : string) : string :=
  let '(buf, ok) := appendMod buf mod_ both name in
  if negb ok then
    let '(buf, _) := appendMod buf mod_ left lname in
    let '(buf, _) := appendMod buf mod_ right rname in
    buf
  else buf.

(** [ToString]; [GetKeyName] is [sdl.GetKeyName]. *)
Definition ToString (GetKeyName : sdl.Keycode -> string) (ki : KeyInput)
    (guiKeyName : string) : string :=
  if Code ki =? sdl.K_UNKNOWN then EmptyString else
  let buf := EmptyString in
  let buf := appendMods buf (Mod ki) sdl.KMOD_CTRL sdl.KMOD_LCTRL sdl.KMOD_RCTRL
               "Ctrl" "LCtrl" "RCtrl" in
  let buf := appendMods buf (Mod ki) sdl.KMOD_SHIFT sdl.KMOD_LSHIFT sdl.KMOD_RSHIFT
               "Shift" "LShift" "RShift" in
  let buf := appendMods buf (Mod ki) sdl.KMOD_ALT sdl.KMOD_LALT sdl.KMOD_RALT
               "Alt" "LAlt" "RAlt" in
  let buf := appendMods buf (Mod ki) sdl.KMOD_GUI sdl.KMOD_LGUI sdl.KMOD_RGUI
               guiKeyName (String.append "L" guiKeyName)
               (String.append "R" guiKeyName) in
  let buf := if negb (String.length buf =? 0)%nat
             then String.append buf "+" else buf in
  String.append buf (GetKeyName (Code ki)).

(** [String] calls [ToString("GUI")]. *)
Definition KeyInput_String (GetKeyName : sdl.Keycode -> string) (ki : KeyInput)
    : string :=
  ToString GetKeyName ki "GUI".

(** ** sdldriver.go: the default SDL driver *)

(** [RenderOpts] *)
Record RenderOpts : Type := { Drivers : list string; Flags : Z }.

(** What SDL answers to the calls of [CreateRenderer]: the number of
    render drivers, the name in the info of the [i]-th, and the renderer
    it creates for a window, a driver index and flags. *)
Record Sdl : Type :=
  { GetNumRenderDrivers : Z + Go.error;
    GetRenderDriverInfo : Z -> string + Go.error;
    SdlCreateRenderer : option Handle -> Z -> Z -> Handle + Go.error }.

(** The calls made. *)
Inductive SdlCall : Type :=
  | CallGetNumRenderDrivers
  | CallGetRenderDriverInfo (i : Z)
  | CallCreateRenderer (window : option Handle) (index : Z) (flags : Z).

(** [%d] in a format: the decimal form of an [int]. *)
Definition itoa (i : Z) : string := NilEmpty.string_of_int (Z.to_int i).

(** The loop that fills [infos]: [count] iterations are left, [i] is the
    index. It gives the names read, or the index and the error of the
    call that failed. *)
Fixpoint getInfos (sdl : Sdl) (count : nat) (i : Z)
    : list SdlCall * (list string + Z * Go.error) :=
  match count with
  | O => ([], inl [])
  | S count' =>
      match GetRenderDriverInfo sdl i with
      | inr err => ([CallGetRenderDriverInfo i], inr (i, err))
      | inl name =>
          let '(calls, r) := getInfos sdl count' (i + 1) in
          (CallGetRenderDriverInfo i :: calls,
           match r with
           | inl names => inl (name :: names)
           | inr e => inr e
           end)
      end
  end.

(** The inner loop of [preferenceLoop]: the index of the first of
    [infos], counted from [i], whose name is [driver]. *)
Fixpoint findInfo (infos : list string) (driver : string) (i : Z) : option Z :=
  match infos with
  | [] => None
  | name :: rest =>
      if String.eqb name driver then Some i else findInfo rest driver (i + 1)
  end.

(** [preferenceLoop]: the value of [renderDriver] after it, which was -1
    before. *)
Fixpoint preferenceLoop (drivers : list string) (infos : list string) : Z :=
  match drivers with
  | [] => -1
  | driver :: rest =>
      match findInfo infos driver 0 with
      | Some i => i
      | None => preferenceLoop rest infos
      end
  end.

(** The last statements of [CreateRenderer]. *)
Definition createRenderer (sdl : Sdl) (flags : Z) (window : option Handle)
    (renderDriver : Z)
    : list SdlCall * res (option Handle * option Go.error) :=
  ([CallCreateRenderer window renderDriver flags],
   match SdlCreateRenderer sdl window renderDriver flags with
   | inr err => Val (None, Some (Go.ErrWrap "creating renderer" err))
   | inl renderer => Val (Some renderer, None)
   end).

(** [CreateRenderer]: the calls made and the result; [make] panics on a
    negative length. *)
Definition DefaultSDLDriver_CreateRenderer (sdl : Sdl) (Render : RenderOpts)
    (window : option Handle)
    : list SdlCall * res (option Handle * option Go.error) :=
  if negb (length (Drivers Render) =? 0)%nat then
    match GetNumRenderDrivers sdl with
    | inr err =>
        ([CallGetNumRenderDrivers],
         Val (None, Some (Go.ErrWrap "getting number of render drivers" err)))
    | inl numRenderDrivers =>
        if numRenderDrivers <? 0 then ([CallGetNumRenderDrivers], Panic) else
        match getInfos sdl (Z.to_nat numRenderDrivers) 0 with
        | (calls, inr (i, err)) =>
            (CallGetNumRenderDrivers :: calls,
             Val (None, Some (Go.ErrWrap
                                ("getting info for render driver " ++ itoa i) err)))
        | (calls, inl infos) =>
            let renderDriver := preferenceLoop (Drivers Render) infos in
            if renderDriver <? 0 then
              (CallGetNumRenderDrivers :: calls,
               Val (None, Some (Go.ErrNew "could not find any preferred render driver")))
            else
              let '(calls', r) := createRenderer sdl (Flags Render) window renderDriver in
              (CallGetNumRenderDrivers :: calls ++ calls', r)
        end
    end
  else createRenderer sdl (Flags Render) window (-1).

(** ** What the further properties speak of *)

(** [input.Mod&both == both]: the binding holds the modifier [both]. *)
Definition hasMod (both : sdl.Keymod) (b : keyBinding) : bool :=
  Z.land (Mod (input b)) both =? both.

(** The binding with [both] replaced by one of its two variants. *)
Definition withMod (both variant : sdl.Keymod) (b : keyBinding) : keyBinding :=
  {| input := {| Code := Code (input b);
                 Mod := Z.lor (Z.ldiff (Mod (input b)) both) variant |};
     action := action b |}.

(** One of the four generic modifiers is held in full. *)
Definition hasAlias (m : sdl.Keymod) : bool :=
  (Z.land m sdl.KMOD_CTRL =? sdl.KMOD_CTRL)
  || (Z.land m sdl.KMOD_SHIFT =? sdl.KMOD_SHIFT)
  || (Z.land m sdl.KMOD_ALT =? sdl.KMOD_ALT)
  || (Z.land m sdl.KMOD_GUI =? sdl.KMOD_GUI).

(** The entries of a table as bindings. *)
Definition asBinding (p : KeyInput * KeyAction) : keyBinding :=
  {| input := fst p; action := snd p |}.

(** What [expandEntry] keeps of the entry in each of its bindings, and
    what it removes. *)
Definition expansionOf (inp : KeyInput) (act : KeyAction) (b : keyBinding) : Prop :=
  Code (input b) = Code inp /\ action b = act /\
  Z.land (Mod (input b)) (Mod inp) = Mod (input b).

(** The names of the keys of one modifier that [mod_] holds. *)
Definition modNames (mod_ both left right : sdl.Keymod)
    (name lname rname : string) : list string :=
  if Z.land mod_ both =? both then [name]
  else (if Z.land mod_ left =? left then [lname] else [])
       ++ (if Z.land mod_ right =? right then [rname] else []).

(** The names of all the modifier keys that [mod_] holds, Ctrl first. *)
Definition allModNames (mod_ : sdl.Keymod) (guiKeyName : string) : list string :=
  modNames mod_ sdl.KMOD_CTRL sdl.KMOD_LCTRL sdl.KMOD_RCTRL "Ctrl" "LCtrl" "RCtrl"
  ++ modNames mod_ sdl.KMOD_SHIFT sdl.KMOD_LSHIFT sdl.KMOD_RSHIFT "Shift" "LShift" "RShift"
  ++ modNames mod_ sdl.KMOD_ALT sdl.KMOD_LALT sdl.KMOD_RALT "Alt" "LAlt" "RAlt"
  ++ modNames mod_ sdl.KMOD_GUI sdl.KMOD_LGUI sdl.KMOD_RGUI
       guiKeyName (String.append "L" guiKeyName) (String.append "R" guiKeyName).

(** The release 2.0.22 of SDL is the first in which the Metal backend
    needs no clamped clip rectangle. *)
Definition needsClamp (w : World) : bool :=
  String.eqb (name (rend w)) "metal"
  && (let '(major, minor, patch) := version w in
      sdl.VERSIONNUM major minor patch <? sdl.VERSIONNUM 2 0 22).

(** The [k]-th resource created from [w] on. *)
Definition nthHandle (w : World) (k : positive) : Handle :=
  (fresh w + k - 1)%positive.

(** The calls of a successful [Init] on the driver [d] from the world
    [w], the font image being [width] by [height]. *)
Definition initCalls (d : Driver) (w : World) (width height : Z) : list Call :=
  let win := fresh w in
  let ren := nthHandle w 2 in
  let atl := nthHandle w 4 in
  let fnt := nthHandle w 5 in
  let large := nthHandle w 6 in
  let tex := nthHandle w 7 in
  [ InitSDL; CreateWindow; CreateRenderer (Some win); RendererGetInfo ren;
    CreateContext; CreateFontAtlas;
    CreateFont (Some atl) (F32.of_Z 1); CreateFont (Some atl) (F32.of_Z 2);
    AtlasBake atl; RendererCreateTexture ren width height;
    TextureUpdate tex (Go.wrap32 (4 * width)); TextureSetBlendMode tex;
    FontScaleHeight fnt (uiScale d); AtlasEnd atl (Some tex); AtlasCleanup atl;
    FontScaleHeight large (F32.of_Z 2); CreateConvertConfig (Some tex);
    NewBuffer; NewBuffer; NewBuffer ].

(** The driver a successful [Init] gives. *)
Definition initialized (d : Driver) (w : World) : Driver :=
  {| eventListener := eventListener d; eventHandler := eventHandler d;
     window := Some (fresh w); renderer := Some (nthHandle w 2);
     fontTex := Some (nthHandle w 7);
     context := Some (nthHandle w 3); atlas := Some (nthHandle w 4);
     font := Some (nthHandle w 5); largeFont := Some (nthHandle w 6);
     null := Some (nthHandle w 7); convertConf := Some (nthHandle w 8);
     commands := Some (nthHandle w 9); elements := Some (nthHandle w 10);
     vertices := Some (nthHandle w 11);
     uiScale := uiScale d; bgColor := bgColor d;
     clampClipRect := if needsClamp w then true else clampClipRect d |}.

(** What the event loop of [PreRender] concludes from one event: nothing,
    that the application is to quit ([ErrQuit]), or the error of the
    listener. *)
Definition verdict (d : Driver) (e : sdl.Event) : option Go.error :=
  let '(_, (eventType, usedByNuklear)) := HandleEvent (eventHandler d) e in
  match eventListener d with
  | Some listener => listener e eventType usedByNuklear
  | None => if decide (eventType = EventTypeQuit) then Some Go.ErrQuit else None
  end.

(** The loop concludes from the event that the application is to quit. *)
Definition quits (d : Driver) (e : sdl.Event) : bool :=
  match verdict d e with
  | Some Go.ErrQuit => true
  | _ => false
  end.

(** The loop goes on after the event. *)
Definition passes (d : Driver) (e : sdl.Event) : bool :=
  match verdict d e with
  | None | Some Go.ErrQuit => true
  | Some _ => false
  end.

(** The world after the event [e] is polled and translated, [rest]
    being the events still pending. *)
Definition polled (d : Driver) (c : Handle) (e : sdl.Event) (rest : list sdl.Event)
    (w : World) : World :=
  with_log (with_events w rest) (ticks w)
    (log w ++ translate (eventHandler d) c e).

(** The font [PreRender] selects. *)
Definition frameFont (d : Driver) : option Handle :=
  if F32.ltb F32.one_and_half (uiScale d) then largeFont d else font d.

(** A listener that asks to quit when a key event arrives. *)
Definition quit_on_key : EventListener :=
  fun _ eventType _ =>
    if decide (eventType = EventTypeInputKey) then Some Go.ErrQuit else None.

(** A listener that fails on a scroll event. *)
Definition fail_on_scroll : EventListener :=
  fun _ eventType _ =>
    if decide (eventType = EventTypeInputScroll) then Some boom else None.

(** The Home key is pressed. *)
Definition home_key : sdl.Event :=
  sdl.KeyboardEvent sdl.PRESSED {| sdl.Sym := sdl.K_HOME; sdl.Mod := sdl.KMOD_NONE |}.

(** The command has elements to draw. *)
Definition draws (cmd : nk.DrawCommand) : bool := negb (nk.ElemCount cmd =? 0).

(** The number of fallible calls the draw commands [cmds] make: a clip
    rectangle and a draw for each command that has elements. *)
Definition drawTicks (cmds : list nk.DrawCommand) : nat :=
  2 * length (List.filter draws cmds).

(** No call fails before the [k]-th. *)
Definition quiet_until (w : World) (k : nat) : Prop :=
  forall n, (ticks w <= n < k)%nat -> outcome w n = None.

(** The world in which [PostRender] runs the draw commands: the buffers
    are cleared and hold the converted frame. *)
Definition converted (c cb eb vb : Handle) (w : World) : World :=
  with_mem (ticked (cleared cb eb vb w) (ContextConvert c))
    (gui_commands w) (gui_elements w) (gui_vertices w).

(** The calls of [PostRender] up to the draw commands. *)
Definition convertCalls (d : Driver) (r c cb eb vb : Handle) : list Call :=
  [ RendererSetScale r (uiScale d) (uiScale d);
    BufferClear cb; BufferClear eb; BufferClear vb; ContextConvert c ].

(** The releases a driver that [Init] has set up from [w] is owed. *)
Definition initReleases (w : World) : list Call :=
  [ NkFree (nthHandle w 11); NkFree (nthHandle w 10); NkFree (nthHandle w 9);
    NkFree (nthHandle w 8); NkFree (nthHandle w 4); NkFree (nthHandle w 3);
    TextureDestroy (nthHandle w 7); RendererDestroy (nthHandle w 2);
    WindowDestroy (fresh w); SdlQuit ].

(** A display whose renderer draws [k] times the size of the 800x600
    window. *)
Definition zoomed (k : Z) : World :=
  {| outcome := no_failure; ticks := 0; log := []; fresh := 12%positive;
     rend := {| scale := (F32.one, F32.one); clip := None;
                viewport := {| sdl.X := 0; sdl.Y := 0; sdl.W := 800; sdl.H := 600 |};
                drawColor := black; outputSize := (800 * k, 600 * k);
                name := "opengl" |};
     windowSize := (800, 600); version := (2, 0, 22); baked := None;
     events := []; gui_commands := []; gui_elements := 0; gui_vertices := 0;
     commands_mem := []; elements_mem := 0; vertices_mem := 0;
     elements_spare := 0; vertices_spare := 0 |}.

(** The world whose element and vertex buffers have [e] and [v] bytes of
    capacity beyond their length. *)
Definition with_spare (w : World) (e v : N) : World :=
  {| outcome := outcome w; ticks := ticks w; log := log w; fresh := fresh w;
     rend := rend w; windowSize := windowSize w; version := version w;
     baked := baked w; events := events w;
     gui_commands := gui_commands w; gui_elements := gui_elements w;
     gui_vertices := gui_vertices w; commands_mem := commands_mem w;
     elements_mem := elements_mem w; vertices_mem := vertices_mem w;
     elements_spare := e; vertices_spare := v |}.

(** An SDL with the render drivers [names], which creates the renderer
    [h] whatever it is asked for. *)
Definition sdl_with (names : list string) (h : Handle) : Sdl :=
  {| GetNumRenderDrivers := inl (Z.of_nat (length names));
     GetRenderDriverInfo := fun i =>
       match names !! Z.to_nat i with
       | Some n => inl n
       | None => inr (Go.ErrLib "invalid index")
       end;
     SdlCreateRenderer := fun _ _ _ => inl h |}.

(** SDL names its render drivers without a failure: there are
    [length names] of them and the [i]-th is called [names !! i]. *)
Definition enumerates (sdl : Sdl) (names : list string) : Prop :=
  GetNumRenderDrivers sdl = inl (Z.of_nat (length names)) /\
  forall (i : nat) (n : string),
    names !! i = Some n -> GetRenderDriverInfo sdl (Z.of_nat i) = inl n.

(** The calls that read the infos of [count] drivers from index [i] on. *)
Definition infoCalls (count : nat) (i : Z) : list SdlCall :=
  (fun k => CallGetRenderDriverInfo (i + Z.of_nat k)) <$> seq 0 count.

(** An SDL that names three render drivers and fails on the info of the
    second. *)
Definition sdl_broken : Sdl :=
  {| GetNumRenderDrivers := inl 3;
     GetRenderDriverInfo := fun i =>
       if i =? 1 then inr boom else inl "opengl";
     SdlCreateRenderer := fun _ _ _ => inl 2%positive |}.

(** The calls of [Init] up to the baking of the font atlas. *)
Definition bakeCalls (w : World) : list Call :=
  [ InitSDL; CreateWindow; CreateRenderer (Some (fresh w));
    RendererGetInfo (nthHandle w 2); CreateContext; CreateFontAtlas;
    CreateFont (Some (nthHandle w 4)) (F32.of_Z 1);
    CreateFont (Some (nthHandle w 4)) (F32.of_Z 2);
    AtlasBake (nthHandle w 4) ].

(** The error of [Init] when the atlas bakes no image. *)
Definition noImage : Go.error :=
  Go.ErrWrap "baking font" (Go.ErrNew "font baking returned nil image").

(** * Properties *)

(** ** The binding table *)

Lemma writeAll_lookup_notin (bs : list keyBinding)
    (dst : gmap KeyInput KeyAction) (k : KeyInput) :
  k ∉ input <$> bs -> writeAll bs dst !! k = dst !! k.
Proof.
  revert dst. induction bs as [|b bs IH]; intros dst Hk; [done|].
  rewrite fmap_cons, not_elem_of_cons in Hk. destruct Hk as [Hne Hk].
  cbn. unfold writeAll in IH. rewrite IH by done.
  by rewrite lookup_insert_ne.
Qed.

Lemma writeAll_lookup_in (bs : list keyBinding)
    (dst : gmap KeyInput KeyAction) (b : keyBinding) :
  NoDup (input <$> bs) -> b ∈ bs -> writeAll bs dst !! input b = Some (action b).
Proof.
  revert dst. induction bs as [|b0 bs IH]; intros dst Hnd Hb.
  - by apply elem_of_nil in Hb.
  - rewrite fmap_cons, NoDup_cons in Hnd. destruct Hnd as [Hnotin Hnd].
    apply elem_of_cons in Hb as [->|Hb].
    + cbn. fold (writeAll bs (<[input b0:=action b0]> dst)).
      rewrite writeAll_lookup_notin by done. apply lookup_insert_eq.
    + cbn. by apply IH.
Qed.

(** Bindings for inputs that [dst] does not hold are written without a
    panic. *)
Lemma writeBindings_fresh (src : gmap KeyInput KeyAction) (bs : list keyBinding)
    (dst : gmap KeyInput KeyAction) :
  NoDup (input <$> bs) ->
  (forall b, b ∈ bs -> dst !! input b = None) ->
  writeBindings src bs dst = Some (writeAll bs dst).
Proof.
  revert dst. induction bs as [|b bs IH]; intros dst Hnd Hfresh; [done|].
  rewrite fmap_cons, NoDup_cons in Hnd. destruct Hnd as [Hnotin Hnd].
  cbn. rewrite (Hfresh b) by apply list_elem_of_here.
  apply IH; [done|]. intros b' Hb'.
  rewrite lookup_insert_ne.
  - apply Hfresh. by apply list_elem_of_further.
  - intros Heq. apply Hnotin. rewrite Heq. by apply list_elem_of_fmap_2.
Qed.

Lemma expandModBindings_fresh (src : gmap KeyInput KeyAction)
    (order : list (KeyInput * KeyAction)) (dst : gmap KeyInput KeyAction) :
  NoDup (input <$> expansions order) ->
  (forall b, b ∈ expansions order -> dst !! input b = None) ->
  expandModBindings order dst src = Some (writeAll (expansions order) dst).
Proof.
  revert dst. induction order as [|[inp act] rest IH]; intros dst Hnd Hfresh; [done|].
  unfold expansions in Hnd, Hfresh. rewrite bind_cons in Hnd, Hfresh.
  cbn [fst snd] in Hnd, Hfresh.
  rewrite fmap_app, NoDup_app in Hnd. destruct Hnd as (Hnd1 & Hdisj & Hnd2).
  cbn [expandModBindings].
  rewrite writeBindings_fresh; [|done|].
  2:{ intros b Hb. apply Hfresh. apply elem_of_app. by left. }
  rewrite IH; [|done|].
  - unfold expansions at 2. rewrite bind_cons. cbn [fst snd].
    unfold writeAll. by rewrite foldl_app.
  - intros b Hb. rewrite writeAll_lookup_notin.
    + apply Hfresh. apply elem_of_app. by right.
    + intros Hin. apply (Hdisj _ Hin). by apply list_elem_of_fmap_2.
Qed.

Lemma expansions_Permutation (o1 o2 : list (KeyInput * KeyAction)) :
  o1 ≡ₚ o2 -> expansions o1 ≡ₚ expansions o2.
Proof. intros H. unfold expansions. by rewrite H. Qed.

(** A table no two entries of which expand to the same input: whatever
    the order of the iteration, [NewEventHandler] does not panic and
    the table it builds binds every expansion of every entry to the
    action of the entry. *)
Lemma NewEventHandler_disjoint (bs : gmap KeyInput KeyAction)
    (order : list (KeyInput * KeyAction)) :
  range_order bs order ->
  NoDup (input <$> expansions (map_to_list bs)) ->
  exists h, NewEventHandler order bs = Some h /\
    forall inp act b, bs !! inp = Some act -> b ∈ expandEntry inp act ->
       bindings h !! input b = Some (action b).
Proof.
  intros Hord Hnd. unfold range_order in Hord.
  assert (Hnd' : NoDup (input <$> expansions order)).
  { by rewrite (expansions_Permutation _ _ Hord). }
  unfold NewEventHandler. rewrite expandModBindings_fresh; [|exact Hnd'|].
  2:{ intros b _. apply lookup_empty. }
  eexists. split; [reflexivity|]. cbn. intros inp act b Hlk Hb.
  apply writeAll_lookup_in; [exact Hnd'|].
  unfold expansions. apply list_elem_of_bind. exists (inp, act).
  split; [exact Hb|]. rewrite Hord. by apply elem_of_map_to_list.
Qed.

(** Ctrl stands for LCtrl and RCtrl. *)
Lemma expandEntry_ctrl (code : sdl.Keycode) (act : KeyAction) :
  expandEntry (key code sdl.KMOD_CTRL) act =
    [ {| input := key code sdl.KMOD_LCTRL; action := act |};
      {| input := key code sdl.KMOD_RCTRL; action := act |} ].
Proof. reflexivity. Qed.

(** A table that holds nothing but one Ctrl binding yields that binding
    for LCtrl and for RCtrl. *)
Lemma NewEventHandler_ctrl_only (code : sdl.Keycode) (act : KeyAction) :
  exists h,
    NewEventHandler [(key code sdl.KMOD_CTRL, act)]
      {[ key code sdl.KMOD_CTRL := act ]} = Some h /\
    bindings h !! key code sdl.KMOD_LCTRL = Some act /\
    bindings h !! key code sdl.KMOD_RCTRL = Some act.
Proof.
  unfold NewEventHandler. cbn [expandModBindings].
  rewrite expandEntry_ctrl. cbn [writeBindings input action].
  rewrite lookup_empty.
  assert (Hne : key code sdl.KMOD_LCTRL <> key code sdl.KMOD_RCTRL) by (intros H; discriminate H).
  rewrite lookup_insert_ne by exact Hne. rewrite lookup_empty.
  eexists. split; [reflexivity|]. cbn [bindings]. split.
  - rewrite lookup_insert_ne by (intros H; discriminate H). apply lookup_insert_eq.
  - apply lookup_insert_eq.
Qed.

(** The table that binds Ctrl with [code] to [a1] and LCtrl with [code]
    to [a2]. *)
Lemma two_entries_range (code : sdl.Keycode) (a1 a2 : KeyAction) :
  range_order (ctrl_and_lctrl code a1 a2)
    [ (key code sdl.KMOD_CTRL, a1); (key code sdl.KMOD_LCTRL, a2) ] /\
  range_order (ctrl_and_lctrl code a1 a2)
    [ (key code sdl.KMOD_LCTRL, a2); (key code sdl.KMOD_CTRL, a1) ].
Proof.
  assert (Hne : key code sdl.KMOD_CTRL <> key code sdl.KMOD_LCTRL)
    by (intros H; discriminate H).
  assert (H : [ (key code sdl.KMOD_CTRL, a1); (key code sdl.KMOD_LCTRL, a2) ]
              ≡ₚ map_to_list (ctrl_and_lctrl code a1 a2)).
  { unfold ctrl_and_lctrl.
    rewrite map_to_list_insert by (by rewrite lookup_insert_ne, lookup_empty).
    rewrite map_to_list_insert by apply lookup_empty.
    by rewrite map_to_list_empty. }
  unfold range_order. split; [exact H|]. rewrite <- H. apply perm_swap.
Qed.

(** Visited first, the Ctrl entry makes the LCtrl entry panic when the
    two actions differ. *)
Lemma NewEventHandler_alias_first (code : sdl.Keycode) (a1 a2 : KeyAction) :
  a1 <> a2 ->
  NewEventHandler [ (key code sdl.KMOD_CTRL, a1); (key code sdl.KMOD_LCTRL, a2) ]
    (ctrl_and_lctrl code a1 a2) = None.
Proof.
  intros Hne. unfold NewEventHandler. cbn [expandModBindings].
  rewrite expandEntry_ctrl. cbn [writeBindings input action].
  rewrite lookup_empty.
  rewrite lookup_insert_ne by (intros H; discriminate H). rewrite lookup_empty.
  change (expandEntry (key code sdl.KMOD_LCTRL) a2)
    with [ {| input := key code sdl.KMOD_LCTRL; action := a2 |} ].
  cbn [writeBindings input action].
  rewrite lookup_insert_ne by (intros H; discriminate H). rewrite lookup_insert_eq.
  unfold map_index, ctrl_and_lctrl.
  rewrite lookup_insert_ne by (intros H; discriminate H). rewrite lookup_insert_eq.
  cbn [default]. by rewrite decide_True.
Qed.

(** Visited last, the Ctrl entry overwrites the LCtrl entry, whatever
    the two actions are: there is no panic. *)
Lemma NewEventHandler_alias_last (code : sdl.Keycode) (a1 a2 : KeyAction) :
  exists h,
    NewEventHandler [ (key code sdl.KMOD_LCTRL, a2); (key code sdl.KMOD_CTRL, a1) ]
      (ctrl_and_lctrl code a1 a2) = Some h /\
    bindings h !! key code sdl.KMOD_LCTRL = Some a1 /\
    bindings h !! key code sdl.KMOD_RCTRL = Some a1.
Proof.
  unfold NewEventHandler. cbn [expandModBindings].
  change (expandEntry (key code sdl.KMOD_LCTRL) a2)
    with [ {| input := key code sdl.KMOD_LCTRL; action := a2 |} ].
  cbn [writeBindings input action]. rewrite lookup_empty.
  rewrite expandEntry_ctrl. cbn [writeBindings input action].
  rewrite lookup_insert_eq.
  assert (Hsrc : map_index (ctrl_and_lctrl code a1 a2) (key code sdl.KMOD_LCTRL) = a2).
  { unfold map_index, ctrl_and_lctrl.
    rewrite lookup_insert_ne by (intros H; discriminate H).
    by rewrite lookup_insert_eq. }
  rewrite Hsrc. rewrite decide_False by (intros H; by apply H).
  rewrite lookup_insert_ne by (intros H; discriminate H).
  rewrite lookup_insert_ne by (intros H; discriminate H). rewrite lookup_empty.
  eexists. split; [reflexivity|]. cbn [bindings]. split.
  - rewrite lookup_insert_ne by (intros H; discriminate H). apply lookup_insert_eq.
  - apply lookup_insert_eq.
Qed.

(** C3, on the code: the table [conflicting] binds Ctrl+c to copy and
    LCtrl+c to cut. When the iteration visits the Ctrl entry first,
    [NewEventHandler] panics. When it visits the LCtrl entry first,
    there is no panic: the handler binds both LCtrl+c and RCtrl+c to
    copy, and the explicit binding of LCtrl+c is lost. *)
Theorem NewEventHandler_conflict_by_order :
  range_order conflicting alias_first /\
  range_order conflicting alias_last /\
  NewEventHandler alias_first conflicting = None /\
  (bindings <$> NewEventHandler alias_last conflicting) =
    Some (list_to_map [ (key sdl.K_c sdl.KMOD_LCTRL, act1 nk.KeyCopy);
                        (key sdl.K_c sdl.KMOD_RCTRL, act1 nk.KeyCopy) ]).
Proof.
  split; [|split; [|split]].
  - unfold range_order. apply (bool_decide_unpack _). vm_compute. exact I.
  - unfold range_order. apply (bool_decide_unpack _). vm_compute. exact I.
  - vm_compute. reflexivity.
  - vm_compute. reflexivity.
Qed.

(** ** The default bindings *)

Lemma DefaultBindings_range (order : list (KeyInput * KeyAction)) :
  range_order DefaultBindings order -> order ≡ₚ DefaultBindings_entries.
Proof.
  unfold range_order, DefaultBindings. intros ->.
  apply map_to_list_to_map.
  apply (bool_decide_unpack _). vm_compute. exact I.
Qed.

Lemma DefaultBindings_expansions_NoDup :
  NoDup (input <$> expansions DefaultBindings_entries).
Proof. apply (bool_decide_unpack _). vm_compute. exact I. Qed.

Lemma HandleEvent_Key1_none (h : EventHandler) (state : Z) (keysym : sdl.Keysym) :
  Key1 (map_index (bindings h) (KeysymInput keysym)) = nk.KeyNone ->
  HandleEvent h (sdl.KeyboardEvent state keysym) = ([], (EventTypeInputKey, false)).
Proof.
  intros Hk. cbn. rewrite Hk. by rewrite decide_False by (intros H; by apply H).
Qed.

(** C10: a keyboard event whose input the table maps to an action
    without a first key, whether the second key is set or not, makes
    [HandleEvent] emit no key and report a key event that was not used;
    so does an input the table does not bind. For the default bindings, in whatever order the table
    is iterated, PageDown is such an input: its action has only the
    second key, and it emits nothing. *)
Theorem HandleEvent_no_first_key :
  (forall (h : EventHandler) (state : Z) (keysym : sdl.Keysym),
      Key1 (map_index (bindings h) (KeysymInput keysym)) = nk.KeyNone ->
      HandleEvent h (sdl.KeyboardEvent state keysym)
      = ([], (EventTypeInputKey, false))) /\
  (forall (h : EventHandler) (state : Z) (keysym : sdl.Keysym),
      bindings h !! KeysymInput keysym = None ->
      HandleEvent h (sdl.KeyboardEvent state keysym)
      = ([], (EventTypeInputKey, false))) /\
  (forall (order : list (KeyInput * KeyAction)),
      range_order DefaultBindings order ->
      exists h, NewEventHandler order DefaultBindings = Some h /\
        map_index (bindings h) (KeysymInput pageDown)
        = {| Key1 := nk.KeyNone; Key2 := nk.KeyScrollDown |} /\
        forall state, HandleEvent h (sdl.KeyboardEvent state pageDown)
                      = ([], (EventTypeInputKey, false))).
Proof.
  split; [exact HandleEvent_Key1_none|]. split.
  { intros h state keysym Hnone. apply HandleEvent_Key1_none.
    unfold map_index. by rewrite Hnone. }
  intros order Hord.
  destruct (NewEventHandler_disjoint DefaultBindings order Hord) as (h & Hh & Hlk).
  { rewrite (expansions_Permutation _ DefaultBindings_entries).
    - exact DefaultBindings_expansions_NoDup.
    - apply DefaultBindings_range. unfold range_order. reflexivity. }
  exists h. split; [exact Hh|].
  assert (Hpd : map_index (bindings h) (KeysymInput pageDown)
                = {| Key1 := nk.KeyNone; Key2 := nk.KeyScrollDown |}).
  { unfold map_index.
    replace (bindings h !! KeysymInput pageDown)
      with (Some {| Key1 := nk.KeyNone; Key2 := nk.KeyScrollDown |}); [reflexivity|].
    symmetry.
    apply (Hlk (key sdl.K_PAGEDOWN 0)
               {| Key1 := nk.KeyNone; Key2 := nk.KeyScrollDown |}
               {| input := key sdl.K_PAGEDOWN 0;
                  action := {| Key1 := nk.KeyNone; Key2 := nk.KeyScrollDown |} |}).
    - vm_compute. reflexivity.
    - vm_compute. apply list_elem_of_here. }
  split; [exact Hpd|].
  intros state. apply HandleEvent_Key1_none. by rewrite Hpd.
Qed.

Lemma HandleEvent_no_first_key_witness :
  let h := {| bindings := DefaultBindings |} in
  let plain_a := {| sdl.Sym := sdl.K_a; sdl.Mod := sdl.KMOD_NONE |} in
  (Key1 (map_index (bindings h) (KeysymInput pageDown)) = nk.KeyNone /\
   HandleEvent h (sdl.KeyboardEvent sdl.PRESSED pageDown)
   = ([], (EventTypeInputKey, false))) /\
  (bindings h !! KeysymInput plain_a = None /\
   HandleEvent h (sdl.KeyboardEvent sdl.PRESSED plain_a)
   = ([], (EventTypeInputKey, false))) /\
  range_order DefaultBindings (map_to_list DefaultBindings) /\
  exists h', NewEventHandler (map_to_list DefaultBindings) DefaultBindings = Some h' /\
    map_index (bindings h') (KeysymInput pageDown)
    = {| Key1 := nk.KeyNone; Key2 := nk.KeyScrollDown |} /\
    forall state, HandleEvent h' (sdl.KeyboardEvent state pageDown)
                  = ([], (EventTypeInputKey, false)).
Proof.
  intros h plain_a.
  assert (H1 : Key1 (map_index (bindings h) (KeysymInput pageDown)) = nk.KeyNone)
    by (vm_compute; reflexivity).
  assert (H2 : bindings h !! KeysymInput plain_a = None)
    by (vm_compute; reflexivity).
  assert (H3 : range_order DefaultBindings (map_to_list DefaultBindings))
    by (unfold range_order; reflexivity).
  split; [split; [exact H1|]|].
  { exact (proj1 HandleEvent_no_first_key h sdl.PRESSED pageDown H1). }
  split; [split; [exact H2|]|].
  { exact (proj1 (proj2 HandleEvent_no_first_key) h sdl.PRESSED plain_a H2). }
  split; [exact H3|].
  exact (proj2 (proj2 HandleEvent_no_first_key) _ H3).
Defined.

(** ** float32 and the UI scale *)

Lemma digits2_pos_size (m : positive) : digits2_pos m = Pos.size m.
Proof. induction m as [m IH|m IH|]; cbn; congruence. Qed.

Lemma digits2_bounds (m : positive) :
  2 ^ (Z.pos (digits2_pos m) - 1) <= Z.pos m < 2 ^ Z.pos (digits2_pos m).
Proof.
  rewrite digits2_pos_size. split.
  - pose proof (Pos.size_le m) as H.
    assert (H' : 2 ^ Z.pos (Pos.size m) <= 2 * Z.pos m).
    { change 2 with (Z.pos 2) at 1. rewrite <- Pos2Z.inj_pow. 
      change (2 * Z.pos m) with (Z.pos m~0). by apply Pos2Z.pos_le_pos. }
    replace (Z.pos (Pos.size m)) with (Z.succ (Z.pos (Pos.size m) - 1)) in H' by lia.
    rewrite Z.pow_succ_r in H' by lia. lia.
  - pose proof (Pos.size_gt m) as H.
    change 2 with (Z.pos 2). rewrite <- Pos2Z.inj_pow. by apply Pos2Z.pos_lt_pos.
Qed.

(** A valid finite float32 has at most 24 digits, exactly 24 unless its exponent is the least one. *)
Lemma bounded_inv (m : positive) (e : Z) :
  bounded F32.prec F32.emax m e = true ->
  -149 <= e <= 104 /\ Z.pos (digits2_pos m) <= 24 /\
  (-149 < e -> Z.pos (digits2_pos m) = 24).
Proof.
  unfold bounded, canonical_mantissa, fexp, emin, F32.prec, F32.emax.
  intros H. apply andb_prop in H as [H1 H2].
  apply Z.eqb_eq in H1. apply Z.leb_le in H2. lia.
Qed.

Lemma ltb_five (s : bool) (m : positive) (e : Z) :
  bounded F32.prec F32.emax m e = true ->
  F32.ltb F32.five (S754_finite s m e) = true <-> F32.above_five (S754_finite s m e).
Proof.
  intros Hb. apply bounded_inv in Hb as (He & Hd & Hfull).
  pose proof (digits2_bounds m) as [Hlo Hhi].
  assert (Hpow : 0 < 2 ^ (e + 149)) by (apply Z.pow_pos_nonneg; lia).
  unfold F32.above_five, F32.units, F32.five_units.
  destruct s.
  - cbn. split; [discriminate|]. intros H. lia.
  - change (F32.ltb F32.five (S754_finite false m e))
      with (match (match -21 ?= e with Lt => Lt | Gt => Gt | Eq => Pos.compare_cont Eq 10485760 m end) with Lt => true | _ => false end).
    rewrite Z.mul_1_l.
    destruct (Z.compare_spec (-21) e) as [Heq|Hlt|Hgt].
    + subst e. rewrite Pos.compare_cont_spec. cbn [Pos.switch_Eq].
      change (-21 + 149) with 128. change (5 * 2 ^ 149) with (10485760 * 2 ^ 128).
      destruct (Pos.compare_spec 10485760 m) as [Hm|Hm|Hm].
      * subst m. split; [discriminate|]. lia.
      * split; [intros _|done]. apply Zmult_lt_compat_r; [exact Hpow|]. by apply Pos2Z.pos_lt_pos.
      * split; [discriminate|]. intros H. apply Zmult_lt_reg_r in H; [|exact Hpow].
        apply Pos2Z.pos_lt_pos in Hm. lia.
    + split; [intros _|done].
      rewrite Hfull in Hlo by lia.
      assert (2 ^ 129 <= 2 ^ (e + 149)) by (apply Z.pow_le_mono_r; lia).
      change (5 * 2 ^ 149) with (5 * 2 ^ 20 * 2 ^ 129).
      change (2 ^ (24 - 1)) with (8 * 2 ^ 20) in Hlo.
      nia.
    + split; [discriminate|]. intros H.
      assert (Z.pos m < 2 ^ 24).
      { eapply Z.lt_le_trans; [exact Hhi|]. apply Z.pow_le_mono_r; lia. }
      assert (2 ^ (e + 149) <= 2 ^ 127) by (apply Z.pow_le_mono_r; lia).
      change (5 * 2 ^ 149) with (5 * 2 ^ 22 * 2 ^ 127) in H.
      change (2 ^ 24) with (4 * 2 ^ 22) in *.
      nia.
Qed.

Lemma eqb_self (x : float32) : negb (F32.eqb x x) = true <-> F32.is_nan x.
Proof.
  unfold F32.eqb, SFeqb, F32.is_nan.
  destruct x as [s|s| |s m e]; cbn.
  - intuition discriminate.
  - destruct s; cbn; intuition discriminate.
  - tauto.
  - rewrite Z.compare_refl.
    destruct s; rewrite Pos.compare_cont_refl; cbn; intuition discriminate.
Qed.

Lemma ltb_zero (x : float32) :
  F32.valid x = true -> F32.ltb x F32.zero = true <-> F32.below_zero x.
Proof.
  intros Hv. destruct x as [s|s| |s m e].
  - cbn. intuition discriminate.
  - destruct s; cbn; intuition discriminate.
  - cbn. intuition discriminate.
  - apply bounded_inv in Hv as (He & _).
    assert (Hpow : 0 < 2 ^ (e + 149)) by (apply Z.pow_pos_nonneg; lia).
    unfold F32.below_zero, F32.units.
    destruct s; (split; [try discriminate|]); intros H; try reflexivity; lia.
Qed.

Lemma eqb_zero (x : float32) : F32.eqb x F32.zero = true <-> F32.is_zero x.
Proof.
  destruct x as [s|s| |s m e]; cbn; try (destruct s; cbn); intuition discriminate.
Qed.

Lemma ltb_five_valid (x : float32) :
  F32.valid x = true -> F32.ltb F32.five x = true <-> F32.above_five x.
Proof.
  destruct x as [s|s| |s m e]; intros Hv.
  - cbn. intuition discriminate.
  - destruct s; cbn; intuition discriminate.
  - cbn. intuition discriminate.
  - by apply ltb_five.
Qed.

(** The three ranges of the claim are disjoint. *)
Lemma in_0_5_accepts (x : float32) :
  F32.valid x = true -> F32.in_0_5 x ->
  negb (F32.eqb x x) || F32.ltb x F32.zero || F32.ltb F32.five x = false
  /\ F32.eqb x F32.zero = false.
Proof.
  intros Hv Hin. destruct x as [s|s| |s m e]; try done.
  assert (Hnan : negb (F32.eqb (S754_finite s m e) (S754_finite s m e)) = false).
  { apply not_true_is_false. rewrite eqb_self. cbn. tauto. }
  assert (Hneg : F32.ltb (S754_finite s m e) F32.zero = false).
  { apply not_true_is_false. rewrite (ltb_zero _ Hv). unfold F32.below_zero.
    unfold F32.in_0_5 in Hin. lia. }
  assert (Hbig : F32.ltb F32.five (S754_finite s m e) = false).
  { apply not_true_is_false. rewrite (ltb_five_valid _ Hv). unfold F32.above_five.
    unfold F32.in_0_5 in Hin. lia. }
  rewrite Hnan, Hneg, Hbig. split; [done|].
  apply not_true_is_false. rewrite eqb_zero. cbn. tauto.
Qed.

Lemma zero_accepts (x : float32) :
  F32.is_zero x ->
  negb (F32.eqb x x) || F32.ltb x F32.zero || F32.ltb F32.five x = false
  /\ F32.eqb x F32.zero = true.
Proof. destruct x as [s|s| |s m e]; try done; intros _; by destruct s. Qed.

Lemma out_of_bounds_rejects (x : float32) :
  F32.valid x = true ->
  F32.is_nan x \/ F32.below_zero x \/ F32.above_five x ->
  negb (F32.eqb x x) || F32.ltb x F32.zero || F32.ltb F32.five x = true.
Proof.
  intros Hv [H|[H|H]].
  - apply eqb_self in H. by rewrite H.
  - apply (ltb_zero _ Hv) in H. rewrite H. by rewrite orb_true_r.
  - apply (ltb_five_valid _ Hv) in H. rewrite H. by rewrite orb_true_r.
Qed.


(** C7: [SetUIScale] answers an argument that is NaN, below 0 or above
    5 with the validation error and leaves the driver as it is; it
    stores an argument in (0, 5] as the UI scale; and for the argument 0
    it asks the renderer for its output size and stores the ratio of the
    output height to the window height, or returns the error of that
    request and leaves the driver as it is. *)
Theorem SetUIScale_ranges (d : Driver) (s : float32) (w : World) :
  F32.valid s = true ->
  (F32.is_nan s \/ F32.below_zero s \/ F32.above_five s ->
     SetUIScale d s w = (Val (d, Some (Go.ErrNew "uiScale is out of bounds")), w)) /\
  (F32.in_0_5 s ->
     SetUIScale d s w = (Val (set_uiScale d s, None), w) /\
     uiScale (set_uiScale d s) = s) /\
  (F32.is_zero s ->
     forall r win, renderer d = Some r -> window d = Some win ->
     SetUIScale d s w =
       (Val (match outcome w (ticks w) with
             | None => (set_uiScale d (autoDetected w), None)
             | Some e => (d, Some (Go.ErrWrap "computing UI scale"
                                     (Go.ErrWrap "getting renderer output size" e)))
             end),
        ticked w (RendererGetOutputSize r))).
Proof.
  intros Hv. split; [|split].
  - intros Hout. unfold SetUIScale. by rewrite (out_of_bounds_rejects s Hv Hout).
  - intros Hin. destruct (in_0_5_accepts s Hv Hin) as [H1 H2].
    unfold SetUIScale. rewrite H1, H2. done.
  - intros Hz r win Hr Hwin. destruct (zero_accepts s Hz) as [H1 H2].
    unfold SetUIScale. rewrite H1, H2.
    unfold computeUIScale, GetOutputSize, GetSize, autoDetected. rewrite Hr, Hwin.
    cbn. unfold bind, fallible, ret, get. cbn.
    destruct (outcome w (ticks w)); [reflexivity|].
    cbn. by destruct (windowSize w).
Qed.

Lemma SetUIScale_ranges_witness :
  let d := ready default_handler None false in
  let w := desktop no_failure "opengl" (2, 0, 20) [] [] 0 in
  (F32.valid S754_nan = true /\
   SetUIScale d S754_nan w
   = (Val (d, Some (Go.ErrNew "uiScale is out of bounds")), w)) /\
  (F32.valid (F32.of_Z 6) = true /\ F32.above_five (F32.of_Z 6) /\
   SetUIScale d (F32.of_Z 6) w
   = (Val (d, Some (Go.ErrNew "uiScale is out of bounds")), w)) /\
  (F32.valid (F32.of_Z 5) = true /\ F32.in_0_5 (F32.of_Z 5) /\
   SetUIScale d (F32.of_Z 5) w = (Val (set_uiScale d (F32.of_Z 5), None), w)) /\
  (F32.valid F32.zero = true /\ autoDetected w = F32.of_Z 2 /\
   SetUIScale d F32.zero w
   = (Val (set_uiScale d (autoDetected w), None),
      ticked w (RendererGetOutputSize 2%positive))).
Proof.
  intros d w.
  assert (Hv6 : F32.valid (F32.of_Z 6) = true) by (vm_compute; reflexivity).
  assert (Hv5 : F32.valid (F32.of_Z 5) = true) by (vm_compute; reflexivity).
  assert (Hsix : F32.above_five (F32.of_Z 6)) by (vm_compute; reflexivity).
  assert (Hfive : F32.in_0_5 (F32.of_Z 5)).
  { split; [vm_compute; reflexivity|]. vm_compute. discriminate. }
  split; [|split; [|split]].
  - split; [reflexivity|].
    exact (proj1 (SetUIScale_ranges d S754_nan w eq_refl) (or_introl I)).
  - split; [exact Hv6|]. split; [exact Hsix|].
    exact (proj1 (SetUIScale_ranges d (F32.of_Z 6) w Hv6)
             (or_intror (or_intror Hsix))).
  - split; [exact Hv5|]. split; [exact Hfive|].
    exact (proj1 (proj1 (proj2 (SetUIScale_ranges d (F32.of_Z 5) w Hv5)) Hfive)).
  - split; [reflexivity|]. split; [vm_compute; reflexivity|].
    exact (proj2 (proj2 (SetUIScale_ranges d F32.zero w eq_refl)) I
             2%positive 1%positive eq_refl eq_refl).
Defined.

(** ** The frame driver *)

(** *** Running computations

    A computation is run one call at a time: [bind_val] moves past a
    call that returns, and the [_run] lemmas say what each call
    returns and what world it leaves. *)

Lemma bind_val {A B : Type} (m : M A) (k : A -> M B) (w w' : World) (a : A) :
  m w = (Val a, w') -> bind m k w = k a w'.
Proof. intros H. unfold bind. rewrite H. reflexivity. Qed.

Lemma bind_panic {A B : Type} (m : M A) (k : A -> M B) (w w' : World) :
  m w = (Panic, w') -> bind m k w = (Panic, w').
Proof. intros H. unfold bind. rewrite H. reflexivity. Qed.

Lemma effect_run (c : Call) (w : World) : effect c w = (Val tt, logged w c).
Proof. reflexivity. Qed.

Lemma fallible_run (c : Call) (w : World) :
  fallible c w = (Val (outcome w (ticks w)), ticked w c).
Proof. reflexivity. Qed.

Lemma create_fail (c : Call) (w : World) (e : Go.error) :
  outcome w (ticks w) = Some e ->
  create c w = (Val (None, Some e), ticked w c).
Proof.
  intros H. unfold create. rewrite (bind_val _ _ _ _ _ (fallible_run c w)), H.
  reflexivity.
Qed.

Lemma create_ok (c : Call) (w : World) :
  outcome w (ticks w) = None ->
  create c w = (Val (Some (fresh w), None),
                with_fresh (ticked w c) (Pos.succ (fresh w))).
Proof.
  intros H. unfold create. rewrite (bind_val _ _ _ _ _ (fallible_run c w)), H.
  reflexivity.
Qed.

Lemma SetScale_run (r : Handle) (x y : float32) (w : World) :
  SetScale (Some r) x y w =
    match outcome w (ticks w) with
    | Some e => (Val (Some e), ticked w (RendererSetScale r x y))
    | None => (Val None, with_rend (ticked w (RendererSetScale r x y))
                           (set_scale (rend w) (x, y)))
    end.
Proof.
  unfold SetScale, on. rewrite (bind_val _ _ _ _ _ (fallible_run _ w)).
  destruct (outcome w (ticks w)); reflexivity.
Qed.

Lemma SetClipRect_run (r : Handle) (rect : option sdl.Rect) (w : World) :
  SetClipRect (Some r) rect w =
    match outcome w (ticks w) with
    | Some e => (Val (Some e), ticked w (RendererSetClipRect r rect))
    | None => (Val None, with_rend (ticked w (RendererSetClipRect r rect))
                           (set_clip (rend w) rect))
    end.
Proof.
  unfold SetClipRect, on. rewrite (bind_val _ _ _ _ _ (fallible_run _ w)).
  destruct (outcome w (ticks w)); reflexivity.
Qed.

(** *** Destroy *)

Lemma with_log_id (w : World) : with_log w (ticks w) (log w) = w.
Proof. by destruct w. Qed.

Lemma free_run (p : option Handle) (w : World) :
  nilsafe p (fun h => effect (NkFree h)) w =
    (Val tt, with_log w (ticks w) (log w ++ (NkFree <$> option_list p))).
Proof.
  destruct p as [h|]; cbn.
  - reflexivity.
  - unfold ret. by rewrite app_nil_r, with_log_id.
Qed.

Lemma destroy_run (p : option Handle) (c : Handle -> Call)
    (err : option Go.error) (w : World) :
  (if negb (is_nil p)
   then let* err2 := on p (fun h => fallible (c h)) in ret (first_error err err2)
   else ret err) w =
    (Val (match p with
          | Some _ => first_error err (outcome w (ticks w))
          | None => err
          end),
     with_log w (length (option_list p) + ticks w)%nat
       (log w ++ (c <$> option_list p))).
Proof.
  destruct p as [h|]; cbn.
  - reflexivity.
  - unfold ret. by rewrite app_nil_r, with_log_id.
Qed.

Lemma omap_id_cons {A : Type} (p : option A) (l : list (option A)) :
  omap id (p :: l) = option_list p ++ omap id l.
Proof. by destruct p. Qed.

(** [Destroy] on any driver: what it returns and what it leaves. *)
Lemma Destroy_spec (d : Driver) (w : World) :
  Destroy d w =
    (Val (firstError (outcome w) (ticks w) (length (destroys d))),
     with_log w (length (destroys d) + ticks w)%nat (log w ++ releases d)).
Proof.
  unfold Destroy.
  do 6 (erewrite bind_val; [|apply free_run]; cbv beta).
  do 3 (erewrite bind_val; [|apply destroy_run]; cbv beta).
  erewrite bind_val; [|apply effect_run]. cbv beta.
  unfold ret, logged, releases, frees, destroys.
  cbn [outcome ticks log with_log].
  rewrite !omap_id_cons, !fmap_app. change (omap id []) with (@nil Handle).
  rewrite fmap_nil, app_nil_r, <- !app_assoc.
  destruct (fontTex d), (renderer d), (window d); cbn;
  repeat match goal with |- context [outcome w ?n] => destruct (outcome w n) end;
  reflexivity.
Qed.

(** *** Init

    [Init] is followed through every outcome of its calls with the rules
    of [returns]; what its continuations need of a call is only the
    value it returns. *)

Lemma returns_ret {A : Type} (a : A) (w : World) (Q : A -> World -> Prop) :
  Q a w -> returns (ret a) w Q.
Proof. intros H. exists a, w. auto. Qed.

Lemma returns_bind {A B : Type} (m : M A) (k : A -> M B) (w : World)
    (Q : B -> World -> Prop) :
  returns m w (fun a w' => returns (k a) w' Q) -> returns (bind m k) w Q.
Proof.
  intros (a & w' & Hm & b & w'' & Hk & HQ). exists b, w''.
  split; [|exact HQ]. by rewrite (bind_val _ _ _ _ _ Hm).
Qed.

Lemma returns_fallible (c : Call) (w : World) (Q : option Go.error -> World -> Prop) :
  (forall o w', Q o w') -> returns (fallible c) w Q.
Proof. intros H. eexists _, _. split; [apply fallible_run|apply H]. Qed.

Lemma returns_effect (c : Call) (w : World) (Q : unit -> World -> Prop) :
  (forall w', Q tt w') -> returns (effect c) w Q.
Proof. intros H. eexists _, _. split; [apply effect_run|apply H]. Qed.

Lemma returns_get {A : Type} (f : World -> A) (w : World) (Q : A -> World -> Prop) :
  (forall a, Q a w) -> returns (get f) w Q.
Proof. intros H. eexists _, _. split; [reflexivity|apply H]. Qed.

Lemma returns_alloc (w : World) (Q : Handle -> World -> Prop) :
  (forall h w', Q h w') -> returns alloc w Q.
Proof. intros H. eexists _, _. split; [reflexivity|apply H]. Qed.

Lemma returns_create (c : Call) (w : World)
    (Q : option Handle * option Go.error -> World -> Prop) :
  (forall e w', Q (None, Some e) w') ->
  (forall h w', Q (Some h, None) w') ->
  returns (create c) w Q.
Proof.
  intros Hfail Hok. unfold create. apply returns_bind, returns_fallible.
  intros [e|] w'.
  - apply returns_ret, Hfail.
  - apply returns_bind, returns_alloc. intros h w''. apply returns_ret, Hok.
Qed.

Lemma returns_Destroy (d : Driver) (w : World) (Q : option Go.error -> World -> Prop) :
  (forall err w', log w' = log w ++ releases d -> Q err w') ->
  returns (Destroy d) w Q.
Proof.
  intros H. eexists _, _. split; [apply Destroy_spec|]. apply H. reflexivity.
Qed.

Ltac returns_step :=
  lazymatch goal with
  | |- returns (ret _) _ _ => apply returns_ret
  | |- returns (bind _ _) _ _ => apply returns_bind
  | |- returns (create _) _ _ => apply returns_create; intros ? ?
  | |- returns (fallible _) _ _ => apply returns_fallible; intros [?|] ?
  | |- returns (effect _) _ _ => apply returns_effect; intros ?
  | |- returns alloc _ _ => apply returns_alloc; intros ? ?
  | |- returns (get _) _ _ => apply returns_get; intros ?
  | |- _ =>
      first
        [ progress cbv beta iota
        | progress cbn [on window renderer fontTex context atlas font largeFont
                        null set_window set_renderer set_fontTex set_context
                        set_atlas set_font set_largeFont set_null set_sdl set_nk
                        set_buffers set_clampClipRect set_opts] ]
  end.

Lemma bakeFont_returns (d : Driver) (a r f : Handle) (w : World)
    (Q : Driver * option Handle * option Go.error -> World -> Prop) :
  atlas d = Some a -> renderer d = Some r -> font d = Some f ->
  (forall tex nul err w', Q (set_fontTex d tex, nul, err) w') ->
  returns (bakeFont d) w Q.
Proof.
  intros Ha Hr Hf HQ. unfold bakeFont. rewrite Ha, Hr.
  repeat returns_step.
  match goal with |- context [match ?x with Some _ => _ | None => _ end] =>
    destruct x as [[width height]|] end.
  - repeat returns_step; try apply HQ.
    all: rewrite ?Hf, ?Ha; repeat returns_step; apply HQ.
  - returns_step. replace d with (set_fontTex d (fontTex d)) by (by destruct d).
    apply HQ.
Qed.

(** The body of [Init] returns; if it returns [nil], the variable [err]
    is [nil] too; if it returns an error, [err] is [nil] only after the
    failure of the renderer-info step. *)
Lemma Init_body_returns (d : Driver) (w : World) :
  returns (Init_body d) w (fun '(d', err, res) _ =>
    (res = None -> err = None) /\
    (res <> None -> err = None -> info_failure res)).
Proof.
  unfold Init_body, GetInfo.
  repeat returns_step; try (split; [discriminate|intros _; discriminate]).
  - split; [discriminate|]. intros _ _. by eexists.
  - match goal with |- returns (bakeFont ?D) _ _ =>
      apply (bakeFont_returns D h2 h0 h3) end.
    + reflexivity.
    + destruct (String.eqb _ _); [|reflexivity].
      destruct a0 as [[major minor] patch]. by destruct (_ <? _).
    + reflexivity.
    + intros tex nul [e|] w8; repeat returns_step;
        (split; [try discriminate; reflexivity|]); [intros _; discriminate|].
      intros H. by destruct H.
Qed.

(** [Init] returns, and when it returns an error other than that of the
    renderer-info step, the last thing it did was to tear the driver
    down. *)
Lemma Init_returns (d : Driver) (w : World) :
  returns (Init d) w (fun '(d', res) w' =>
    res = None \/ info_failure res \/
    exists w1, log w' = log w1 ++ releases d').
Proof.
  unfold Init. apply returns_bind.
  destruct (Init_body_returns d w) as ([[d' err] res] & w' & Hrun & Hnil & Hinfo).
  exists (d', err, res), w'. split; [exact Hrun|].
  destruct err as [e|].
  - apply returns_bind, returns_Destroy. intros err w'' Hlog.
    apply returns_ret. right. right. eauto.
  - apply returns_ret. destruct res as [e|]; [|by left].
    right. left. by apply Hinfo.
Qed.

(** *** PostRender: the draw commands *)

Lemma drawCommand_empty (d : Driver) (viewport : sdl.Rect) (verts : Go.slice)
    (cmd : nk.DrawCommand) (indices : Go.slice) (err : option Go.error) (w : World) :
  nk.ElemCount cmd = 0 ->
  drawCommand d viewport verts cmd indices err w = (Val (indices, err, true), w).
Proof. intros H. unfold drawCommand. rewrite H. reflexivity. Qed.

Lemma drawCommand_draws (d : Driver) (r : Handle) (viewport : sdl.Rect)
    (verts : Go.slice) (cmd : nk.DrawCommand) (indices : Go.slice)
    (err : option Go.error) (w : World) :
  renderer d = Some r ->
  nk.ElemCount cmd <> 0 ->
  0 <= nk.ElemCount cmd <= Go.s_len indices ->
  Go.s_len indices <= Go.s_cap indices ->
  outcome w (ticks w) = None ->
  outcome w (S (ticks w)) = None ->
  drawCommand d viewport verts cmd indices err w =
    (Val (advance indices (nk.ElemCount cmd), None, true),
     drawn d r viewport (Go.s_len verts) cmd (Go.s_off indices) w).
Proof.
  intros Hr Hne Hcount Hcap Hclip Hdraw.
  unfold drawCommand.
  rewrite (proj2 (Z.eqb_neq _ _) Hne), Hr.
  erewrite bind_val; [|rewrite SetClipRect_run, Hclip; reflexivity].
  unfold Go.slice_to, Go.slice_from.
  rewrite !(proj2 (Z.leb_le _ _)) by lia. cbn [andb on].
  erewrite bind_val; [|rewrite fallible_run; reflexivity].
  cbn [outcome ticks ticked with_log with_rend]. rewrite Hdraw.
  reflexivity.
Qed.

Lemma totalElems_nonneg (cmds : list nk.DrawCommand) :
  Forall (fun c => 0 <= nk.ElemCount c) cmds -> 0 <= totalElems cmds.
Proof.
  induction 1 as [|c l Hc Hl IH]; [cbn; lia|].
  change (totalElems (c :: l)) with (nk.ElemCount c + totalElems l). lia.
Qed.

Lemma DrawForEach_draws (d : Driver) (r : Handle) (viewport : sdl.Rect)
    (verts : Go.slice) (cmds : list nk.DrawCommand) :
  renderer d = Some r ->
  Forall (fun c => 0 <= nk.ElemCount c) cmds ->
  forall (indices : Go.slice) (w : World),
  totalElems cmds <= Go.s_len indices ->
  Go.s_len indices <= Go.s_cap indices ->
  quiet w ->
  exists indices' w',
    DrawForEach d viewport verts cmds indices None w = (Val (indices', None), w') /\
    Go.s_off indices' = Go.s_off indices + totalElems cmds /\
    log w' = log w ++ drawCalls d r viewport (Go.s_len verts) cmds (Go.s_off indices) /\
    outcome w' = outcome w /\ (ticks w <= ticks w')%nat /\
    set_clip (rend w') None = set_clip (rend w) None.
Proof.
  intros Hr Hall.
  induction Hall as [|cmd rest Hcmd Hrest IH]; intros indices w Htot Hcap Hquiet.
  - exists indices, w. cbn. rewrite Z.add_0_r, app_nil_r. repeat split; auto.
  - change (totalElems (cmd :: rest)) with (nk.ElemCount cmd + totalElems rest) in *.
    pose proof (totalElems_nonneg rest Hrest) as Hnn.
    cbn [DrawForEach drawCalls].
    destruct (Z.eqb_spec (nk.ElemCount cmd) 0) as [Hz|Hnz].
    + rewrite (bind_val _ _ _ _ _ (drawCommand_empty d viewport verts cmd indices None w Hz)).
      destruct (IH indices w) as (i' & w' & Hrun & Hoff & Hlog & Hout & Hticks & Hrend);
        [lia|exact Hcap|exact Hquiet|].
      exists i', w'. repeat split; auto. lia.
    + rewrite (bind_val _ _ _ _ _
                 (drawCommand_draws d r viewport verts cmd indices None w Hr Hnz
                    ltac:(lia) Hcap (Hquiet (ticks w) ltac:(lia))
                    (Hquiet (S (ticks w)) ltac:(lia)))).
      destruct (IH (advance indices (nk.ElemCount cmd))
                   (drawn d r viewport (Go.s_len verts) cmd (Go.s_off indices) w))
        as (i' & w' & Hrun & Hoff & Hlog & Hout & Hticks & Hrend).
      * cbn. lia.
      * cbn. lia.
      * intros n Hn. cbn in Hn |- *. apply Hquiet. lia.
      * exists i', w'. cbn in Hoff, Hlog, Hout, Hticks, Hrend.
        repeat split; auto; try lia.
        rewrite Hlog, <- !app_assoc. reflexivity.
Qed.

Lemma Convert_run (c : Handle) (w : World) :
  Convert (Some c) w =
    match outcome w (ticks w) with
    | Some e => (Val (Some e), ticked w (ContextConvert c))
    | None => (Val None, with_mem (ticked w (ContextConvert c))
                           (gui_commands w) (gui_elements w) (gui_vertices w))
    end.
Proof.
  unfold Convert, on. rewrite (bind_val _ _ _ _ _ (fallible_run _ w)).
  destruct (outcome w (ticks w)); reflexivity.
Qed.

Lemma clears_run (d : Driver) (cb eb vb : Handle) {A : Type} (k : M A) (w : World) :
  commands d = Some cb -> elements d = Some eb -> vertices d = Some vb ->
  (let* _ := Buffer_Clear_commands (commands d) in
   let* _ := Buffer_Clear_elements (elements d) in
   let* _ := Buffer_Clear_vertices (vertices d) in k) w
  = k (cleared cb eb vb w).
Proof.
  intros -> -> ->. unfold cleared.
  erewrite bind_val; [|reflexivity].
  erewrite bind_val; [|reflexivity].
  erewrite bind_val; [|reflexivity].
  cbn. rewrite <- !app_assoc. reflexivity.
Qed.

Lemma reinterpretSlice_Memory_cap (len : Z) (spare : N) (size : Z) :
  0 < size ->
  Go.s_len (reinterpretSlice (Memory len spare) size)
  <= Go.s_cap (reinterpretSlice (Memory len spare) size).
Proof. intros Hsize. cbn. apply Z.quot_le_mono; lia. Qed.

Lemma PostRender_body_quiet (d : Driver) (w : World) (r c cb eb vb : Handle) :
  renderer d = Some r -> context d = Some c ->
  commands d = Some cb -> elements d = Some eb -> vertices d = Some vb ->
  frame_ok w -> quiet w ->
  exists w',
    PostRender_body d w = (Val None, w') /\
    log w' = log w
      ++ [BufferClear cb; BufferClear eb; BufferClear vb; ContextConvert c]
      ++ drawCalls d r (viewport (rend w)) (Z.quot (gui_vertices w) vertexSize)
           (gui_commands w) 0
      ++ [RendererSetClipRect r (Some (default zeroRect (clip (rend w))));
          RendererPresent r] /\
    rend w' = set_clip (rend w) (Some (default zeroRect (clip (rend w)))) /\
    outcome w' = outcome w /\ (ticks w <= ticks w')%nat.
Proof.
  intros Hr Hc Hcb Heb Hvb [Hnn Hfit] Hq.
  unfold PostRender_body.
  rewrite (clears_run d cb eb vb _ w Hcb Heb Hvb).
  rewrite Hc, Hr, Heb, Hvb, Hcb.
  erewrite bind_val; [|rewrite Convert_run; cbn [cleared outcome ticks with_mem with_log];
                       rewrite (Hq (ticks w)) by lia; reflexivity].
  unfold GetClipRect, GetViewport, on.
  erewrite bind_val; [|reflexivity].
  erewrite bind_val; [|reflexivity].
  erewrite bind_val; [|reflexivity].
  erewrite bind_val; [|reflexivity].
  erewrite bind_val; [|reflexivity].
  match goal with |- context [DrawForEach d ?vp ?vs ?cs ?i None] =>
    match goal with |- context [bind _ _ ?w1] =>
      destruct (DrawForEach_draws d r vp vs cs Hr Hnn i w1)
        as (i' & w2 & Hrun & Hoff & Hlog & Hout & Hticks & Hrend) end end.
  - exact Hfit.
  - apply reinterpretSlice_Memory_cap. lia.
  - intros n Hn. cbn in Hn |- *. apply Hq. lia.
  - cbn in Hrun, Hout, Hticks, Hlog, Hrend. cbv beta.
    erewrite bind_val; [|exact Hrun]. cbv beta iota.
    erewrite bind_val; [|rewrite SetClipRect_run, Hout, (Hq (ticks w2)) by lia; reflexivity].
    cbv beta iota.
    erewrite bind_val; [|reflexivity]. cbv beta iota.
    eexists. split; [reflexivity|].
    cbn. rewrite Hlog, Hout. repeat split; [|  |lia].
    + rewrite <- !app_assoc. reflexivity.
    + destruct (rend w2), (rend w). cbn in *.
      injection Hrend as -> -> -> -> ->. reflexivity.
Qed.

(** *** PostRender: the scale *)

Lemma PostRender_scaled (d : Driver) (w : World) (r : Handle) :
  renderer d = Some r -> outcome w (ticks w) = None ->
  PostRender d w =
    deferring (PostRender_body d)
      (restoreScale d (fst (scale (rend w))) (snd (scale (rend w))))
      (let* _ := SetScale (renderer d) (fst (scale (rend w))) (snd (scale (rend w))) in
       ret tt)
      (scaled d r w).
Proof.
  intros Hr Hset. unfold PostRender, GetScale, restoreScale. rewrite Hr. unfold on at 1.
  erewrite bind_val; [|reflexivity]. cbv beta.
  destruct (scale (rend w)) as [sx sy]. cbv beta iota.
  erewrite bind_val; [|rewrite SetScale_run, Hset; reflexivity].
  reflexivity.
Qed.

Lemma restoreScale_run (d : Driver) (r : Handle) (x y : float32)
    (err : option Go.error) (w : World) :
  renderer d = Some r ->
  exists res,
    restoreScale d x y err w =
      (Val res,
       match outcome w (ticks w) with
       | Some _ => ticked w (RendererSetScale r x y)
       | None => with_rend (ticked w (RendererSetScale r x y))
                   (set_scale (rend w) (x, y))
       end) /\
    (outcome w (ticks w) = None -> res = err).
Proof.
  intros Hr. unfold restoreScale. rewrite Hr.
  destruct (outcome w (ticks w)) as [e|] eqn:Hout.
  - erewrite bind_val; [|rewrite SetScale_run, Hout; reflexivity].
    cbv beta iota. destruct err; eexists; (split; [reflexivity|discriminate]).
  - erewrite bind_val; [|rewrite SetScale_run, Hout; reflexivity].
    cbv beta iota. destruct err; eexists; (split; [reflexivity|reflexivity]).
Qed.


(** *** PostRender: a frame in which no call fails *)

Lemma PostRender_quiet (d : Driver) (w : World) (r c cb eb vb : Handle) :
  renderer d = Some r -> context d = Some c ->
  commands d = Some cb -> elements d = Some eb -> vertices d = Some vb ->
  frame_ok w -> quiet w ->
  exists w',
    PostRender d w = (Val None, w') /\
    log w' = log w
      ++ [RendererSetScale r (uiScale d) (uiScale d);
          BufferClear cb; BufferClear eb; BufferClear vb; ContextConvert c]
      ++ drawCalls d r (viewport (rend w)) (Z.quot (gui_vertices w) vertexSize)
           (gui_commands w) 0
      ++ [RendererSetClipRect r (Some (default zeroRect (clip (rend w))));
          RendererPresent r;
          RendererSetScale r (fst (scale (rend w))) (snd (scale (rend w)))] /\
    rend w' = set_clip (rend w) (Some (default zeroRect (clip (rend w)))).
Proof.
  intros Hr Hc Hcb Heb Hvb Hframe Hq.
  rewrite (PostRender_scaled d w r Hr (Hq (ticks w) ltac:(lia))).
  destruct (PostRender_body_quiet d (scaled d r w) r c cb eb vb Hr Hc Hcb Heb Hvb)
    as (wb & Hbody & Hlog & Hrend & Hout & Hticks).
  { exact Hframe. }
  { intros n Hn. cbn in Hn |- *. apply Hq. lia. }
  cbn [scaled log rend outcome ticks with_rend with_log viewport clip set_scale
       gui_vertices gui_commands] in Hlog, Hrend, Hout, Hticks.
  unfold deferring. rewrite Hbody.
  destruct (restoreScale_run d r (fst (scale (rend w))) (snd (scale (rend w))) None wb Hr)
    as (res & Hrun & Hres).
  rewrite Hout, (Hq (ticks wb)) in Hrun, Hres by lia.
  rewrite (Hres eq_refl) in Hrun. rewrite Hrun.
  eexists. split; [reflexivity|]. cbn. split.
  - rewrite Hlog, <- !app_assoc. reflexivity.
  - rewrite Hrend. by destruct (rend w) as [[? ?] ? ? ? ? ?].
Qed.

(** *** PreRender: the event loop *)

Lemma emit_run (c : Handle) (calls : list nk.InputCall) (w : World) :
  emit (Some c) calls w =
    (Val tt, with_log w (ticks w) (log w ++ (ContextInput c <$> calls))).
Proof.
  revert w. induction calls as [|i calls IH]; intros w.
  - cbn. rewrite app_nil_r. by destruct w.
  - cbn [emit on]. erewrite bind_val; [|apply effect_run]. cbv beta.
    rewrite IH. cbn. rewrite <- app_assoc. reflexivity.
Qed.

Lemma HandleEvent_quit (h : EventHandler) (e : sdl.Event) :
  fst (snd (HandleEvent h e)) = EventTypeQuit <-> isQuit e = true.
Proof.
  destruct e; cbn; try destruct (decide _); cbn;
    split; intros H; try discriminate; reflexivity.
Qed.

(** Without a listener the loop handles every pending event, and
    [alive] is cleared exactly when one of them is a quit event. *)
Lemma pollEvents_unlistened (d : Driver) (c : Handle) (queue : list sdl.Event) :
  eventListener d = None -> context d = Some c ->
  forall (alive : bool) (w : World),
  exists w',
    pollEvents d queue alive w =
      (Val (alive && negb (existsb isQuit queue), None), w') /\
    log w' = log w ++ (queue ≫= translate (eventHandler d) c) /\
    events w' = match queue with [] => events w | _ => [] end.
Proof.
  intros Hl Hc. induction queue as [|e rest IH]; intros alive w.
  - exists w. cbn. rewrite andb_true_r, app_nil_r. auto.
  - cbn [pollEvents]. rewrite Hl, Hc.
    erewrite bind_val; [|reflexivity]. cbv beta.
    erewrite bind_val; [|apply effect_run]. cbv beta.
    pose proof (HandleEvent_quit (eventHandler d) e) as Hquit.
    destruct (HandleEvent (eventHandler d) e) as [calls [ty used]] eqn:Hev.
    cbn [fst snd] in Hquit.
    erewrite bind_val; [|apply emit_run]. cbv beta.
    destruct (decide (ty = EventTypeQuit)) as [Hty|Hty]; cbv beta iota;
    match goal with |- context [pollEvents d rest ?a ?w1] =>
      destruct (IH a w1) as (w' & Hrun & Hlog & Hevs) end.
    + exists w'. rewrite Hrun. apply Hquit in Hty. cbn [existsb]. rewrite Hty.
      cbn. rewrite andb_false_r. split; [reflexivity|]. split.
      * rewrite Hlog. cbn. unfold translate at 2. rewrite Hev. cbn.
        rewrite <- !app_assoc. reflexivity.
      * rewrite Hevs. by destruct rest.
    + exists w'. rewrite Hrun.
      assert (isQuit e = false) as Hnq.
      { apply not_true_is_false. intros H. by apply Hty, Hquit. }
      cbn [existsb]. rewrite Hnq. cbn. split; [reflexivity|]. split.
      * rewrite Hlog. cbn. unfold translate at 2. rewrite Hev. cbn.
        rewrite <- !app_assoc. reflexivity.
      * rewrite Hevs. by destruct rest.
Qed.

Lemma existsb_isQuit (queue : list sdl.Event) :
  In sdl.QuitEvent queue -> existsb isQuit queue = true.
Proof. intros H. apply existsb_exists. exists sdl.QuitEvent. auto. Qed.

(** C6, amended: when the driver has no event listener and a quit event
    is pending, [PreRender] polls and translates every pending event,
    those behind the quit event too, ends the input session and returns
    [ErrQuit]. *)
Theorem PreRender_quit_unlistened (d : Driver) (w : World) (c : Handle) :
  eventListener d = None ->
  context d = Some c ->
  In sdl.QuitEvent (events w) ->
  exists w',
    PreRender d w = (Val (Some Go.ErrQuit), w') /\
    events w' = [] /\
    log w' = log w
      ++ [ContextClear c; ContextInputBegin c]
      ++ (events w ≫= translate (eventHandler d) c)
      ++ [ContextInputEnd c; ContextInputEnd c].
Proof.
  intros Hl Hc Hin. unfold PreRender, InputEnd. rewrite Hc. unfold on.
  erewrite bind_val; [|apply effect_run]. cbv beta.
  erewrite bind_val; [|apply effect_run]. cbv beta.
  unfold deferring.
  erewrite bind_val; [|reflexivity]. cbv beta.
  match goal with |- context [bind (pollEvents d ?q true) _ ?w1] =>
    destruct (pollEvents_unlistened d c q Hl Hc true w1) as (w2 & Hrun & Hlog & Hevs) end.
  cbn [events logged with_log] in Hrun, Hevs |- *.
  erewrite bind_val; [|exact Hrun]. cbv beta iota.
  rewrite (existsb_isQuit _ Hin). cbn [negb andb].
  erewrite bind_val; [|apply effect_run]. cbv beta iota.
  unfold ret at 1.
  erewrite bind_val; [|apply effect_run]. cbv beta iota.
  eexists. split; [reflexivity|]. cbn. split.
  - rewrite Hevs. destruct (events w); [destruct Hin|reflexivity].
  - rewrite Hlog. cbn. rewrite <- !app_assoc. reflexivity.
Qed.


(** ** The claims on the frame driver *)

(** Right of the origin the clamp is the one the specification words. *)
Lemma clampRect_right_of_origin (viewport clipRect : sdl.Rect) :
  0 <= sdl.X clipRect ->
  clampRect viewport clipRect = clampRect_spec viewport clipRect.
Proof.
  intros Hx. unfold clampRect, clampRect_spec.
  destruct clipRect as [x y w h], viewport as [vx vy vw vh]. cbn in *.
  rewrite (proj2 (Z.ltb_ge x 0)) by exact Hx.
  destruct (Z.ltb_spec y 0); cbn;
    repeat match goal with |- context [?a <? ?b] => destruct (Z.ltb_spec a b); cbn end;
    cbn in *; f_equal; lia.
Qed.

(** Left of the origin the width the code computes is the width plus the
    height, capped at the viewport's. *)
Lemma clampRect_left_of_origin (viewport clipRect : sdl.Rect) :
  sdl.X clipRect < 0 ->
  sdl.X (clampRect viewport clipRect) = 0 /\
  sdl.W (clampRect viewport clipRect)
  = Z.min (Go.wrap32 (sdl.W clipRect + sdl.H clipRect)) (sdl.W viewport).
Proof.
  intros Hx. unfold clampRect.
  destruct clipRect as [x y w h], viewport as [vx vy vw vh]. cbn in *.
  rewrite (proj2 (Z.ltb_lt x 0)) by exact Hx. cbn.
  destruct (Z.ltb_spec y 0); cbn;
    repeat match goal with |- context [?a <? ?b] => destruct (Z.ltb_spec a b); cbn end;
    cbn in *; split; lia.
Qed.

(** C1, on the code: a clip rectangle that starts 5 left of the origin,
    100 wide and 50 high, in a viewport of 800 by 600. The clamp the
    specification words makes it 95 wide; [PostRender] adds the height
    to the width and passes a rectangle 150 wide to the renderer. *)
Theorem PostRender_clamp_widens_by_height :
  let viewport := {| sdl.X := 0; sdl.Y := 0; sdl.W := 800; sdl.H := 600 |} in
  let rect := {| sdl.X := -5; sdl.Y := 0; sdl.W := 100; sdl.H := 50 |} in
  let d := ready default_handler None true in
  clampRect_spec viewport rect
  = {| sdl.X := 0; sdl.Y := 0; sdl.W := 95; sdl.H := 50 |} /\
  clampRect viewport rect
  = {| sdl.X := 0; sdl.Y := 0; sdl.W := 150; sdl.H := 50 |} /\
  commandClipRect d viewport (command 6 (-5) 0 100 50)
  = {| sdl.X := 0; sdl.Y := 0; sdl.W := 150; sdl.H := 50 |} /\
  log (snd (PostRender d (metal_world no_failure [])))
  = [ RendererSetScale 2%positive F32.one F32.one;
      BufferClear 9%positive; BufferClear 10%positive; BufferClear 11%positive;
      ContextConvert 3%positive;
      RendererSetClipRect 2%positive
        (Some {| sdl.X := 0; sdl.Y := 0; sdl.W := 150; sdl.H := 50 |});
      RendererGeometry 2%positive (Some 7%positive) 9 0 6;
      RendererSetClipRect 2%positive
        (Some {| sdl.X := 0; sdl.Y := 0; sdl.W := 100; sdl.H := 40 |});
      RendererGeometry 2%positive (Some 7%positive) 9 6 3;
      RendererSetClipRect 2%positive (Some zeroRect);
      RendererPresent 2%positive;
      RendererSetScale 2%positive F32.one F32.one ].
Proof. repeat split; vm_compute; reflexivity. Qed.

(** C2, on the code: a frame that starts with clipping disabled and in
    which no call fails. [PostRender] returns [nil], and the clip it
    leaves is the empty rectangle that [GetClipRect] gave for "disabled",
    set with [SetClipRect(&oldClipRect)]: clipping is enabled, with a
    zero-area rectangle. *)
Theorem PostRender_restores_empty_clip :
  let d := ready default_handler None false in
  let w := metal_world no_failure [] in
  clip (rend w) = None /\
  fst (PostRender d w) = Val None /\
  clip (rend (snd (PostRender d w))) = Some zeroRect /\
  List.filter setsClip (log (snd (PostRender d w)))
  = [ RendererSetClipRect 2%positive
        (Some {| sdl.X := -5; sdl.Y := 0; sdl.W := 100; sdl.H := 50 |});
      RendererSetClipRect 2%positive
        (Some {| sdl.X := 0; sdl.Y := -10; sdl.W := 100; sdl.H := 50 |});
      RendererSetClipRect 2%positive (Some zeroRect) ].
Proof. repeat split; vm_compute; reflexivity. Qed.

(** The same for every frame in which no call fails: the clip
    [PostRender] leaves is never "disabled". *)
Lemma PostRender_clip_never_disabled (d : Driver) (w : World) (r c cb eb vb : Handle) :
  renderer d = Some r -> context d = Some c ->
  commands d = Some cb -> elements d = Some eb -> vertices d = Some vb ->
  frame_ok w -> quiet w -> clip (rend w) = None ->
  exists w', PostRender d w = (Val None, w') /\ clip (rend w') = Some zeroRect.
Proof.
  intros Hr Hc Hcb Heb Hvb Hframe Hq Hclip.
  destruct (PostRender_quiet d w r c cb eb vb Hr Hc Hcb Heb Hvb Hframe Hq)
    as (w' & Hrun & _ & Hrend).
  exists w'. split; [exact Hrun|]. rewrite Hrend, Hclip. reflexivity.
Qed.

(** Whatever the driver and the world, when the first three calls of
    [Init] succeed and the renderer-info call fails, [Init] returns
    after that call: nothing is released. *)
Lemma Init_info_failure (d : Driver) (w : World) (e : Go.error) :
  outcome w (ticks w) = None ->
  outcome w (S (ticks w)) = None ->
  outcome w (S (S (ticks w))) = None ->
  outcome w (S (S (S (ticks w)))) = Some e ->
  exists d' w',
    Init d w = (Val (d', Some (Go.ErrWrap "getting SDL renderer info" e)), w') /\
    window d' = Some (fresh w) /\ renderer d' = Some (Pos.succ (fresh w)) /\
    log w' = log w ++ [ InitSDL; CreateWindow; CreateRenderer (Some (fresh w));
                        RendererGetInfo (Pos.succ (fresh w)) ].
Proof.
  intros H0 H1 H2 H3. unfold Init.
  assert (Hbody : exists w',
    Init_body d w =
      (Val (set_renderer (set_window d (Some (fresh w))) (Some (Pos.succ (fresh w))),
            None, Some (Go.ErrWrap "getting SDL renderer info" e)), w') /\
    log w' = log w ++ [ InitSDL; CreateWindow; CreateRenderer (Some (fresh w));
                        RendererGetInfo (Pos.succ (fresh w)) ]).
  { unfold Init_body.
    erewrite bind_val; [|rewrite fallible_run, H0; reflexivity]. cbv beta iota.
    erewrite bind_val; [|apply create_ok; exact H1]. cbv beta iota.
    erewrite bind_val; [|apply create_ok; exact H2]. cbv beta iota.
    cbn [renderer window set_renderer set_window set_sdl].
    unfold GetInfo, on.
    erewrite bind_val;
      [|erewrite bind_val; [|rewrite fallible_run; cbn; rewrite H3; reflexivity];
        reflexivity].
    cbv beta iota. eexists. split; [reflexivity|].
    cbn. rewrite <- !app_assoc. reflexivity. }
  destruct Hbody as (w' & Hbody & Hlog).
  erewrite bind_val; [|exact Hbody]. cbv beta iota.
  eexists _, _. split; [reflexivity|]. repeat split. exact Hlog.
Qed.

(** C4, on the code: the renderer-info step is the fourth fallible call
    of [Init]. When it fails, [Init] returns its error, wrapped with the
    name of the step, and makes no other call: the window and the
    renderer are left as they are. When the step before it fails, the
    window is destroyed and SDL is shut down. *)
Theorem Init_info_failure_no_teardown :
  let d := blank unbound None in
  let w := desktop (failing_at 3 boom) "opengl" (2, 0, 20) [] [] 0 in
  let w2 := desktop (failing_at 2 boom) "opengl" (2, 0, 20) [] [] 0 in
  (exists d' w',
     Init d w = (Val (d', Some (Go.ErrWrap "getting SDL renderer info" boom)), w') /\
     window d' = Some 1%positive /\ renderer d' = Some 2%positive /\
     log w' = [ InitSDL; CreateWindow; CreateRenderer (Some 1%positive);
                RendererGetInfo 2%positive ]) /\
  (exists d' w',
     Init d w2 = (Val (d', Some (Go.ErrWrap "creating SDL renderer" boom)), w') /\
     log w' = [ InitSDL; CreateWindow; CreateRenderer (Some 1%positive);
                WindowDestroy 1%positive; SdlQuit ]).
Proof.
  intros d w w2. split.
  - destruct (Init d w) as [[[d' res]|] w'] eqn:Hrun;
      vm_compute in Hrun; [|discriminate Hrun].
    injection Hrun as <- <- <-. eexists _, _. repeat split.
  - destruct (Init d w2) as [[[d' res]|] w'] eqn:Hrun;
      vm_compute in Hrun; [|discriminate Hrun].
    injection Hrun as <- <- <-. eexists _, _. repeat split.
Qed.

(** C5: on every driver, whichever of its resources are [nil],
    [Destroy] returns: it releases every resource that is not [nil],
    once, the Nuklear ones first and then the font texture, the renderer
    and the window, shuts SDL down, and returns the first error of the
    three SDL releases. [Init] itself returns on every driver and world,
    and [Destroy] on the driver it leaves returns too. *)
Theorem Destroy_tolerates_partial_driver (d : Driver) (w : World) :
  Destroy d w =
    (Val (firstError (outcome w) (ticks w) (length (destroys d))),
     with_log w (length (destroys d) + ticks w)%nat (log w ++ releases d)) /\
  returns (Init d) w (fun p w' =>
    returns (Destroy (fst p)) w' (fun err w'' =>
      log w'' = log w' ++ releases (fst p))).
Proof.
  split; [apply Destroy_spec|].
  destruct (Init_returns d w) as ([d' res] & w' & Hrun & _).
  exists (d', res), w'. split; [exact Hrun|].
  apply returns_Destroy. auto.
Qed.

(** C6, as stated, fails: with a listener that lets every event pass, a
    pending quit event does not make [PreRender] return [ErrQuit]. *)
Lemma PreRender_quit_listened :
  ~ (forall (d : Driver) (w : World) (c : Handle),
       context d = Some c -> In sdl.QuitEvent (events w) ->
       exists w', PreRender d w = (Val (Some Go.ErrQuit), w') /\ events w' = []).
Proof.
  intros H.
  destruct (H (ready default_handler (Some idle_listener) false)
              (metal_world no_failure [sdl.QuitEvent]) 3%positive eq_refl
              (or_introl eq_refl)) as (w' & Hrun & _).
  apply (f_equal fst) in Hrun. vm_compute in Hrun. discriminate Hrun.
Qed.

Lemma PreRender_quit_unlistened_witness :
  let d := ready default_handler None false in
  let queue := [ sdl.MouseMotionEvent 1 2; sdl.QuitEvent;
                 sdl.KeyboardEvent sdl.PRESSED
                   {| sdl.Sym := sdl.K_HOME; sdl.Mod := sdl.KMOD_NONE |} ] in
  let w := metal_world no_failure queue in
  eventListener d = None /\ context d = Some 3%positive /\
  In sdl.QuitEvent (events w) /\
  exists w',
    PreRender d w = (Val (Some Go.ErrQuit), w') /\
    events w' = [] /\
    log w' = log w
      ++ [ContextClear 3%positive; ContextInputBegin 3%positive]
      ++ (events w ≫= translate (eventHandler d) 3%positive)
      ++ [ContextInputEnd 3%positive; ContextInputEnd 3%positive].
Proof.
  intros d queue w.
  assert (Hin : In sdl.QuitEvent (events w)) by (right; left; reflexivity).
  split; [reflexivity|]. split; [reflexivity|]. split; [exact Hin|].
  exact (PreRender_quit_unlistened d w 3%positive eq_refl eq_refl Hin).
Defined.

(** C8: a draw command without elements leaves everything as it is: no
    call is made and the index cursor stays. A command with elements,
    when the renderer accepts its two calls, sets its clip rectangle and
    draws once, the indices from the cursor on, as many as its element
    count, and moves the cursor by that count. Over a frame in which no
    call fails the calls of [PostRender] are, between the conversion and
    the restoring of the clip rectangle, those of the commands with
    elements, in order, each from the sum of the counts before it. *)
Theorem PostRender_draw_commands :
  (forall (d : Driver) (viewport : sdl.Rect) (verts : Go.slice)
          (cmd : nk.DrawCommand) (indices : Go.slice) (err : option Go.error)
          (w : World),
      nk.ElemCount cmd = 0 ->
      drawCommand d viewport verts cmd indices err w
      = (Val (indices, err, true), w)) /\
  (forall (d : Driver) (r : Handle) (viewport : sdl.Rect) (verts : Go.slice)
          (cmd : nk.DrawCommand) (indices : Go.slice) (err : option Go.error)
          (w : World),
      renderer d = Some r ->
      nk.ElemCount cmd <> 0 ->
      0 <= nk.ElemCount cmd <= Go.s_len indices ->
      Go.s_len indices <= Go.s_cap indices ->
      outcome w (ticks w) = None ->
      outcome w (S (ticks w)) = None ->
      exists indices' w',
        drawCommand d viewport verts cmd indices err w
        = (Val (indices', None, true), w') /\
        Go.s_off indices' = Go.s_off indices + nk.ElemCount cmd /\
        log w' = log w
          ++ [ RendererSetClipRect r (Some (commandClipRect d viewport cmd));
               RendererGeometry r (nk.Texture cmd) (Go.s_len verts)
                 (Go.s_off indices) (nk.ElemCount cmd) ]) /\
  (forall (d : Driver) (w : World) (r c cb eb vb : Handle),
      renderer d = Some r -> context d = Some c ->
      commands d = Some cb -> elements d = Some eb -> vertices d = Some vb ->
      frame_ok w -> quiet w ->
      exists w',
        PostRender d w = (Val None, w') /\
        log w' = log w
          ++ [ RendererSetScale r (uiScale d) (uiScale d);
               BufferClear cb; BufferClear eb; BufferClear vb; ContextConvert c ]
          ++ drawCalls d r (viewport (rend w))
               (Z.quot (gui_vertices w) vertexSize) (gui_commands w) 0
          ++ [ RendererSetClipRect r (Some (default zeroRect (clip (rend w))));
               RendererPresent r;
               RendererSetScale r (fst (scale (rend w))) (snd (scale (rend w))) ]).
Proof.
  split; [exact drawCommand_empty|]. split.
  - intros d r viewport verts cmd indices err w Hr Hne Hcount Hcap H1 H2.
    eexists _, _. split;
      [exact (drawCommand_draws d r viewport verts cmd indices err w
                Hr Hne Hcount Hcap H1 H2)|].
    split; [reflexivity|]. cbn. rewrite <- app_assoc. reflexivity.
  - intros d w r c cb eb vb Hr Hc Hcb Heb Hvb Hframe Hq.
    destruct (PostRender_quiet d w r c cb eb vb Hr Hc Hcb Heb Hvb Hframe Hq)
      as (w' & Hrun & Hlog & _).
    exists w'. auto.
Qed.

Lemma metal_world_frame_ok : frame_ok (metal_world no_failure []).
Proof.
  split.
  - repeat constructor; cbn; discriminate.
  - vm_compute. discriminate.
Defined.

Lemma PostRender_draw_commands_witness :
  let d := ready default_handler None false in
  let w := metal_world no_failure [] in
  let viewport := viewport (rend w) in
  let verts :=
    reinterpretSlice (Memory (gui_vertices w) (vertices_spare w)) vertexSize in
  let indices := reinterpretSlice (Memory (gui_elements w) (elements_spare w)) 4 in
  (nk.ElemCount (command 0 0 0 10 10) = 0 /\
   drawCommand d viewport verts (command 0 0 0 10 10) indices None w
   = (Val (indices, None, true), w)) /\
  (renderer d = Some 2%positive /\
   nk.ElemCount (command 6 (-5) 0 100 50) <> 0 /\
   0 <= nk.ElemCount (command 6 (-5) 0 100 50) <= Go.s_len indices /\
   Go.s_len indices <= Go.s_cap indices /\
   outcome w (ticks w) = None /\ outcome w (S (ticks w)) = None /\
   exists indices' w',
     drawCommand d viewport verts (command 6 (-5) 0 100 50) indices None w
     = (Val (indices', None, true), w') /\
     Go.s_off indices' = Go.s_off indices + 6 /\
     log w' = log w
       ++ [ RendererSetClipRect 2%positive
              (Some (commandClipRect d viewport (command 6 (-5) 0 100 50)));
            RendererGeometry 2%positive (Some 7%positive) (Go.s_len verts)
              (Go.s_off indices) 6 ]) /\
  (frame_ok w /\ quiet w /\
   exists w',
     PostRender d w = (Val None, w') /\
     log w' = log w
       ++ [ RendererSetScale 2%positive (uiScale d) (uiScale d);
            BufferClear 9%positive; BufferClear 10%positive;
            BufferClear 11%positive; ContextConvert 3%positive ]
       ++ drawCalls d 2%positive viewport (Z.quot (gui_vertices w) vertexSize)
            (gui_commands w) 0
       ++ [ RendererSetClipRect 2%positive (Some (default zeroRect (clip (rend w))));
            RendererPresent 2%positive;
            RendererSetScale 2%positive (fst (scale (rend w))) (snd (scale (rend w))) ]).
Proof.
  intros d w viewport verts indices.
  assert (Hq : quiet w) by (intros n _; reflexivity).
  assert (Hne : nk.ElemCount (command 6 (-5) 0 100 50) <> 0) by discriminate.
  assert (Hcount : 0 <= nk.ElemCount (command 6 (-5) 0 100 50) <= Go.s_len indices).
  { split; vm_compute; discriminate. }
  assert (Hcap : Go.s_len indices <= Go.s_cap indices) by (vm_compute; discriminate).
  split; [|split].
  - split; [reflexivity|].
    exact (proj1 PostRender_draw_commands d viewport verts (command 0 0 0 10 10)
             indices None w eq_refl).
  - split; [reflexivity|]. split; [exact Hne|]. split; [exact Hcount|].
    split; [exact Hcap|]. split; [reflexivity|]. split; [reflexivity|].
    exact (proj1 (proj2 PostRender_draw_commands) d 2%positive viewport verts
             (command 6 (-5) 0 100 50) indices None w eq_refl Hne Hcount Hcap
             eq_refl eq_refl).
  - split; [exact metal_world_frame_ok|]. split; [exact Hq|].
    exact (proj2 (proj2 PostRender_draw_commands) d w 2%positive 3%positive
             9%positive 10%positive 11%positive eq_refl eq_refl eq_refl eq_refl
             eq_refl metal_world_frame_ok Hq).
Defined.



(** * Further properties

    Properties of the code beyond those the specification states. *)

(** ** The expansion of the binding table *)

Lemma expandModBinding_loop_spec (both left right : sdl.Keymod)
    (rest pre app : list keyBinding) :
  expandModBinding_loop (length rest) (length pre) (pre ++ rest ++ app) both left right
  = pre
    ++ ((fun b => if hasMod both b then withMod both left b else b) <$> rest)
    ++ app
    ++ (withMod both right <$> List.filter (hasMod both) rest).
Proof.
  revert pre app. induction rest as [|b rest IH]; intros pre app.
  - cbn. by rewrite app_nil_r.
  - cbn [length expandModBinding_loop].
    rewrite lookup_app_r by lia. rewrite Nat.sub_diag. cbn.
    fold (hasMod both b). destruct (hasMod both b) eqn:Hb; cbn [negb].
    + fold (withMod both left b). fold (withMod both right b).
      rewrite insert_app_r_alt by lia. rewrite Nat.sub_diag. cbn.
      specialize (IH (pre ++ [withMod both left b]) (app ++ [withMod both right b])).
      rewrite length_app in IH. cbn [length] in IH.
      replace (length pre + 1)%nat with (S (length pre)) in IH by lia.
      rewrite <- !app_assoc in IH. cbn in IH.
      etrans; [|exact IH]. f_equal. rewrite <- app_assoc. cbn. by rewrite <- app_assoc.
    + specialize (IH (pre ++ [b]) app).
      rewrite length_app in IH. cbn [length] in IH.
      replace (length pre + 1)%nat with (S (length pre)) in IH by lia.
      rewrite <- !app_assoc in IH. cbn in IH. exact IH.
Qed.

(** X1: [expandModBinding] replaces every binding that holds the
    modifier [both] by its left variant, in place, and appends the right
    variants in the order of the bindings. The other bindings stay as
    they are, and the appended ones are not expanded a second time. *)
Theorem expandModBinding_variants (bs : list keyBinding)
    (both left right : sdl.Keymod) :
  expandModBinding bs both left right
  = ((fun b => if hasMod both b then withMod both left b else b) <$> bs)
    ++ (withMod both right <$> List.filter (hasMod both) bs).
Proof.
  unfold expandModBinding.
  pose proof (expandModBinding_loop_spec both left right bs [] []) as H.
  cbn in H. rewrite app_nil_r in H. exact H.
Qed.

Lemma elem_of_List_filter {A : Type} (f : A -> bool) (l : list A) (x : A) :
  x ∈ List.filter f l <-> x ∈ l /\ f x = true.
Proof. rewrite !list_elem_of_In. apply filter_In. Qed.

Lemma expandModBinding_elem (bs : list keyBinding) (both left right : sdl.Keymod)
    (b' : keyBinding) :
  b' ∈ expandModBinding bs both left right <->
  exists b, b ∈ bs /\
    (hasMod both b = false /\ b' = b \/
     hasMod both b = true /\ (b' = withMod both left b \/ b' = withMod both right b)).
Proof.
  rewrite expandModBinding_variants, elem_of_app, !list_elem_of_fmap. split.
  - intros [(b & -> & Hb)|(b & -> & Hb)].
    + exists b. split; [done|]. destruct (hasMod both b); [right|left]; auto.
    + apply elem_of_List_filter in Hb as [Hb Hm]. exists b. split; [done|]. right; auto.
  - intros (b & Hb & [[Hm ->]|[Hm [->| ->]]]).
    + left. exists b. by rewrite Hm.
    + left. exists b. by rewrite Hm.
    + right. exists b. split; [done|]. by apply elem_of_List_filter.
Qed.

(** A property of bindings that the two variants keep holds of all the
    bindings after the expansion. *)
Lemma expandModBinding_Forall (P : keyBinding -> Prop) (bs : list keyBinding)
    (both left right : sdl.Keymod) :
  (forall b, hasMod both b = true -> P b ->
     P (withMod both left b) /\ P (withMod both right b)) ->
  Forall P bs -> Forall P (expandModBinding bs both left right).
Proof.
  intros Hkeep Hbs. rewrite Forall_forall in Hbs. apply Forall_forall.
  intros b' Hb'. apply expandModBinding_elem in Hb' as (b & Hb & Hcase).
  destruct Hcase as [[_ ->]|[Hm [->| ->]]]; [by apply Hbs| |];
    by apply (Hkeep b Hm (Hbs b Hb)).
Qed.

(** *** Modifier masks, bit by bit *)
Lemma land_variant_ne (m both variant : Z) (n : Z) :
  0 <= n -> Z.testbit both n = true -> Z.testbit variant n = false ->
  Z.land (Z.lor (Z.ldiff m both) variant) both <> both.
Proof.
  intros Hn Hboth Hvar Heq.
  apply (f_equal (fun z => Z.testbit z n)) in Heq.
  rewrite Z.land_spec, Z.lor_spec, Z.ldiff_spec, Hboth, Hvar in Heq.
  by destruct (Z.testbit m n).
Qed.

Lemma land_variant_other (m both variant other : Z) :
  Z.land both other = 0 -> Z.land variant other = 0 ->
  Z.land (Z.lor (Z.ldiff m both) variant) other = Z.land m other.
Proof.
  intros Hboth Hvar. apply Z.bits_inj'. intros n Hn.
  apply (f_equal (fun z => Z.testbit z n)) in Hboth, Hvar.
  rewrite Z.land_spec, Z.bits_0 in Hboth, Hvar.
  rewrite !Z.land_spec, Z.lor_spec, Z.ldiff_spec.
  destruct (Z.testbit m n), (Z.testbit both n), (Z.testbit variant n),
    (Z.testbit other n); done.
Qed.

Lemma land_variant_subset (m both variant M : Z) :
  Z.land m both = both -> Z.land variant both = variant -> Z.land m M = m ->
  Z.land (Z.lor (Z.ldiff m both) variant) M = Z.lor (Z.ldiff m both) variant.
Proof.
  intros Hboth Hvar HM. apply Z.bits_inj'. intros n Hn.
  apply (f_equal (fun z => Z.testbit z n)) in Hboth, Hvar, HM.
  rewrite Z.land_spec in Hboth, Hvar, HM.
  rewrite !Z.land_spec, Z.lor_spec, Z.ldiff_spec.
  destruct (Z.testbit m n), (Z.testbit both n), (Z.testbit variant n),
    (Z.testbit M n); done.
Qed.

(** After the expansion of [both] no binding holds [both] in full. *)
Lemma expandModBinding_removes (bs : list keyBinding) (both left right : sdl.Keymod)
    (nl nr : Z) :
  0 <= nl -> 0 <= nr ->
  Z.testbit both nl = true -> Z.testbit right nl = false ->
  Z.testbit both nr = true -> Z.testbit left nr = false ->
  Forall (fun b => hasMod both b = false) (expandModBinding bs both left right).
Proof.
  intros Hnl Hnr Hbl Hrl Hbr Hlr. apply Forall_forall. intros b' Hb'.
  apply expandModBinding_elem in Hb' as (b & _ & Hcase).
  destruct Hcase as [[Hm ->]|[_ [->| ->]]]; [done| |];
    unfold hasMod, withMod; cbn [input Mod]; apply Z.eqb_neq.
  - by apply (land_variant_ne _ _ _ nr).
  - by apply (land_variant_ne _ _ _ nl).
Qed.

(** The expansion of another modifier leaves [hasMod] alone. *)
Lemma hasMod_withMod_other (both variant other : sdl.Keymod) (b : keyBinding) :
  Z.land both other = 0 -> Z.land variant other = 0 ->
  hasMod other (withMod both variant b) = hasMod other b.
Proof.
  intros H1 H2. unfold hasMod, withMod. cbn [input Mod].
  by rewrite land_variant_other.
Qed.

Lemma hasAlias_false (m : sdl.Keymod) :
  hasAlias m = false <->
  (Z.land m sdl.KMOD_CTRL =? sdl.KMOD_CTRL) = false /\
  (Z.land m sdl.KMOD_SHIFT =? sdl.KMOD_SHIFT) = false /\
  (Z.land m sdl.KMOD_ALT =? sdl.KMOD_ALT) = false /\
  (Z.land m sdl.KMOD_GUI =? sdl.KMOD_GUI) = false.
Proof. unfold hasAlias. rewrite !orb_false_iff. tauto. Qed.

Lemma expansionOf_withMod (inp : KeyInput) (act : KeyAction)
    (both variant : sdl.Keymod) (b : keyBinding) :
  Z.land variant both = variant ->
  hasMod both b = true -> expansionOf inp act b ->
  expansionOf inp act (withMod both variant b).
Proof.
  intros Hvar Hm (Hc & Ha & Hsub). unfold expansionOf, withMod. cbn [input action Code Mod].
  split; [done|]. split; [done|].
  apply land_variant_subset; [|done|done]. by apply Z.eqb_eq.
Qed.

Lemma expandEntry_elem (inp : KeyInput) (act : KeyAction) (b : keyBinding) :
  b ∈ expandEntry inp act ->
  expansionOf inp act b /\ hasAlias (Mod (input b)) = false.
Proof.
  revert b. apply Forall_forall. unfold expandEntry.
  set (P := fun b : keyBinding => expansionOf inp act b).
  set (bs0 := [ {| input := inp; action := act |} ]).
  set (bs1 := expandModBinding bs0 sdl.KMOD_CTRL sdl.KMOD_LCTRL sdl.KMOD_RCTRL).
  set (bs2 := expandModBinding bs1 sdl.KMOD_SHIFT sdl.KMOD_LSHIFT sdl.KMOD_RSHIFT).
  set (bs3 := expandModBinding bs2 sdl.KMOD_ALT sdl.KMOD_LALT sdl.KMOD_RALT).
  assert (H0 : Forall P bs0).
  { apply Forall_singleton. unfold P, expansionOf. cbn. by rewrite Z.land_diag. }
  assert (H1 : Forall (fun b => P b /\ hasMod sdl.KMOD_CTRL b = false) bs1).
  { apply Forall_and. split.
    - apply expandModBinding_Forall; [|done]. intros b Hm Hb.
      split; by apply expansionOf_withMod.
    - by apply (expandModBinding_removes _ _ _ _ 6 7). }
  assert (H2 : Forall (fun b => (P b /\ hasMod sdl.KMOD_CTRL b = false)
                                /\ hasMod sdl.KMOD_SHIFT b = false) bs2).
  { apply Forall_and. split.
    - apply expandModBinding_Forall; [|done]. intros b Hm [Hb Hc].
      rewrite !hasMod_withMod_other by done.
      split; (split; [by apply expansionOf_withMod|done]).
    - by apply (expandModBinding_removes _ _ _ _ 0 1). }
  assert (H3 : Forall (fun b => ((P b /\ hasMod sdl.KMOD_CTRL b = false)
                                 /\ hasMod sdl.KMOD_SHIFT b = false)
                                /\ hasMod sdl.KMOD_ALT b = false) bs3).
  { apply Forall_and. split.
    - apply expandModBinding_Forall; [|done]. intros b Hm [[Hb Hc] Hs].
      rewrite !hasMod_withMod_other by done.
      split; (split; [split; [by apply expansionOf_withMod|done]|done]).
    - by apply (expandModBinding_removes _ _ _ _ 8 9). }
  assert (H4 : Forall (fun b => (((P b /\ hasMod sdl.KMOD_CTRL b = false)
                                  /\ hasMod sdl.KMOD_SHIFT b = false)
                                 /\ hasMod sdl.KMOD_ALT b = false)
                                /\ hasMod sdl.KMOD_GUI b = false)
                  (expandModBinding bs3 sdl.KMOD_GUI sdl.KMOD_LGUI sdl.KMOD_RGUI)).
  { apply Forall_and. split.
    - apply expandModBinding_Forall; [|done]. intros b Hm [[[Hb Hc] Hs] Ha].
      rewrite !hasMod_withMod_other by done.
      split; (split; [split; [split; [by apply expansionOf_withMod|done]|done]|done]).
    - by apply (expandModBinding_removes _ _ _ _ 10 11). }
  eapply Forall_impl; [exact H4|]. intros b [[[[Hb Hc] Hs] Ha] Hg].
  split; [exact Hb|]. apply hasAlias_false. auto.
Qed.

Lemma writeBindings_origin (src : gmap KeyInput KeyAction) (bs : list keyBinding)
    (dst dst' : gmap KeyInput KeyAction) (k : KeyInput) (a : KeyAction) :
  writeBindings src bs dst = Some dst' -> dst' !! k = Some a ->
  dst !! k = Some a \/ exists b, b ∈ bs /\ input b = k /\ action b = a.
Proof.
  revert dst. induction bs as [|b bs IH]; intros dst Hw Hk.
  - cbn in Hw. injection Hw as <-. by left.
  - cbn [writeBindings] in Hw.
    assert (Hnext : writeBindings src bs (<[input b:=action b]> dst) = Some dst').
    { destruct (dst !! input b) as [old|]; [|done].
      by destruct (decide (old <> map_index src (input b))). }
    destruct (IH _ Hnext Hk) as [Hin|(b' & Hb' & Hi & Ha)].
    + destruct (decide (input b = k)) as [Heq|Hne].
      * rewrite Heq, lookup_insert_eq in Hin. injection Hin as Ha.
        right. exists b. split; [apply list_elem_of_here|done].
      * rewrite lookup_insert_ne in Hin by done. by left.
    + right. exists b'. split; [by apply list_elem_of_further|done].
Qed.

Lemma expandModBindings_origin (order : list (KeyInput * KeyAction))
    (dst src dst' : gmap KeyInput KeyAction) (k : KeyInput) (a : KeyAction) :
  expandModBindings order dst src = Some dst' -> dst' !! k = Some a ->
  dst !! k = Some a \/
  exists inp act, (inp, act) ∈ order /\
    {| input := k; action := a |} ∈ expandEntry inp act.
Proof.
  revert dst. induction order as [|[inp act] rest IH]; intros dst Hw Hk.
  - cbn in Hw. injection Hw as <-. by left.
  - cbn [expandModBindings] in Hw.
    destruct (writeBindings src (expandEntry inp act) dst) as [dst1|] eqn:Hw1; [|done].
    destruct (IH _ Hw Hk) as [Hin|(inp' & act' & Hin & Hb)].
    + destruct (writeBindings_origin _ _ _ _ _ _ Hw1 Hin) as [Hd|(b & Hb & Hi & Ha)].
      * by left.
      * right. exists inp, act. split; [apply list_elem_of_here|].
        destruct b as [bi ba]. cbn in Hi, Ha. by subst.
    + right. exists inp', act'. split; [by apply list_elem_of_further|done].
Qed.

(** An entry without a generic modifier is its own expansion. *)
Lemma expandModBinding_singleton_id (b : keyBinding) (both left right : sdl.Keymod) :
  hasMod both b = false -> expandModBinding [b] both left right = [b].
Proof.
  intros H. rewrite expandModBinding_variants. cbn. by rewrite H.
Qed.

Lemma expandEntry_alias_free (inp : KeyInput) (act : KeyAction) :
  hasAlias (Mod inp) = false ->
  expandEntry inp act = [ {| input := inp; action := act |} ].
Proof.
  intros H. apply hasAlias_false in H as (Hc & Hs & Ha & Hg).
  unfold expandEntry. by rewrite !expandModBinding_singleton_id.
Qed.

Lemma expansions_alias_free (order : list (KeyInput * KeyAction)) :
  Forall (fun p => hasAlias (Mod (fst p)) = false) order ->
  expansions order = asBinding <$> order.
Proof.
  induction 1 as [|[inp act] rest Hp _ IH]; [done|].
  unfold expansions in *. rewrite bind_cons, IH. cbn [fst snd] in *.
  by rewrite expandEntry_alias_free.
Qed.

(** A table without generic modifiers is copied as it is. *)
Lemma expandModBindings_alias_free (bs : gmap KeyInput KeyAction)
    (order : list (KeyInput * KeyAction)) :
  range_order bs order ->
  (forall k a, bs !! k = Some a -> hasAlias (Mod k) = false) ->
  expandModBindings order ∅ bs = Some bs.
Proof.
  intros Hord Hfree. unfold range_order in Hord.
  assert (Hin : forall k a, (k, a) ∈ order <-> bs !! k = Some a).
  { intros k a. rewrite Hord. apply elem_of_map_to_list. }
  assert (Hexp : expansions order = asBinding <$> order).
  { apply expansions_alias_free, Forall_forall. intros [k a] Hka.
    apply (Hfree k a). by apply Hin. }
  assert (Hinputs : input <$> expansions order = fst <$> order).
  { rewrite Hexp, <- list_fmap_compose. by apply list_fmap_ext. }
  assert (Hnd : NoDup (input <$> expansions order)).
  { rewrite Hinputs, Hord. apply NoDup_fst_map_to_list. }
  rewrite expandModBindings_fresh; [|exact Hnd|intros; apply lookup_empty].
  f_equal. apply map_eq. intros k.
  destruct (bs !! k) as [a|] eqn:Hk.
  - apply (writeAll_lookup_in _ _ {| input := k; action := a |}); [exact Hnd|].
    rewrite Hexp. apply list_elem_of_fmap. exists (k, a). split; [done|]. by apply Hin.
  - rewrite writeAll_lookup_notin; [apply lookup_empty|].
    rewrite Hinputs. intros Hel. apply list_elem_of_fmap in Hel as ([k' a'] & -> & Hel).
    apply Hin in Hel. cbn in Hk. congruence.
Qed.

Lemma expandModBindings_keys (order : list (KeyInput * KeyAction))
    (src dst' : gmap KeyInput KeyAction) (k : KeyInput) (a : KeyAction) :
  expandModBindings order ∅ src = Some dst' -> dst' !! k = Some a ->
  hasAlias (Mod k) = false.
Proof.
  intros Hw Hk.
  destruct (expandModBindings_origin _ _ _ _ _ _ Hw Hk) as [He|(inp & act & _ & Hb)].
  - by rewrite lookup_empty in He.
  - by apply expandEntry_elem in Hb as [_ Hb].
Qed.

Lemma NewEventHandler_Some (order : list (KeyInput * KeyAction))
    (bs : gmap KeyInput KeyAction) (h : EventHandler) :
  NewEventHandler order bs = Some h <->
  expandModBindings order ∅ bs = Some (bindings h).
Proof.
  unfold NewEventHandler. destruct (expandModBindings order ∅ bs) as [m|].
  - destruct h as [hb]. cbn. split; intros H; injection H as H; by subst.
  - split; discriminate.
Qed.

(** X2: the table of a handler that [NewEventHandler] gives binds no
    input that holds both keys of Ctrl, of Shift, of Alt or of GUI. For
    a key event with such modifiers [HandleEvent] passes nothing to the
    context and reports the event as unused. *)
Theorem NewEventHandler_no_generic_modifier (order : list (KeyInput * KeyAction))
    (bs : gmap KeyInput KeyAction) (h : EventHandler) :
  NewEventHandler order bs = Some h ->
  (forall k a, bindings h !! k = Some a -> hasAlias (Mod k) = false) /\
  (forall state keysym, hasAlias (sdl.Mod keysym) = true ->
     HandleEvent h (sdl.KeyboardEvent state keysym)
     = ([], (EventTypeInputKey, false))).
Proof.
  intros Hh. apply NewEventHandler_Some in Hh.
  assert (Hkeys : forall k a, bindings h !! k = Some a -> hasAlias (Mod k) = false).
  { intros k a. exact (expandModBindings_keys order bs (bindings h) k a Hh). }
  split; [exact Hkeys|]. intros state keysym Halias.
  apply HandleEvent_Key1_none. unfold map_index.
  destruct (bindings h !! KeysymInput keysym) as [a|] eqn:Hk; [|done].
  apply Hkeys in Hk. cbn in Hk. congruence.
Qed.

Lemma NewEventHandler_no_generic_modifier_witness :
  let both_ctrl_c := {| sdl.Sym := sdl.K_c; sdl.Mod := sdl.KMOD_CTRL |} in
  NewEventHandler DefaultBindings_entries DefaultBindings = Some default_handler /\
  (forall k a, bindings default_handler !! k = Some a -> hasAlias (Mod k) = false) /\
  hasAlias (sdl.Mod both_ctrl_c) = true /\
  HandleEvent default_handler (sdl.KeyboardEvent sdl.PRESSED both_ctrl_c)
  = ([], (EventTypeInputKey, false)).
Proof.
  assert (H : NewEventHandler DefaultBindings_entries DefaultBindings
              = Some default_handler) by (vm_compute; reflexivity).
  split; [exact H|].
  destruct (NewEventHandler_no_generic_modifier _ _ _ H) as [Hkeys Hev].
  split; [exact Hkeys|]. split; [reflexivity|]. apply Hev. reflexivity.
Defined.

(** X3: a table none of whose inputs holds a generic modifier is copied
    as it is, whatever the order of the iteration: [NewEventHandler]
    does not panic and the handler holds the entries of the table and
    nothing else. *)
Theorem NewEventHandler_copies (bs : gmap KeyInput KeyAction)
    (order : list (KeyInput * KeyAction)) :
  range_order bs order ->
  (forall k a, bs !! k = Some a -> hasAlias (Mod k) = false) ->
  NewEventHandler order bs = Some {| bindings := bs |}.
Proof.
  intros Hord Hfree. apply NewEventHandler_Some. cbn.
  by apply expandModBindings_alias_free.
Qed.

(** X4: [NewEventHandler] on the bindings of a handler gives that
    handler again, whatever the order of the iteration. *)
Theorem NewEventHandler_idempotent (order order' : list (KeyInput * KeyAction))
    (bs : gmap KeyInput KeyAction) (h : EventHandler) :
  NewEventHandler order bs = Some h ->
  range_order (bindings h) order' ->
  NewEventHandler order' (bindings h) = Some h.
Proof.
  intros Hh Hord. apply NewEventHandler_Some in Hh. apply NewEventHandler_Some.
  apply expandModBindings_alias_free; [exact Hord|].
  intros k a. exact (expandModBindings_keys order bs (bindings h) k a Hh).
Qed.

(** X5: every binding of the handler comes from an entry of the table:
    an entry with the same action and the same key code, whose
    modifiers include those of the binding. *)
Theorem NewEventHandler_binding_origin (order : list (KeyInput * KeyAction))
    (bs : gmap KeyInput KeyAction) (h : EventHandler) (k : KeyInput) (a : KeyAction) :
  NewEventHandler order bs = Some h ->
  bindings h !! k = Some a ->
  exists inp, (inp, a) ∈ order /\ Code inp = Code k /\
    Z.land (Mod k) (Mod inp) = Mod k.
Proof.
  intros Hh Hk. apply NewEventHandler_Some in Hh.
  destruct (expandModBindings_origin _ _ _ _ _ _ Hh Hk) as [He|(inp & act & Hin & Hb)].
  - by rewrite lookup_empty in He.
  - apply expandEntry_elem in Hb as [(Hc & Ha & Hsub) _]. cbn in Hc, Ha, Hsub.
    subst act. exists inp. auto.
Qed.

Lemma NewEventHandler_copies_witness :
  let bs : gmap KeyInput KeyAction :=
    list_to_map [ (key sdl.K_c sdl.KMOD_LCTRL, act1 nk.KeyCopy);
                  (key sdl.K_RETURN sdl.KMOD_NONE, act1 nk.KeyEnter) ] in
  range_order bs (map_to_list bs) /\
  (forall k a, bs !! k = Some a -> hasAlias (Mod k) = false) /\
  NewEventHandler (map_to_list bs) bs = Some {| bindings := bs |}.
Proof.
  intros bs.
  assert (Hord : range_order bs (map_to_list bs)) by (unfold range_order; reflexivity).
  assert (Hfree : map_Forall (fun k _ => hasAlias (Mod k) = false) bs).
  { apply (bool_decide_unpack _). vm_compute. exact I. }
  split; [exact Hord|]. split; [exact Hfree|].
  exact (NewEventHandler_copies bs (map_to_list bs) Hord Hfree).
Defined.

Lemma NewEventHandler_idempotent_witness :
  NewEventHandler DefaultBindings_entries DefaultBindings = Some default_handler /\
  range_order (bindings default_handler) (map_to_list (bindings default_handler)) /\
  NewEventHandler (map_to_list (bindings default_handler)) (bindings default_handler)
  = Some default_handler.
Proof.
  assert (H : NewEventHandler DefaultBindings_entries DefaultBindings
              = Some default_handler) by (vm_compute; reflexivity).
  assert (Hord : range_order (bindings default_handler)
                   (map_to_list (bindings default_handler)))
    by (unfold range_order; reflexivity).
  split; [exact H|]. split; [exact Hord|].
  exact (NewEventHandler_idempotent _ _ _ _ H Hord).
Defined.

Lemma NewEventHandler_binding_origin_witness :
  NewEventHandler DefaultBindings_entries DefaultBindings = Some default_handler /\
  bindings default_handler !! key sdl.K_z (Z.lor sdl.KMOD_RCTRL sdl.KMOD_LSHIFT)
  = Some (act1 nk.KeyTextRedo) /\
  exists inp, (inp, act1 nk.KeyTextRedo) ∈ DefaultBindings_entries /\
    Code inp = sdl.K_z /\
    Z.land (Z.lor sdl.KMOD_RCTRL sdl.KMOD_LSHIFT) (Mod inp)
    = Z.lor sdl.KMOD_RCTRL sdl.KMOD_LSHIFT.
Proof.
  assert (H : NewEventHandler DefaultBindings_entries DefaultBindings
              = Some default_handler) by (vm_compute; reflexivity).
  assert (Hk : bindings default_handler
                 !! key sdl.K_z (Z.lor sdl.KMOD_RCTRL sdl.KMOD_LSHIFT)
               = Some (act1 nk.KeyTextRedo)) by (vm_compute; reflexivity).
  split; [exact H|]. split; [exact Hk|].
  exact (NewEventHandler_binding_origin _ _ _ _ _ H Hk).
Defined.

(** The table written from bindings with distinct inputs does not depend
    on the order they are written in. *)
Lemma writeAll_Permutation (bs1 bs2 : list keyBinding)
    (dst : gmap KeyInput KeyAction) :
  NoDup (input <$> bs1) -> bs1 ≡ₚ bs2 -> writeAll bs1 dst = writeAll bs2 dst.
Proof.
  intros Hnd Hp. assert (Hnd2 : NoDup (input <$> bs2)) by by rewrite <- Hp.
  apply map_eq. intros k.
  destruct (decide (k ∈ input <$> bs1)) as [Hin|Hnin].
  - apply list_elem_of_fmap in Hin as (b & -> & Hb).
    rewrite (writeAll_lookup_in bs1) by done.
    rewrite (writeAll_lookup_in bs2); [done|done|by rewrite <- Hp].
  - rewrite !writeAll_lookup_notin; [done| |done]. by rewrite <- Hp.
Qed.

(** X6: when no two entries of the table expand to the same input, the
    handler is the same for every order of the iteration. A key event
    whose key and modifiers are an expansion of an entry that has a
    first key passes the keys of the entry to the context, the first
    and then the second if there is one, with the state of the event,
    and is reported as used. *)
Theorem NewEventHandler_order_independent (bs : gmap KeyInput KeyAction)
    (o1 o2 : list (KeyInput * KeyAction)) :
  range_order bs o1 -> range_order bs o2 ->
  NoDup (input <$> expansions (map_to_list bs)) ->
  exists h,
    NewEventHandler o1 bs = Some h /\ NewEventHandler o2 bs = Some h /\
    forall inp act b state,
      bs !! inp = Some act -> b ∈ expandEntry inp act -> Key1 act <> nk.KeyNone ->
      let down := if state =? sdl.PRESSED then true else false in
      HandleEvent h (sdl.KeyboardEvent state
                       {| sdl.Sym := Code (input b); sdl.Mod := Mod (input b) |})
      = (nk.InputKey (Key1 act) down
           :: (if decide (Key2 act <> nk.KeyNone)
               then [nk.InputKey (Key2 act) down] else []),
         (EventTypeInputKey, true)).
Proof.
  intros H1 H2 Hnd.
  destruct (NewEventHandler_disjoint bs o1 H1 Hnd) as (h & Hh & Hlk).
  exists h. split; [exact Hh|]. split.
  - unfold range_order in H1, H2.
    assert (Hnd1 : NoDup (input <$> expansions o1))
      by by rewrite (expansions_Permutation _ _ H1).
    assert (Hnd2 : NoDup (input <$> expansions o2))
      by by rewrite (expansions_Permutation _ _ H2).
    apply NewEventHandler_Some in Hh. apply NewEventHandler_Some.
    rewrite expandModBindings_fresh in Hh; [|done|intros; apply lookup_empty].
    rewrite expandModBindings_fresh; [|done|intros; apply lookup_empty].
    rewrite <- Hh. f_equal. apply writeAll_Permutation; [done|].
    apply expansions_Permutation. by rewrite H2, H1.
  - intros inp act b state Hin Hb Hk1 down.
    pose proof (Hlk inp act b Hin Hb) as Hb'.
    apply expandEntry_elem in Hb as [(_ & Ha & _) _].
    cbn [HandleEvent]. unfold map_index, KeysymInput. cbn [sdl.Sym sdl.Mod].
    destruct (input b) as [c m] eqn:Hib. cbn [Code Mod]. rewrite Hb', Ha. cbn.
    rewrite decide_True by done. reflexivity.
Qed.

Lemma NewEventHandler_order_independent_witness :
  let o1 := DefaultBindings_entries in
  let o2 := map_to_list DefaultBindings in
  let home := {| input := key sdl.K_HOME sdl.KMOD_NONE;
                 action := {| Key1 := nk.KeyTextStart; Key2 := nk.KeyScrollStart |} |} in
  range_order DefaultBindings o1 /\ range_order DefaultBindings o2 /\
  NoDup (input <$> expansions (map_to_list DefaultBindings)) /\
  exists h,
    NewEventHandler o1 DefaultBindings = Some h /\
    NewEventHandler o2 DefaultBindings = Some h /\
    HandleEvent h (sdl.KeyboardEvent sdl.PRESSED
                     {| sdl.Sym := sdl.K_HOME; sdl.Mod := sdl.KMOD_NONE |})
    = ([nk.InputKey nk.KeyTextStart true; nk.InputKey nk.KeyScrollStart true],
       (EventTypeInputKey, true)).
Proof.
  intros o1 o2 home.
  assert (H1 : range_order DefaultBindings o1).
  { unfold range_order. apply (bool_decide_unpack _). vm_compute. exact I. }
  assert (H2 : range_order DefaultBindings o2) by (unfold range_order; reflexivity).
  assert (Hnd : NoDup (input <$> expansions (map_to_list DefaultBindings))).
  { apply (bool_decide_unpack _). vm_compute. exact I. }
  split; [exact H1|]. split; [exact H2|]. split; [exact Hnd|].
  destruct (NewEventHandler_order_independent DefaultBindings o1 o2 H1 H2 Hnd)
    as (h & Hh1 & Hh2 & Hev).
  exists h. split; [exact Hh1|]. split; [exact Hh2|].
  apply (Hev (key sdl.K_HOME sdl.KMOD_NONE) (action home) home sdl.PRESSED).
  - vm_compute. reflexivity.
  - vm_compute. left. 
  - discriminate.
Defined.

(** ** The translation of events *)

(** X7: an event that [HandleEvent] reports as unused has caused no call
    on the context; it is a quit event, a key event, or an event of a
    type that [HandleEvent] does not know. *)
Theorem HandleEvent_unused_is_silent (h : EventHandler) (e : sdl.Event) :
  snd (snd (HandleEvent h e)) = false ->
  fst (HandleEvent h e) = [] /\
  (fst (snd (HandleEvent h e)) = EventTypeQuit \/
   fst (snd (HandleEvent h e)) = EventTypeInputKey \/
   fst (snd (HandleEvent h e)) = EventTypeUnhandled).
Proof.
  destruct e as [|x y|x y button state clicks|px py|state keysym|text|ty];
    cbn [HandleEvent]; try (cbn; auto; discriminate).
  destruct (decide (Key1 (map_index (bindings h) (KeysymInput keysym)) <> nk.KeyNone));
    cbn; [discriminate|auto].
Qed.

Lemma HandleEvent_unused_is_silent_witness :
  snd (snd (HandleEvent default_handler (sdl.KeyboardEvent sdl.PRESSED pageDown))) = false /\
  fst (HandleEvent default_handler (sdl.KeyboardEvent sdl.PRESSED pageDown)) = [] /\
  (fst (snd (HandleEvent default_handler (sdl.KeyboardEvent sdl.PRESSED pageDown)))
   = EventTypeQuit \/
   fst (snd (HandleEvent default_handler (sdl.KeyboardEvent sdl.PRESSED pageDown)))
   = EventTypeInputKey \/
   fst (snd (HandleEvent default_handler (sdl.KeyboardEvent sdl.PRESSED pageDown)))
   = EventTypeUnhandled).
Proof.
  assert (H : snd (snd (HandleEvent default_handler
                          (sdl.KeyboardEvent sdl.PRESSED pageDown))) = false)
    by (vm_compute; reflexivity).
  split; [exact H|].
  exact (HandleEvent_unused_is_silent _ _ H).
Defined.

(** ** The string form of an input *)

Lemma string_append_assoc (a b c : string) :
  String.append (String.append a b) c = String.append a (String.append b c).
Proof.
  induction a as [|x a IH]; [reflexivity|].
  change (String x (String.append (String.append a b) c)
          = String x (String.append a (String.append b c))).
  by rewrite IH.
Qed.

Lemma string_length_zero (s : string) : (String.length s =? 0)%nat = true <-> s = EmptyString.
Proof. destruct s; cbn; split; congruence. Qed.

Lemma string_concat_nonempty (ns : list string) :
  Forall (fun n => n <> EmptyString) ns -> ns <> [] ->
  String.concat "+" ns <> EmptyString.
Proof.
  intros Hne Hns. destruct ns as [|n ns]; [done|].
  apply Forall_cons in Hne as [Hn _]. cbn.
  destruct n as [|a n]; [done|]. destruct ns; cbn; discriminate.
Qed.

Lemma string_concat_snoc (ns : list string) (n : string) :
  ns <> [] ->
  String.concat "+" (ns ++ [n])
  = String.append (String.append (String.concat "+" ns) "+") n.
Proof.
  induction ns as [|x ns IH]; [done|]. intros _.
  destruct ns as [|y ns].
  - cbn. by rewrite string_append_assoc.
  - specialize (IH ltac:(discriminate)).
    change (String.concat "+" ((x :: y :: ns) ++ [n]))
      with (String.append x (String.append "+" (String.concat "+" ((y :: ns) ++ [n])))).
    rewrite IH.
    change (String.concat "+" (x :: y :: ns))
      with (String.append x (String.append "+" (String.concat "+" (y :: ns)))).
    by rewrite !string_append_assoc.
Qed.

(** The builder holds the names written so far, joined by "+". *)
Lemma appendMod_concat (ns : list string) (mod_ mask : sdl.Keymod) (name : string) :
  Forall (fun n => n <> EmptyString) ns ->
  appendMod (String.concat "+" ns) mod_ mask name
  = if Z.land mod_ mask =? mask
    then (String.concat "+" (ns ++ [name]), true)
    else (String.concat "+" ns, false).
Proof.
  intros Hne. unfold appendMod. destruct (Z.land mod_ mask =? mask); [|done].
  cbn [negb]. f_equal. destruct ns as [|n ns]; [done|].
  rewrite string_concat_snoc by done.
  destruct (String.length (String.concat "+" (n :: ns)) =? 0)%nat eqn:Hlen; [|done].
  apply string_length_zero in Hlen. by apply string_concat_nonempty in Hlen.
Qed.

Lemma appendMods_concat (ns : list string) (mod_ both left right : sdl.Keymod)
    (name lname rname : string) :
  Forall (fun n => n <> EmptyString) ns -> lname <> EmptyString ->
  appendMods (String.concat "+" ns) mod_ both left right name lname rname
  = String.concat "+" (ns ++ modNames mod_ both left right name lname rname).
Proof.
  intros Hne Hl. unfold appendMods, modNames.
  rewrite appendMod_concat by done.
  destruct (Z.land mod_ both =? both); [done|]. cbn [negb].
  rewrite appendMod_concat by done.
  destruct (Z.land mod_ left =? left).
  - rewrite appendMod_concat.
    + destruct (Z.land mod_ right =? right); [|done]. by rewrite <- app_assoc.
    + apply Forall_app. split; [done|]. by apply Forall_singleton.
  - rewrite appendMod_concat by done.
    destruct (Z.land mod_ right =? right); [done|]. by rewrite app_nil_r.
Qed.

Lemma modNames_nonempty (mod_ both left right : sdl.Keymod) (name lname rname : string) :
  name <> EmptyString -> lname <> EmptyString -> rname <> EmptyString ->
  Forall (fun n => n <> EmptyString) (modNames mod_ both left right name lname rname).
Proof.
  intros H1 H2 H3. unfold modNames.
  destruct (Z.land mod_ both =? both), (Z.land mod_ left =? left),
    (Z.land mod_ right =? right); cbn; repeat constructor; done.
Qed.

(** X8: [ToString] of an input with the unknown key code is the empty
    string, whatever its modifiers. Of any other input, for a GUI key
    name that is not empty, it is the names of the modifier keys held
    (the generic name when both keys of a modifier are held, else the
    names of the left and of the right key; Ctrl, Shift, Alt, GUI in
    that order) and then the name of the key, joined by a plus sign. *)
Theorem ToString_joins (GetKeyName : sdl.Keycode -> string) (ki : KeyInput)
    (guiKeyName : string) :
  (Code ki = sdl.K_UNKNOWN -> ToString GetKeyName ki guiKeyName = EmptyString) /\
  (Code ki <> sdl.K_UNKNOWN -> guiKeyName <> EmptyString ->
   ToString GetKeyName ki guiKeyName
   = String.concat "+" (allModNames (Mod ki) guiKeyName ++ [GetKeyName (Code ki)])).
Proof.
  split.
  - intros H. unfold ToString. by rewrite H.
  - intros Hcode Hgui. unfold ToString.
    destruct (Z.eqb_spec (Code ki) sdl.K_UNKNOWN) as [|_]; [done|].
    cbv zeta.
    set (c := modNames (Mod ki) sdl.KMOD_CTRL sdl.KMOD_LCTRL sdl.KMOD_RCTRL
                "Ctrl" "LCtrl" "RCtrl").
    set (s := modNames (Mod ki) sdl.KMOD_SHIFT sdl.KMOD_LSHIFT sdl.KMOD_RSHIFT
                "Shift" "LShift" "RShift").
    set (a := modNames (Mod ki) sdl.KMOD_ALT sdl.KMOD_LALT sdl.KMOD_RALT
                "Alt" "LAlt" "RAlt").
    set (g := modNames (Mod ki) sdl.KMOD_GUI sdl.KMOD_LGUI sdl.KMOD_RGUI
                guiKeyName (String.append "L" guiKeyName)
                (String.append "R" guiKeyName)).
    assert (Hc : Forall (fun n => n <> EmptyString) c)
      by (apply modNames_nonempty; discriminate).
    assert (Hs : Forall (fun n => n <> EmptyString) s)
      by (apply modNames_nonempty; discriminate).
    assert (Ha : Forall (fun n => n <> EmptyString) a)
      by (apply modNames_nonempty; discriminate).
    assert (Hg : Forall (fun n => n <> EmptyString) g)
      by (apply modNames_nonempty; [done|discriminate|discriminate]).
    pose proof (appendMods_concat [] (Mod ki) sdl.KMOD_CTRL sdl.KMOD_LCTRL
                  sdl.KMOD_RCTRL "Ctrl" "LCtrl" "RCtrl"
                  ltac:(constructor) ltac:(discriminate)) as E1.
    change (String.concat "+" []) with EmptyString in E1. rewrite E1. cbn [app]. fold c.
    rewrite appendMods_concat by (done || discriminate). fold s.
    rewrite appendMods_concat by (try discriminate; by apply Forall_app). fold a.
    rewrite appendMods_concat
      by (try discriminate; rewrite !Forall_app; done). fold g.
    cbn [app]. unfold allModNames. fold c s a g.
    rewrite <- !app_assoc.
    set (ns := c ++ s ++ a ++ g).
    assert (Hns : Forall (fun n => n <> EmptyString) ns)
      by (subst ns; rewrite !Forall_app; done).
    replace (c ++ s ++ a ++ g ++ [GetKeyName (Code ki)])
      with (ns ++ [GetKeyName (Code ki)]) by (subst ns; by rewrite <- !app_assoc).
    clearbody ns. destruct ns as [|n ns]; [reflexivity|].
    rewrite string_concat_snoc by done.
    destruct (String.length (String.concat "+" (n :: ns)) =? 0)%nat eqn:Hlen; [|done].
    apply string_length_zero in Hlen. by apply string_concat_nonempty in Hlen.
Qed.

Lemma ToString_joins_witness :
  let name : sdl.Keycode -> string := fun _ => "C" in
  ToString name (key sdl.K_UNKNOWN sdl.KMOD_CTRL) "GUI" = EmptyString /\
  KeyInput_String name (key sdl.K_c (Z.lor sdl.KMOD_LCTRL sdl.KMOD_SHIFT))
  = "LCtrl+Shift+C" /\
  KeyInput_String name (key sdl.K_c (Z.lor sdl.KMOD_CTRL sdl.KMOD_RGUI))
  = "Ctrl+RGUI+C".
Proof.
  intros name. split; [|split].
  - exact (proj1 (ToString_joins name (key sdl.K_UNKNOWN sdl.KMOD_CTRL) "GUI") eq_refl).
  - unfold KeyInput_String.
    rewrite (proj2 (ToString_joins name
                      (key sdl.K_c (Z.lor sdl.KMOD_LCTRL sdl.KMOD_SHIFT)) "GUI"));
      [reflexivity|discriminate|discriminate].
  - unfold KeyInput_String.
    rewrite (proj2 (ToString_joins name
                      (key sdl.K_c (Z.lor sdl.KMOD_CTRL sdl.KMOD_RGUI)) "GUI"));
      [reflexivity|discriminate|discriminate].
Defined.

(** ** Runs in which no call fails *)

Lemma quiet_now (w : World) : quiet w -> outcome w (ticks w) = None.
Proof. intros H. apply H. lia. Qed.

Lemma fallible_quiet (c : Call) (w : World) :
  quiet w -> fallible c w = (Val None, ticked w c).
Proof. intros H. rewrite fallible_run, quiet_now by done. reflexivity. Qed.

Lemma create_quiet (c : Call) (w : World) :
  quiet w ->
  create c w = (Val (Some (fresh w), None),
                with_fresh (ticked w c) (Pos.succ (fresh w))).
Proof. intros H. apply create_ok. by apply quiet_now. Qed.

Lemma quiet_ticked (w : World) (c : Call) : quiet w -> quiet (ticked w c).
Proof. intros H n Hn. cbn in *. apply H. lia. Qed.

Lemma quiet_logged (w : World) (c : Call) : quiet w -> quiet (logged w c).
Proof. intros H n Hn. cbn in *. by apply H. Qed.

Lemma quiet_with_fresh (w : World) (h : Handle) : quiet w -> quiet (with_fresh w h).
Proof. intros H n Hn. cbn in *. by apply H. Qed.

Lemma quiet_with_rend (w : World) (r : Renderer) : quiet w -> quiet (with_rend w r).
Proof. intros H n Hn. cbn in *. by apply H. Qed.

Lemma quiet_with_events (w : World) (es : list sdl.Event) :
  quiet w -> quiet (with_events w es).
Proof. intros H n Hn. cbn in *. by apply H. Qed.

Lemma quiet_with_mem (w : World) (c : list nk.DrawCommand) (e v : Z) :
  quiet w -> quiet (with_mem w c e v).
Proof. intros H n Hn. cbn in *. by apply H. Qed.

Create HintDb quiet.

#[local] Hint Resolve quiet_ticked quiet_logged quiet_with_fresh quiet_with_rend
  quiet_with_events quiet_with_mem : quiet.

Lemma bakeFont_quiet (d : Driver) (a r f : Handle) (w : World) (width height : Z) :
  atlas d = Some a -> renderer d = Some r -> font d = Some f ->
  quiet w -> baked w = Some (width, height) ->
  exists w',
    bakeFont d w
    = (Val (set_fontTex d (Some (fresh w)), Some (fresh w), None), w') /\
    log w' = log w ++ [ AtlasBake a; RendererCreateTexture r width height;
                        TextureUpdate (fresh w) (Go.wrap32 (4 * width));
                        TextureSetBlendMode (fresh w);
                        FontScaleHeight f (uiScale d);
                        AtlasEnd a (Some (fresh w)); AtlasCleanup a ] /\
    fresh w' = Pos.succ (fresh w) /\ quiet w' /\
    rend w' = rend w /\ version w' = version w.
Proof.
  intros Ha Hr Hf Hq Hb. unfold bakeFont. rewrite Ha, Hr. cbn [on].
  erewrite bind_val; [|erewrite bind_val; [|apply effect_run]; reflexivity].
  cbn [baked logged with_log]. rewrite Hb. cbv beta iota.
  erewrite bind_val; [|apply create_quiet; auto with quiet]. cbv beta iota.
  cbn [fontTex set_fontTex set_sdl on font atlas uiScale].
  erewrite bind_val; [|apply fallible_quiet; auto with quiet]. cbv beta iota.
  erewrite bind_val; [|apply fallible_quiet; auto 10 with quiet]. cbv beta iota.
  rewrite Hf, Ha. cbn [on].
  erewrite bind_val; [|apply effect_run]. cbv beta iota.
  erewrite bind_val; [|apply effect_run]. cbv beta iota.
  erewrite bind_val; [|apply effect_run]. cbv beta iota.
  eexists. split; [reflexivity|].
  split; [cbn; rewrite <- !app_assoc; reflexivity|].
  split; [reflexivity|]. split; [auto 20 with quiet|]. split; reflexivity.
Qed.

Lemma nthHandle_succ (w : World) :
  Pos.succ (fresh w) = nthHandle w 2 /\
  Pos.succ (Pos.succ (fresh w)) = nthHandle w 3 /\
  Pos.succ (Pos.succ (Pos.succ (fresh w))) = nthHandle w 4 /\
  Pos.succ (Pos.succ (Pos.succ (Pos.succ (fresh w)))) = nthHandle w 5 /\
  Pos.succ (Pos.succ (Pos.succ (Pos.succ (Pos.succ (fresh w))))) = nthHandle w 6 /\
  Pos.succ (Pos.succ (Pos.succ (Pos.succ (Pos.succ (Pos.succ (fresh w))))))
  = nthHandle w 7.
Proof. unfold nthHandle. repeat split; lia. Qed.

Lemma fresh_with_fresh (w : World) (h : Handle) : fresh (with_fresh w h) = h.
Proof. reflexivity. Qed.

Lemma fresh_ticked (w : World) (c : Call) : fresh (ticked w c) = fresh w.
Proof. reflexivity. Qed.

Lemma fresh_logged (w : World) (c : Call) : fresh (logged w c) = fresh w.
Proof. reflexivity. Qed.

Ltac norm_fresh := rewrite ?fresh_with_fresh, ?fresh_ticked, ?fresh_logged.

Lemma Init_body_quiet (d : Driver) (w : World) (width height : Z) :
  quiet w -> baked w = Some (width, height) ->
  exists w',
    Init_body d w = (Val (initialized d w, None, None), w') /\
    log w' = log w ++ initCalls d w width height /\
    fresh w' = (fresh w + 11)%positive /\ rend w' = rend w /\ quiet w'.
Proof.
  intros Hq Hb. unfold Init_body.
  erewrite bind_val; [|apply fallible_quiet; exact Hq]. cbv beta iota.
  erewrite bind_val; [|apply create_quiet; auto with quiet]. cbv beta iota. norm_fresh.
  erewrite bind_val; [|apply create_quiet; auto with quiet]. cbv beta iota. norm_fresh.
  cbn [renderer window set_renderer set_window set_sdl].
  unfold GetInfo, on.
  erewrite bind_val;
    [|erewrite bind_val; [|apply fallible_quiet; auto 10 with quiet];
      cbv beta iota; erewrite bind_val; [|reflexivity]; reflexivity].
  cbv beta iota.
  erewrite bind_val; [|reflexivity]. cbv beta iota.
  cbn [name rend version ticked with_fresh with_log].
  match goal with |- context [if String.eqb _ "metal" then _ else ?dd] =>
    set (d2 := dd) end.
  match goal with |- context [if String.eqb ?n "metal" then ?a else d2] =>
    set (d3 := if String.eqb n "metal" then a else d2) end.
  assert (Hd3 : d3 = set_clampClipRect d2 (if needsClamp w then true else clampClipRect d)).
  { subst d3. unfold needsClamp. destruct (String.eqb (name (rend w)) "metal"); cbn [andb].
    - destruct (version w) as [[major minor] patch].
      destruct (sdl.VERSIONNUM major minor patch <? sdl.VERSIONNUM 2 0 22); reflexivity.
    - reflexivity. }
  clearbody d3. subst d3.
  match goal with |- context [bind _ _ ?ww] => set (w4 := ww) end.
  assert (Hq4 : quiet w4) by (subst w4; intros n Hn; cbn in Hn |- *; apply Hq; lia).
  assert (Hf4 : fresh w4 = Pos.succ (Pos.succ (fresh w))) by reflexivity.
  assert (Hl4 : log w4 = log w ++ [ InitSDL; CreateWindow; CreateRenderer (Some (fresh w));
                                    RendererGetInfo (Pos.succ (fresh w)) ])
    by (subst w4; cbn; rewrite <- !app_assoc; reflexivity).
  assert (Hr4 : rend w4 = rend w) by reflexivity.
  assert (Hb4 : baked w4 = Some (width, height)) by exact Hb.
  clearbody w4.
  erewrite bind_val; [|apply create_quiet; auto with quiet]. cbv beta iota. norm_fresh.
  erewrite bind_val; [|apply create_quiet; auto 10 with quiet]. cbv beta iota. norm_fresh.
  cbn [atlas set_atlas set_context set_nk].
  erewrite bind_val; [|apply create_quiet; auto 10 with quiet]. cbv beta iota. norm_fresh.
  cbn [atlas set_font set_nk].
  erewrite bind_val; [|apply create_quiet; auto 10 with quiet]. cbv beta iota. norm_fresh.
  rewrite Hf4.
  match goal with |- context [bind (bakeFont ?dd) _ ?ww] =>
    destruct (bakeFont_quiet dd
                (Pos.succ (Pos.succ (Pos.succ (fresh w))))
                (Pos.succ (fresh w))
                (Pos.succ (Pos.succ (Pos.succ (Pos.succ (fresh w)))))
                ww width height)
      as (w9 & Hrun & Hl9 & Hf9 & Hq9 & Hr9 & _);
      [reflexivity|reflexivity|reflexivity|auto 30 with quiet|exact Hb4|]
  end.
  erewrite bind_val; [|exact Hrun]. cbv beta iota.
  revert Hl9 Hf9 Hr9. norm_fresh. rewrite ?Hf4. cbn [log ticked with_fresh with_log rend].
  cbn [atlas uiScale set_atlas set_context set_font set_largeFont set_nk
       set_clampClipRect set_opts].
  rewrite Hl4, Hr4. intros Hl9 Hf9 Hr9. clear Hrun.
  cbn [largeFont set_largeFont set_null set_nk set_fontTex set_sdl on null fontTex
       window renderer context atlas font set_clampClipRect set_opts].
  erewrite bind_val; [|apply effect_run]. cbv beta iota.
  erewrite bind_val; [|apply effect_run]. cbv beta iota.
  erewrite bind_val; [|reflexivity]. cbv beta iota. norm_fresh.
  erewrite bind_val; [|apply effect_run]. cbv beta iota.
  erewrite bind_val; [|reflexivity]. cbv beta iota. norm_fresh.
  erewrite bind_val; [|apply effect_run]. cbv beta iota.
  erewrite bind_val; [|reflexivity]. cbv beta iota. norm_fresh.
  erewrite bind_val; [|apply effect_run]. cbv beta iota.
  erewrite bind_val; [|reflexivity]. cbv beta iota. norm_fresh.
  rewrite Hf9.
  eexists. split; [|split; [|split; [|split]]].
  - unfold ret. f_equal. f_equal. f_equal.
    unfold initialized, nthHandle, set_buffers. cbn.
    f_equal. f_equal; try (f_equal; lia).
  - cbn. rewrite Hl9. unfold initCalls.
    destruct (nthHandle_succ w) as (H2 & H3 & H4 & H5 & H6 & H7).
    rewrite <- ?H2, <- ?H4, <- ?H5, <- ?H6, <- ?H7.
    cbn. rewrite <- !app_assoc. reflexivity.
  - cbn. lia.
  - cbn. exact Hr9.
  - auto 30 with quiet.
Qed.

(** ** PreRender *)

Lemma pollEvents_cons (d : Driver) (c : Handle) (e : sdl.Event)
    (rest : list sdl.Event) (alive : bool) (w : World) :
  context d = Some c ->
  pollEvents d (e :: rest) alive w =
    match verdict d e with
    | None => pollEvents d rest alive (polled d c e rest w)
    | Some Go.ErrQuit => pollEvents d rest false (polled d c e rest w)
    | Some err =>
        (Val (alive, Some (Go.ErrWrap "passing event to event listener" err)),
         polled d c e rest w)
    end.
Proof.
  intros Hc. cbn [pollEvents]. rewrite Hc.
  erewrite bind_val; [|reflexivity]. cbv beta.
  erewrite bind_val; [|apply effect_run]. cbv beta.
  unfold verdict, polled, translate.
  destruct (HandleEvent (eventHandler d) e) as [calls [ty used]] eqn:Hev.
  erewrite bind_val; [|apply emit_run]. cbv beta.
  assert (Hw : with_log (logged (with_events w rest) (PollEvent e))
                 (ticks (logged (with_events w rest) (PollEvent e)))
                 (log (logged (with_events w rest) (PollEvent e))
                    ++ (ContextInput c <$> calls))
               = with_log (with_events w rest) (ticks w)
                   (log w ++ PollEvent e :: (ContextInput c <$> fst (calls, (ty, used))))).
  { cbn. rewrite <- app_assoc. reflexivity. }
  rewrite Hw. clear Hw.
  destruct (eventListener d) as [listener|].
  - destruct (listener e ty used) as [[]|]; reflexivity.
  - destruct (decide (ty = EventTypeQuit)); reflexivity.
Qed.

(** A queue of events none of which ends the loop with an error: all of
    them are handled. *)
Lemma pollEvents_passes (d : Driver) (c : Handle) (queue : list sdl.Event) :
  context d = Some c ->
  forallb (passes d) queue = true ->
  forall (alive : bool) (w : World),
  exists w',
    pollEvents d queue alive w =
      (Val (alive && negb (existsb (quits d) queue), None), w') /\
    log w' = log w ++ (queue ≫= translate (eventHandler d) c) /\
    events w' = match queue with [] => events w | _ => [] end /\
    outcome w' = outcome w /\ ticks w' = ticks w /\ rend w' = rend w.
Proof.
  intros Hc. induction queue as [|e rest IH]; intros Hp alive w.
  - exists w. cbn. rewrite andb_true_r, app_nil_r. auto 10.
  - cbn [forallb] in Hp. apply andb_prop in Hp as [He Hrest].
    rewrite (pollEvents_cons d c) by done. cbn [existsb].
    unfold passes in He. unfold quits at 1.
    destruct (verdict d e) as [[]|]; try discriminate He.
    + destruct (IH Hrest false (polled d c e rest w))
        as (w' & Hrun & Hlog & Hevs & Hout & Ht & Hr).
      exists w'. rewrite Hrun. cbn [orb negb]. rewrite andb_false_r.
      split; [reflexivity|]. rewrite Hlog, Hevs, Hout, Ht, Hr.
      cbn. rewrite <- app_assoc. repeat split. by destruct rest.
    + destruct (IH Hrest alive (polled d c e rest w))
        as (w' & Hrun & Hlog & Hevs & Hout & Ht & Hr).
      exists w'. rewrite Hrun. cbn [orb].
      split; [reflexivity|]. rewrite Hlog, Hevs, Hout, Ht, Hr.
      cbn. rewrite <- app_assoc. repeat split. by destruct rest.
Qed.

(** The listener answers the event [e] with an error: the loop ends
    there, the events behind [e] stay pending. *)
Lemma pollEvents_error (d : Driver) (c : Handle) (pre post : list sdl.Event)
    (e : sdl.Event) (err : Go.error) :
  context d = Some c ->
  forallb (passes d) pre = true ->
  verdict d e = Some err -> err <> Go.ErrQuit ->
  forall (alive : bool) (w : World),
  exists alive' w',
    pollEvents d (pre ++ e :: post) alive w =
      (Val (alive', Some (Go.ErrWrap "passing event to event listener" err)), w') /\
    log w' = log w ++ ((pre ++ [e]) ≫= translate (eventHandler d) c) /\
    events w' = post /\
    outcome w' = outcome w /\ ticks w' = ticks w /\ rend w' = rend w.
Proof.
  intros Hc Hp He Hne. induction pre as [|x pre IH]; intros alive w.
  - cbn [app]. rewrite (pollEvents_cons d c) by done. rewrite He.
    exists alive, (polled d c e post w).
    split; [by destruct err|]. cbn. rewrite app_nil_r. auto 10.
  - cbn [forallb] in Hp. apply andb_prop in Hp as [Hx Hpre].
    cbn [app]. rewrite (pollEvents_cons d c) by done.
    unfold passes in Hx.
    destruct (verdict d x) as [[]|]; try discriminate Hx;
      match goal with |- context [pollEvents d _ ?a ?w1] =>
        destruct (IH Hpre a w1) as (alive' & w' & Hrun & Hlog & Hevs & Hout & Ht & Hr)
      end;
      exists alive', w'; (split; [exact Hrun|]);
      rewrite Hlog, Hevs, Hout, Ht, Hr; cbn; rewrite <- app_assoc; auto 10.
Qed.

Lemma GetDrawColor_run (r : Handle) (w : World) :
  GetDrawColor (Some r) w =
    (Val (drawColor (rend w), outcome w (ticks w)), ticked w (RendererGetDrawColor r)).
Proof. reflexivity. Qed.

Lemma SetDrawColor_run (r : Handle) (c : sdl.Color) (w : World) :
  SetDrawColor (Some r) c w =
    match outcome w (ticks w) with
    | Some e => (Val (Some e), ticked w (RendererSetDrawColor r c))
    | None => (Val None, with_rend (ticked w (RendererSetDrawColor r c))
                           (set_drawColor (rend w) c))
    end.
Proof.
  unfold SetDrawColor, on. unfold bind at 1. rewrite fallible_run.
  destruct (outcome w (ticks w)); reflexivity.
Qed.

Lemma set_drawColor_back (r : Renderer) (c : sdl.Color) :
  set_drawColor (set_drawColor r c) (drawColor r) = r.
Proof. by destruct r. Qed.

Lemma deferring_val {A : Type} (body : M A) (after : A -> M A) (unwinding : M unit)
    (w w' : World) (a : A) :
  body w = (Val a, w') -> deferring body after unwinding w = after a w'.
Proof. intros H. unfold deferring. by rewrite H. Qed.

Lemma deferring_panic {A : Type} (body : M A) (after : A -> M A) (unwinding : M unit)
    (w w' : World) :
  body w = (Panic, w') ->
  deferring body after unwinding w = (Panic, snd (unwinding w')).
Proof. intros H. unfold deferring. by rewrite H. Qed.

(** X9: a frame starts. When no pending event makes the loop conclude
    anything (no listener and no quit event, or a listener that lets
    every event pass, quit events too) and no call fails, [PreRender]
    returns no error. It clears the context and opens the input
    session, polls and translates every pending event, closes the
    session, reads the draw colour, sets the background colour, clears
    the renderer, selects the large font when the scale is above 1.5
    and the normal font otherwise, puts the draw colour back and closes
    the input session once more. The renderer is left as it was. *)
Theorem PreRender_clears (d : Driver) (w : World) (c r f : Handle) :
  context d = Some c -> renderer d = Some r -> frameFont d = Some f ->
  Forall (fun e => verdict d e = None) (events w) ->
  quiet w ->
  exists w',
    PreRender d w = (Val None, w') /\
    events w' = [] /\
    log w' = log w
      ++ [ContextClear c; ContextInputBegin c]
      ++ (events w ≫= translate (eventHandler d) c)
      ++ [ ContextInputEnd c; RendererGetDrawColor r;
           RendererSetDrawColor r (bgColor d); RendererClear r;
           ContextStyleSetFont c f;
           RendererSetDrawColor r (drawColor (rend w)); ContextInputEnd c ] /\
    rend w' = rend w.
Proof.
  intros Hc Hr Hf Hev Hq.
  assert (Hfont : (if F32.ltb F32.one_and_half (uiScale d)
                   then StyleSetFont d (largeFont d) else StyleSetFont d (font d))
                  = StyleSetFont d (Some f)).
  { unfold frameFont in Hf. destruct (F32.ltb _ _); by rewrite Hf. }
  unfold PreRender, InputEnd. rewrite Hc, Hr. unfold on at 1 2.
  erewrite bind_val; [|apply effect_run]. cbv beta.
  erewrite bind_val; [|apply effect_run]. cbv beta.
  assert (Hp : forallb (passes d) (events w) = true).
  { apply forallb_forall. intros e He. rewrite Forall_forall in Hev.
    unfold passes. rewrite (Hev e); [done|]. by apply list_elem_of_In. }
  assert (Hnq : existsb (quits d) (events w) = false).
  { apply not_true_is_false. intros H. apply existsb_exists in H as (e & He & Hqe).
    rewrite Forall_forall in Hev. unfold quits in Hqe.
    rewrite (Hev e) in Hqe; [done|]. by apply list_elem_of_In. }
  match goal with |- context [deferring _ _ _ ?w1] =>
    destruct (pollEvents_passes d c (events w) Hc Hp true w1)
      as (w2 & Hrun & Hlog & Hevs & Hout & Ht & Hrend) end.
  cbn [events logged with_log log outcome ticks rend] in Hrun, Hevs, Hlog, Hout, Ht, Hrend.
  assert (Hq2 : quiet w2).
  { intros n Hn. rewrite Hout. apply Hq. lia. }
  erewrite deferring_val.
  2:{ erewrite bind_val; [|reflexivity]. cbv beta.
      cbn [events logged with_log].
      erewrite bind_val; [|exact Hrun]. cbv beta iota. rewrite Hnq. cbn [negb andb].
      unfold on at 1.
      erewrite bind_val; [|apply effect_run]. cbv beta iota.
      erewrite bind_val;
        [|rewrite GetDrawColor_run, quiet_now by auto with quiet; reflexivity].
      cbv beta iota.
      erewrite deferring_val.
      2:{ erewrite bind_val;
            [|rewrite SetDrawColor_run, quiet_now by auto with quiet; reflexivity].
          cbv beta iota. unfold on at 1.
          erewrite bind_val; [|apply fallible_quiet; auto 10 with quiet]. cbv beta iota.
          rewrite Hfont. unfold StyleSetFont, on. rewrite Hc.
          erewrite bind_val; [|apply effect_run]. cbv beta iota.
          reflexivity. }
      cbv beta iota.
      erewrite bind_val;
        [|rewrite SetDrawColor_run, quiet_now by auto 20 with quiet; reflexivity].
      cbv beta iota. reflexivity. }
  cbv beta iota. unfold on.
  erewrite bind_val; [|apply effect_run]. cbv beta iota.
  eexists. split; [reflexivity|]. cbn. rewrite Hrend, Hlog. split; [|split].
  - rewrite Hevs. by destruct (events w).
  - rewrite <- !app_assoc. reflexivity.
  - by destruct (rend w).
Qed.

(** X10: when the loop concludes from some pending event that the
    application is to quit (a quit event without a listener, or a
    listener that answers [ErrQuit]) and the listener answers no other
    error, [PreRender] polls and translates every pending event, closes
    the input session twice and returns [ErrQuit]; it does not touch
    the renderer. *)
Theorem PreRender_quits (d : Driver) (w : World) (c : Handle) :
  context d = Some c ->
  forallb (passes d) (events w) = true ->
  existsb (quits d) (events w) = true ->
  exists w',
    PreRender d w = (Val (Some Go.ErrQuit), w') /\
    events w' = [] /\
    log w' = log w
      ++ [ContextClear c; ContextInputBegin c]
      ++ (events w ≫= translate (eventHandler d) c)
      ++ [ContextInputEnd c; ContextInputEnd c] /\
    rend w' = rend w.
Proof.
  intros Hc Hp Hqt. unfold PreRender, InputEnd. rewrite Hc. unfold on at 1 2.
  erewrite bind_val; [|apply effect_run]. cbv beta.
  erewrite bind_val; [|apply effect_run]. cbv beta.
  match goal with |- context [deferring _ _ _ ?w1] =>
    destruct (pollEvents_passes d c (events w) Hc Hp true w1)
      as (w2 & Hrun & Hlog & Hevs & Hout & Ht & Hrend) end.
  cbn [events logged with_log log outcome ticks rend] in Hrun, Hevs, Hlog, Hout, Ht, Hrend.
  erewrite deferring_val.
  2:{ erewrite bind_val; [|reflexivity]. cbv beta.
      cbn [events logged with_log].
      erewrite bind_val; [|exact Hrun]. cbv beta iota. rewrite Hqt. cbn [negb andb].
      unfold on at 1.
      erewrite bind_val; [|apply effect_run]. cbv beta iota. reflexivity. }
  cbv beta iota. unfold on.
  erewrite bind_val; [|apply effect_run]. cbv beta iota.
  eexists. split; [reflexivity|]. cbn. rewrite Hrend, Hlog. split; [|split].
  - rewrite Hevs. destruct (events w); [discriminate Hqt|reflexivity].
  - rewrite <- !app_assoc. reflexivity.
  - reflexivity.
Qed.

(** X11: when the listener answers an event with an error other than
    [ErrQuit], [PreRender] returns that error, wrapped, at once: the
    events behind that one stay pending, the input session is closed
    once, by the deferred call, and the renderer is not touched. *)
Theorem PreRender_listener_error (d : Driver) (w : World) (c : Handle)
    (pre post : list sdl.Event) (e : sdl.Event) (err : Go.error) :
  context d = Some c ->
  events w = pre ++ e :: post ->
  forallb (passes d) pre = true ->
  verdict d e = Some err -> err <> Go.ErrQuit ->
  exists w',
    PreRender d w
    = (Val (Some (Go.ErrWrap "passing event to event listener" err)), w') /\
    events w' = post /\
    log w' = log w
      ++ [ContextClear c; ContextInputBegin c]
      ++ ((pre ++ [e]) ≫= translate (eventHandler d) c)
      ++ [ContextInputEnd c] /\
    rend w' = rend w.
Proof.
  intros Hc Hq Hp He Hne. unfold PreRender, InputEnd. rewrite Hc. unfold on at 1 2.
  erewrite bind_val; [|apply effect_run]. cbv beta.
  erewrite bind_val; [|apply effect_run]. cbv beta.
  match goal with |- context [deferring _ _ _ ?w1] =>
    destruct (pollEvents_error d c pre post e err Hc Hp He Hne true w1)
      as (alive' & w2 & Hrun & Hlog & Hevs & Hout & Ht & Hrend) end.
  cbn [events logged with_log log outcome ticks rend] in Hrun, Hevs, Hlog, Hout, Ht, Hrend.
  erewrite deferring_val.
  2:{ erewrite bind_val; [|reflexivity]. cbv beta.
      cbn [events logged with_log]. rewrite Hq.
      erewrite bind_val; [|exact Hrun]. cbv beta iota. reflexivity. }
  cbv beta iota. unfold on.
  erewrite bind_val; [|apply effect_run]. cbv beta iota.
  eexists. split; [reflexivity|]. cbn. rewrite Hrend, Hlog, Hevs. split; [|split].
  - reflexivity.
  - rewrite <- !app_assoc. reflexivity.
  - reflexivity.
Qed.

(** X12: when the frame starts well but the draw colour cannot be put
    back, [PreRender] returns an error that wraps no cause: the error
    of the renderer is lost. The renderer keeps the background colour
    as its draw colour. *)
Theorem PreRender_restore_failure (d : Driver) (w : World) (c r f : Handle)
    (e : Go.error) :
  context d = Some c -> renderer d = Some r -> frameFont d = Some f ->
  Forall (fun e => verdict d e = None) (events w) ->
  outcome w (ticks w) = None ->
  outcome w (S (ticks w)) = None ->
  outcome w (S (S (ticks w))) = None ->
  outcome w (S (S (S (ticks w)))) = Some e ->
  exists w',
    PreRender d w
    = (Val (Some (Go.ErrWrapNil "restoring renderer draw color")), w') /\
    drawColor (rend w') = bgColor d /\
    log w' = log w
      ++ [ContextClear c; ContextInputBegin c]
      ++ (events w ≫= translate (eventHandler d) c)
      ++ [ ContextInputEnd c; RendererGetDrawColor r;
           RendererSetDrawColor r (bgColor d); RendererClear r;
           ContextStyleSetFont c f;
           RendererSetDrawColor r (drawColor (rend w)); ContextInputEnd c ].
Proof.
  intros Hc Hr Hf Hev H0 H1 H2 H3.
  assert (Hfont : (if F32.ltb F32.one_and_half (uiScale d)
                   then StyleSetFont d (largeFont d) else StyleSetFont d (font d))
                  = StyleSetFont d (Some f)).
  { unfold frameFont in Hf. destruct (F32.ltb _ _); by rewrite Hf. }
  unfold PreRender, InputEnd. rewrite Hc, Hr. unfold on at 1 2.
  erewrite bind_val; [|apply effect_run]. cbv beta.
  erewrite bind_val; [|apply effect_run]. cbv beta.
  assert (Hp : forallb (passes d) (events w) = true).
  { apply forallb_forall. intros x Hx. rewrite Forall_forall in Hev.
    unfold passes. rewrite (Hev x); [done|]. by apply list_elem_of_In. }
  assert (Hnq : existsb (quits d) (events w) = false).
  { apply not_true_is_false. intros H. apply existsb_exists in H as (x & Hx & Hqx).
    rewrite Forall_forall in Hev. unfold quits in Hqx.
    rewrite (Hev x) in Hqx; [done|]. by apply list_elem_of_In. }
  match goal with |- context [deferring _ _ _ ?w1] =>
    destruct (pollEvents_passes d c (events w) Hc Hp true w1)
      as (w2 & Hrun & Hlog & Hevs & Hout & Ht & Hrend) end.
  cbn [events logged with_log log outcome ticks rend] in Hrun, Hevs, Hlog, Hout, Ht, Hrend.
  erewrite deferring_val.
  2:{ erewrite bind_val; [|reflexivity]. cbv beta.
      cbn [events logged with_log].
      erewrite bind_val; [|exact Hrun]. cbv beta iota. rewrite Hnq. cbn [negb andb].
      unfold on at 1.
      erewrite bind_val; [|apply effect_run]. cbv beta iota.
      erewrite bind_val;
        [|rewrite GetDrawColor_run; cbn [outcome ticks logged with_log];
          rewrite Hout, Ht, H0; reflexivity].
      cbv beta iota.
      erewrite deferring_val.
      2:{ erewrite bind_val;
            [|rewrite SetDrawColor_run; cbn [outcome ticks logged ticked with_log];
              rewrite Hout, Ht, H1; reflexivity].
          cbv beta iota. unfold on at 1.
          erewrite bind_val;
            [|rewrite fallible_run;
              cbn [outcome ticks logged ticked with_log with_rend];
              rewrite Hout, Ht, H2; reflexivity].
          cbv beta iota.
          rewrite Hfont. unfold StyleSetFont, on. rewrite Hc.
          erewrite bind_val; [|apply effect_run]. cbv beta iota.
          reflexivity. }
      cbv beta iota.
      erewrite bind_val;
        [|rewrite SetDrawColor_run;
          cbn [outcome ticks logged ticked with_log with_rend];
          rewrite Hout, Ht, H3; reflexivity].
      cbv beta iota. reflexivity. }
  cbv beta iota. unfold on.
  erewrite bind_val; [|apply effect_run]. cbv beta iota.
  eexists. split; [reflexivity|]. cbn. rewrite Hrend, Hlog. split.
  - reflexivity.
  - rewrite <- !app_assoc. reflexivity.
Qed.

Lemma PreRender_clears_witness :
  let d := ready default_handler (Some idle_listener) false in
  let w := metal_world no_failure [sdl.MouseMotionEvent 1 2; sdl.QuitEvent; home_key] in
  context d = Some 3%positive /\ renderer d = Some 2%positive /\
  frameFont d = Some 5%positive /\
  Forall (fun e => verdict d e = None) (events w) /\ quiet w /\
  exists w',
    PreRender d w = (Val None, w') /\
    events w' = [] /\
    log w' = log w
      ++ [ContextClear 3%positive; ContextInputBegin 3%positive]
      ++ (events w ≫= translate (eventHandler d) 3%positive)
      ++ [ ContextInputEnd 3%positive; RendererGetDrawColor 2%positive;
           RendererSetDrawColor 2%positive (bgColor d); RendererClear 2%positive;
           ContextStyleSetFont 3%positive 5%positive;
           RendererSetDrawColor 2%positive (drawColor (rend w));
           ContextInputEnd 3%positive ] /\
    rend w' = rend w.
Proof.
  intros d w.
  assert (Hf : frameFont d = Some 5%positive) by (vm_compute; reflexivity).
  assert (Hev : Forall (fun e => verdict d e = None) (events w))
    by (repeat constructor).
  assert (Hq : quiet w) by (intros n _; reflexivity).
  split; [reflexivity|]. split; [reflexivity|]. split; [exact Hf|].
  split; [exact Hev|]. split; [exact Hq|].
  exact (PreRender_clears d w 3%positive 2%positive 5%positive eq_refl eq_refl Hf Hev Hq).
Defined.

Lemma PreRender_quits_witness :
  let d := ready default_handler (Some quit_on_key) false in
  let w := metal_world no_failure [sdl.MouseMotionEvent 1 2; home_key;
                                   sdl.MouseMotionEvent 3 4] in
  context d = Some 3%positive /\
  forallb (passes d) (events w) = true /\
  existsb (quits d) (events w) = true /\
  exists w',
    PreRender d w = (Val (Some Go.ErrQuit), w') /\
    events w' = [] /\
    log w' = log w
      ++ [ContextClear 3%positive; ContextInputBegin 3%positive]
      ++ (events w ≫= translate (eventHandler d) 3%positive)
      ++ [ContextInputEnd 3%positive; ContextInputEnd 3%positive] /\
    rend w' = rend w.
Proof.
  intros d w.
  assert (Hp : forallb (passes d) (events w) = true) by (vm_compute; reflexivity).
  assert (Hqt : existsb (quits d) (events w) = true) by (vm_compute; reflexivity).
  split; [reflexivity|]. split; [exact Hp|]. split; [exact Hqt|].
  exact (PreRender_quits d w 3%positive eq_refl Hp Hqt).
Defined.

Lemma PreRender_listener_error_witness :
  let d := ready default_handler (Some fail_on_scroll) false in
  let scroll := sdl.MouseWheelEvent F32.zero F32.one in
  let w := metal_world no_failure [sdl.MouseMotionEvent 1 2; scroll; home_key] in
  context d = Some 3%positive /\
  events w = [sdl.MouseMotionEvent 1 2] ++ scroll :: [home_key] /\
  forallb (passes d) [sdl.MouseMotionEvent 1 2] = true /\
  verdict d scroll = Some boom /\ boom <> Go.ErrQuit /\
  exists w',
    PreRender d w
    = (Val (Some (Go.ErrWrap "passing event to event listener" boom)), w') /\
    events w' = [home_key] /\
    log w' = log w
      ++ [ContextClear 3%positive; ContextInputBegin 3%positive]
      ++ (([sdl.MouseMotionEvent 1 2] ++ [scroll])
            ≫= translate (eventHandler d) 3%positive)
      ++ [ContextInputEnd 3%positive] /\
    rend w' = rend w.
Proof.
  intros d scroll w.
  assert (Hp : forallb (passes d) [sdl.MouseMotionEvent 1 2] = true)
    by (vm_compute; reflexivity).
  assert (Hv : verdict d scroll = Some boom) by (vm_compute; reflexivity).
  assert (Hne : boom <> Go.ErrQuit) by discriminate.
  split; [reflexivity|]. split; [reflexivity|]. split; [exact Hp|].
  split; [exact Hv|]. split; [exact Hne|].
  exact (PreRender_listener_error d w 3%positive [sdl.MouseMotionEvent 1 2] [home_key]
           scroll boom eq_refl eq_refl Hp Hv Hne).
Defined.

Lemma PreRender_restore_failure_witness :
  let d := ready default_handler None false in
  let w := metal_world (failing_at 3 boom) [sdl.MouseMotionEvent 1 2] in
  context d = Some 3%positive /\ renderer d = Some 2%positive /\
  frameFont d = Some 5%positive /\
  Forall (fun e => verdict d e = None) (events w) /\
  outcome w 3%nat = Some boom /\
  exists w',
    PreRender d w
    = (Val (Some (Go.ErrWrapNil "restoring renderer draw color")), w') /\
    drawColor (rend w') = bgColor d /\
    log w' = log w
      ++ [ContextClear 3%positive; ContextInputBegin 3%positive]
      ++ (events w ≫= translate (eventHandler d) 3%positive)
      ++ [ ContextInputEnd 3%positive; RendererGetDrawColor 2%positive;
           RendererSetDrawColor 2%positive (bgColor d); RendererClear 2%positive;
           ContextStyleSetFont 3%positive 5%positive;
           RendererSetDrawColor 2%positive (drawColor (rend w));
           ContextInputEnd 3%positive ].
Proof.
  intros d w.
  assert (Hf : frameFont d = Some 5%positive) by (vm_compute; reflexivity).
  assert (Hev : Forall (fun e => verdict d e = None) (events w))
    by (repeat constructor).
  split; [reflexivity|]. split; [reflexivity|]. split; [exact Hf|].
  split; [exact Hev|]. split; [reflexivity|].
  exact (PreRender_restore_failure d w 3%positive 2%positive 5%positive boom
           eq_refl eq_refl Hf Hev eq_refl eq_refl eq_refl eq_refl).
Defined.

(** ** PostRender: the ways it fails *)

Lemma drawTicks_cons (cmd : nk.DrawCommand) (cmds : list nk.DrawCommand) :
  drawTicks (cmd :: cmds)
  = ((if draws cmd then 2 else 0) + drawTicks cmds)%nat.
Proof. unfold drawTicks. cbn. destruct (draws cmd); cbn; lia. Qed.

(** The draw commands [pre] are drawn without a failure; the iteration
    goes on with the commands behind them. *)
Lemma DrawForEach_prefix (d : Driver) (r : Handle) (viewport : sdl.Rect)
    (verts : Go.slice) (pre rest : list nk.DrawCommand) :
  renderer d = Some r ->
  Forall (fun c => 0 <= nk.ElemCount c) pre ->
  forall (indices : Go.slice) (w : World),
  totalElems pre <= Go.s_len indices ->
  Go.s_len indices <= Go.s_cap indices ->
  quiet_until w (ticks w + drawTicks pre) ->
  exists w',
    DrawForEach d viewport verts (pre ++ rest) indices None w
    = DrawForEach d viewport verts rest (advance indices (totalElems pre)) None w' /\
    log w' = log w ++ drawCalls d r viewport (Go.s_len verts) pre (Go.s_off indices) /\
    outcome w' = outcome w /\ ticks w' = (ticks w + drawTicks pre)%nat /\
    set_clip (rend w') None = set_clip (rend w) None.
Proof.
  intros Hr Hnn. induction Hnn as [|cmd pre Hcmd Hpre IH]; intros indices w Hfit Hcap Hq.
  - exists w. cbn. rewrite app_nil_r. unfold advance, drawTicks. cbn.
    rewrite !Z.add_0_r, !Z.sub_0_r, Nat.add_0_r. by destruct indices.
  - cbn [totalElems foldr] in Hfit. fold (totalElems pre) in Hfit.
    pose proof (totalElems_nonneg pre Hpre) as Hnn.
    rewrite drawTicks_cons in Hq. cbn [app DrawForEach].
    destruct (Z.eq_dec (nk.ElemCount cmd) 0) as [Hz|Hnz].
    + erewrite bind_val; [|by apply drawCommand_empty]. cbv beta iota.
      assert (Hd : draws cmd = false) by (unfold draws; by rewrite Hz).
      rewrite Hd in Hq. cbv iota in Hq. rewrite Nat.add_0_l in Hq.
      destruct (IH indices w) as (w' & Hrun & Hlog & Hout & Ht & Hrend);
        [lia|done|done|].
      exists w'. rewrite Hrun. cbn [totalElems foldr drawCalls]. fold (totalElems pre).
      rewrite Hz, Z.add_0_l. cbn [Z.eqb]. rewrite drawTicks_cons, Hd. cbv iota.
      rewrite Nat.add_0_l. auto.
    + assert (Hd : draws cmd = true).
      { unfold draws. by apply negb_true_iff, Z.eqb_neq. }
      rewrite Hd in Hq. cbv iota in Hq.
      erewrite bind_val.
      2:{ apply (drawCommand_draws d r); try done; [lia|apply Hq; lia|apply Hq; lia]. }
      cbv beta iota.
      match goal with |- context [DrawForEach _ _ _ _ ?i None ?w1] =>
        destruct (IH i w1) as (w' & Hrun & Hlog & Hout & Ht & Hrend) end.
      * cbn. lia.
      * cbn. lia.
      * intros n Hn. unfold drawn in Hn |- *.
        cbn [ticks outcome ticked with_log with_rend] in Hn |- *. apply Hq. lia.
      * exists w'. rewrite Hrun. unfold drawn in Hlog, Hout, Ht, Hrend.
        cbn [ticks outcome log rend ticked with_log with_rend advance Go.s_off]
          in Hlog, Hout, Ht, Hrend.
        cbn [totalElems foldr drawCalls]. fold (totalElems pre).
        apply Z.eqb_neq in Hnz. rewrite Hnz, drawTicks_cons, Hd. cbv iota.
        split; [|split; [|split; [|split]]].
        -- f_equal. unfold advance. cbn. f_equal; lia.
        -- rewrite Hlog. rewrite <- !app_assoc. reflexivity.
        -- exact Hout.
        -- lia.
        -- rewrite Hrend. by destruct (rend w).
Qed.

(** [PostRender_body] up to the draw commands, and what it makes of
    their outcome. *)
Lemma PostRender_body_draw (d : Driver) (w : World) (r c cb eb vb : Handle) :
  renderer d = Some r -> context d = Some c ->
  commands d = Some cb -> elements d = Some eb -> vertices d = Some vb ->
  outcome w (ticks w) = None ->
  let run := DrawForEach d (viewport (rend w))
               (reinterpretSlice (Memory (gui_vertices w) (vertices_spare w)) vertexSize)
               (gui_commands w)
               (reinterpretSlice (Memory (gui_elements w) (elements_spare w)) 4)
               None (converted c cb eb vb w) in
  (forall w1, run = (Panic, w1) -> PostRender_body d w = (Panic, w1)) /\
  (forall i e w1, run = (Val (i, Some e), w1) ->
     PostRender_body d w
     = (Val (Some (Go.ErrWrap "error in context.DrawForEach" e)), w1)).
Proof.
  intros Hr Hc Hcb Heb Hvb H0 run.
  assert (Hbody : PostRender_body d w =
    (let* (_, err) := DrawForEach d (viewport (rend w))
                (reinterpretSlice (Memory (gui_vertices w) (vertices_spare w)) vertexSize)
                (gui_commands w)
                (reinterpretSlice (Memory (gui_elements w) (elements_spare w)) 4) None in
     match err with
     | Some e => ret (Some (Go.ErrWrap "error in context.DrawForEach" e))
     | None =>
         let* err := SetClipRect (Some r) (Some (default zeroRect (clip (rend w)))) in
         match err with
         | Some e => ret (Some (Go.ErrWrap "restoring clip rect" e))
         | None =>
             let* _ := effect (RendererPresent r) in
             ret None
         end
     end) (converted c cb eb vb w)).
  { unfold PostRender_body.
    rewrite (clears_run d cb eb vb _ w Hcb Heb Hvb).
    rewrite Hc, Hr, Heb, Hvb, Hcb.
    erewrite bind_val;
      [|rewrite Convert_run; cbn [cleared outcome ticks with_mem with_log];
        rewrite H0; reflexivity].
    unfold GetClipRect, GetViewport, on.
    erewrite bind_val; [|reflexivity].
    erewrite bind_val; [|reflexivity].
    erewrite bind_val; [|reflexivity].
    erewrite bind_val; [|reflexivity].
    erewrite bind_val; [|reflexivity].
    reflexivity. }
  split.
  - intros w1 Hrun. rewrite Hbody. by apply bind_panic.
  - intros i e w1 Hrun. rewrite Hbody. erewrite bind_val; [|exact Hrun]. reflexivity.
Qed.

Lemma drawCommand_geometry_fails (d : Driver) (r : Handle) (viewport : sdl.Rect)
    (verts : Go.slice) (cmd : nk.DrawCommand) (indices : Go.slice)
    (err : option Go.error) (w : World) (e : Go.error) :
  renderer d = Some r ->
  nk.ElemCount cmd <> 0 ->
  0 <= nk.ElemCount cmd <= Go.s_cap indices ->
  outcome w (ticks w) = None ->
  outcome w (S (ticks w)) = Some e ->
  drawCommand d viewport verts cmd indices err w =
    (Val (indices, Some (Go.ErrWrap "rendering raw geometry" e), false),
     drawn d r viewport (Go.s_len verts) cmd (Go.s_off indices) w).
Proof.
  intros Hr Hne Hcount Hclip Hdraw.
  unfold drawCommand.
  rewrite (proj2 (Z.eqb_neq _ _) Hne), Hr.
  erewrite bind_val; [|rewrite SetClipRect_run, Hclip; reflexivity].
  unfold Go.slice_to.
  rewrite !(proj2 (Z.leb_le _ _)) by lia. cbn [andb on].
  erewrite bind_val; [|rewrite fallible_run; reflexivity].
  cbn [outcome ticks ticked with_log with_rend]. rewrite Hdraw.
  reflexivity.
Qed.

Lemma drawCommand_panics (d : Driver) (r : Handle) (viewport : sdl.Rect)
    (verts : Go.slice) (cmd : nk.DrawCommand) (indices : Go.slice)
    (err : option Go.error) (w : World) :
  renderer d = Some r ->
  nk.ElemCount cmd <> 0 ->
  Go.s_cap indices < nk.ElemCount cmd ->
  outcome w (ticks w) = None ->
  drawCommand d viewport verts cmd indices err w =
    (Panic,
     with_rend (ticked w (RendererSetClipRect r (Some (commandClipRect d viewport cmd))))
       (set_clip (rend w) (Some (commandClipRect d viewport cmd)))).
Proof.
  intros Hr Hne Hcount Hclip.
  unfold drawCommand.
  rewrite (proj2 (Z.eqb_neq _ _) Hne), Hr.
  erewrite bind_val; [|rewrite SetClipRect_run, Hclip; reflexivity].
  unfold Go.slice_to.
  rewrite (proj2 (Z.leb_gt (nk.ElemCount cmd) (Go.s_cap indices))) by lia.
  rewrite andb_false_r. reflexivity.
Qed.

Lemma drawCommand_overruns (d : Driver) (r : Handle) (viewport : sdl.Rect)
    (verts : Go.slice) (cmd : nk.DrawCommand) (indices : Go.slice)
    (err : option Go.error) (w : World) :
  renderer d = Some r ->
  nk.ElemCount cmd <> 0 ->
  0 <= nk.ElemCount cmd <= Go.s_cap indices ->
  Go.s_len indices < nk.ElemCount cmd ->
  outcome w (ticks w) = None ->
  outcome w (S (ticks w)) = None ->
  drawCommand d viewport verts cmd indices err w =
    (Panic, drawn d r viewport (Go.s_len verts) cmd (Go.s_off indices) w).
Proof.
  intros Hr Hne Hcap Hlen Hclip Hdraw.
  unfold drawCommand.
  rewrite (proj2 (Z.eqb_neq _ _) Hne), Hr.
  erewrite bind_val; [|rewrite SetClipRect_run, Hclip; reflexivity].
  unfold Go.slice_to.
  rewrite !(proj2 (Z.leb_le _ _)) by lia. cbn [andb on].
  erewrite bind_val; [|rewrite fallible_run; reflexivity].
  cbn [outcome ticks ticked with_log with_rend]. rewrite Hdraw.
  unfold Go.slice_from.
  rewrite (proj2 (Z.leb_gt (nk.ElemCount cmd) (Go.s_len indices))) by lia.
  rewrite andb_false_r. reflexivity.
Qed.

Lemma scale_back (r : Renderer) (s : float32 * float32) :
  set_scale (set_scale r s) (fst (scale r), snd (scale r)) = r.
Proof. by destruct r as [[? ?] ? ? ? ? ?]. Qed.

(** X13: when the renderer refuses the scale, [PostRender] returns that
    error, wrapped, and has made no other call: nothing is cleared,
    converted, drawn or presented, and no scale is put back. When the
    conversion fails, [PostRender] returns that error, wrapped, draws
    and presents nothing, and puts the scale back: the renderer is
    left as it was. *)
Theorem PostRender_early_failure (d : Driver) (w : World) (r c cb eb vb : Handle)
    (e : Go.error) :
  renderer d = Some r -> context d = Some c ->
  commands d = Some cb -> elements d = Some eb -> vertices d = Some vb ->
  (outcome w (ticks w) = Some e ->
   PostRender d w
   = (Val (Some (Go.ErrWrap "setting renderer scale" e)),
      ticked w (RendererSetScale r (uiScale d) (uiScale d)))) /\
  (outcome w (ticks w) = None -> outcome w (S (ticks w)) = Some e ->
   outcome w (S (S (ticks w))) = None ->
   exists w',
     PostRender d w
     = (Val (Some (Go.ErrWrap "converting render commands" e)), w') /\
     log w' = log w ++ convertCalls d r c cb eb vb
                ++ [RendererSetScale r (fst (scale (rend w))) (snd (scale (rend w)))] /\
     rend w' = rend w).
Proof.
  intros Hr Hc Hcb Heb Hvb. split.
  - intros H0. unfold PostRender, GetScale. rewrite Hr. unfold on at 1.
    erewrite bind_val; [|reflexivity]. cbv beta.
    destruct (scale (rend w)) as [sx sy]. cbv beta iota.
    erewrite bind_val; [|rewrite SetScale_run, H0; reflexivity].
    reflexivity.
  - intros H0 H1 H2. rewrite (PostRender_scaled d w r Hr H0).
    erewrite deferring_val.
    2:{ unfold PostRender_body.
        rewrite (clears_run d cb eb vb _ _ Hcb Heb Hvb). rewrite Hc.
        erewrite bind_val;
          [|rewrite Convert_run;
            cbn [cleared scaled outcome ticks with_mem with_log with_rend];
            rewrite H1; reflexivity].
        reflexivity. }
    unfold restoreScale. rewrite Hr.
    erewrite bind_val;
      [|rewrite SetScale_run;
        cbn [cleared scaled outcome ticks ticked with_mem with_log with_rend];
        rewrite H2; reflexivity].
    cbv beta iota. eexists. split; [reflexivity|]. cbn. split.
    + rewrite <- !app_assoc. reflexivity.
    + by destruct (rend w) as [[? ?] ? ? ? ? ?].
Qed.

(** X14: when the renderer refuses to draw a command, [PostRender]
    returns that error, wrapped twice. The commands before it are
    drawn, those behind it are not; the frame is not presented; the
    clip rectangle is left at the rectangle of the command that failed,
    not put back; the scale is put back. *)
Theorem PostRender_draw_failure (d : Driver) (w : World) (r c cb eb vb : Handle)
    (pre post : list nk.DrawCommand) (cmd : nk.DrawCommand) (e : Go.error) :
  renderer d = Some r -> context d = Some c ->
  commands d = Some cb -> elements d = Some eb -> vertices d = Some vb ->
  gui_commands w = pre ++ cmd :: post ->
  Forall (fun c => 0 <= nk.ElemCount c) pre ->
  0 < nk.ElemCount cmd ->
  totalElems pre + nk.ElemCount cmd <= Z.quot (gui_elements w) 4 ->
  quiet_until w (ticks w + 3 + drawTicks pre) ->
  outcome w (ticks w + 3 + drawTicks pre) = Some e ->
  outcome w (ticks w + 4 + drawTicks pre) = None ->
  let vp := viewport (rend w) in
  let nverts := Z.quot (gui_vertices w) vertexSize in
  exists w',
    PostRender d w
    = (Val (Some (Go.ErrWrap "error in context.DrawForEach"
                    (Go.ErrWrap "rendering raw geometry" e))), w') /\
    log w' = log w ++ convertCalls d r c cb eb vb
               ++ drawCalls d r vp nverts pre 0
               ++ [ RendererSetClipRect r (Some (commandClipRect d vp cmd));
                    RendererGeometry r (nk.Texture cmd) nverts (totalElems pre)
                      (nk.ElemCount cmd);
                    RendererSetScale r (fst (scale (rend w))) (snd (scale (rend w))) ] /\
    clip (rend w') = Some (commandClipRect d vp cmd) /\
    scale (rend w') = scale (rend w).
Proof.
  intros Hr Hc Hcb Heb Hvb Hcmds Hnn Hpos Hfit Hq He Hrestore vp nverts.
  pose proof (totalElems_nonneg pre Hnn) as Hpre.
  pose proof (Z.quot_le_mono (gui_elements w)
                (gui_elements w + Z.of_N (elements_spare w)) 4
                ltac:(lia) ltac:(lia)) as Hcap.
  assert (H0 : outcome w (ticks w) = None) by (apply Hq; lia).
  assert (H1 : outcome w (S (ticks w)) = None) by (apply Hq; lia).
  rewrite (PostRender_scaled d w r Hr H0).
  destruct (PostRender_body_draw d (scaled d r w) r c cb eb vb Hr Hc Hcb Heb Hvb H1)
    as [_ Herr].
  cbn [scaled rend viewport gui_commands gui_elements gui_vertices
       elements_spare vertices_spare with_rend with_log
       set_scale] in Herr.
  rewrite Hcmds in Herr.
  destruct (DrawForEach_prefix d r vp
              (reinterpretSlice (Memory (gui_vertices w) (vertices_spare w)) vertexSize)
              pre (cmd :: post) Hr Hnn
              (reinterpretSlice (Memory (gui_elements w) (elements_spare w)) 4)
              (converted c cb eb vb (scaled d r w)))
    as (w1 & Hrun & Hlog & Hout & Ht & Hrend).
  { cbn. lia. }
  { apply reinterpretSlice_Memory_cap. lia. }
  { intros n Hn. unfold converted, cleared, scaled in Hn |- *.
    cbn [ticks outcome ticked with_mem with_log with_rend] in Hn |- *. apply Hq. lia. }
  cbn [converted cleared scaled ticks outcome log rend ticked with_mem with_log with_rend
       reinterpretSlice Memory Go.s_len Go.s_off] in Hlog, Hout, Ht, Hrend.
  erewrite deferring_val.
  2:{ eapply Herr.
      fold vp.
      rewrite Hrun. cbn [DrawForEach].
      erewrite bind_val.
      2:{ apply (drawCommand_geometry_fails d r _ _ _ _ _ _ e Hr); [lia| | |].
          - cbn. lia.
          - rewrite Hout, Ht. apply Hq. lia.
          - rewrite Hout, Ht.
            replace (S (S (S (ticks w)) + drawTicks pre))
              with (ticks w + 3 + drawTicks pre)%nat by lia.
            exact He. }
      cbv beta iota. reflexivity. }
  unfold restoreScale. rewrite Hr.
  erewrite bind_val.
  2:{ rewrite SetScale_run. unfold drawn.
      cbn [outcome ticks ticked with_log with_rend]. rewrite Hout, Ht.
      replace (S (S (S (S (ticks w)) + drawTicks pre))) with (ticks w + 4 + drawTicks pre)%nat
        by lia.
      rewrite Hrestore. reflexivity. }
  cbv beta iota. eexists. split; [reflexivity|].
  unfold drawn.
  cbn [log rend clip scale ticked with_log with_rend set_scale set_clip advance
       reinterpretSlice Go.s_off Go.s_len].
  rewrite Hlog. split; [|split].
  - unfold convertCalls, nverts. rewrite Z.add_0_l. rewrite <- !app_assoc. reflexivity.
  - reflexivity.
  - by destruct (scale (rend w)).
Qed.

(** X15: when a command has more elements than the element buffer has
    left, [PostRender] panics with the slice out of range, after it has
    set the clip rectangle of that command. When the capacity of the
    buffer's memory still holds that many elements, the command is
    drawn first, from indices beyond the length of the buffer, and the
    panic is that of the cursor's advance; otherwise nothing is drawn
    for it. The deferred call puts the scale back while the panic
    unwinds; the clip rectangle is left at the rectangle of that
    command. *)
Theorem PostRender_short_indices (d : Driver) (w : World) (r c cb eb vb : Handle)
    (pre post : list nk.DrawCommand) (cmd : nk.DrawCommand) :
  renderer d = Some r -> context d = Some c ->
  commands d = Some cb -> elements d = Some eb -> vertices d = Some vb ->
  gui_commands w = pre ++ cmd :: post ->
  Forall (fun c => 0 <= nk.ElemCount c) pre ->
  totalElems pre <= Z.quot (gui_elements w) 4 ->
  Z.quot (gui_elements w) 4 - totalElems pre < nk.ElemCount cmd ->
  quiet w ->
  let vp := viewport (rend w) in
  let nverts := Z.quot (gui_vertices w) vertexSize in
  let room := Z.quot (gui_elements w + Z.of_N (elements_spare w)) 4 in
  exists w',
    PostRender d w = (Panic, w') /\
    log w' = log w ++ convertCalls d r c cb eb vb
               ++ drawCalls d r vp nverts pre 0
               ++ [ RendererSetClipRect r (Some (commandClipRect d vp cmd)) ]
               ++ (if nk.ElemCount cmd <=? room - totalElems pre
                   then [ RendererGeometry r (nk.Texture cmd) nverts (totalElems pre)
                            (nk.ElemCount cmd) ]
                   else [])
               ++ [ RendererSetScale r (fst (scale (rend w))) (snd (scale (rend w))) ] /\
    clip (rend w') = Some (commandClipRect d vp cmd) /\
    scale (rend w') = scale (rend w).
Proof.
  intros Hr Hc Hcb Heb Hvb Hcmds Hnn Hfit Hshort Hq vp nverts room.
  pose proof (totalElems_nonneg pre Hnn) as Hpre.
  assert (H0 : outcome w (ticks w) = None) by (apply Hq; lia).
  assert (H1 : outcome w (S (ticks w)) = None) by (apply Hq; lia).
  rewrite (PostRender_scaled d w r Hr H0).
  destruct (PostRender_body_draw d (scaled d r w) r c cb eb vb Hr Hc Hcb Heb Hvb H1)
    as [Hpanic _].
  cbn [scaled rend viewport gui_commands gui_elements gui_vertices
       elements_spare vertices_spare with_rend with_log
       set_scale] in Hpanic.
  rewrite Hcmds in Hpanic.
  destruct (DrawForEach_prefix d r vp
              (reinterpretSlice (Memory (gui_vertices w) (vertices_spare w)) vertexSize)
              pre (cmd :: post) Hr Hnn
              (reinterpretSlice (Memory (gui_elements w) (elements_spare w)) 4)
              (converted c cb eb vb (scaled d r w)))
    as (w1 & Hrun & Hlog & Hout & Ht & Hrend).
  { cbn. lia. }
  { apply reinterpretSlice_Memory_cap. lia. }
  { intros n Hn. unfold converted, cleared, scaled in Hn |- *.
    cbn [ticks outcome ticked with_mem with_log with_rend] in Hn |- *. apply Hq. lia. }
  cbn [converted cleared scaled ticks outcome log rend ticked with_mem with_log with_rend
       reinterpretSlice Memory Go.s_len Go.s_off] in Hlog, Hout, Ht, Hrend.
  destruct (Z.leb_spec (nk.ElemCount cmd) (room - totalElems pre)) as [Hroom|Hroom].
  - erewrite deferring_panic.
    2:{ eapply Hpanic.
        fold vp.
        rewrite Hrun. cbn [DrawForEach].
        erewrite bind_panic; [reflexivity|].
        apply (drawCommand_overruns d r); [exact Hr|lia| | | |].
        - cbn. fold room. lia.
        - cbn. lia.
        - rewrite Hout, Ht. apply Hq. lia.
        - rewrite Hout, Ht. apply Hq. lia. }
    rewrite Hr.
    erewrite bind_val.
    2:{ rewrite SetScale_run. unfold drawn.
        cbn [outcome ticks ticked with_log with_rend]. rewrite Hout, Ht.
        rewrite (Hq (S (S (S (S (ticks w)) + drawTicks pre)))) by lia. reflexivity. }
    cbv beta iota. eexists. split; [reflexivity|].
    unfold drawn.
    cbn [snd ret log rend clip scale ticked with_log with_rend set_scale set_clip
         advance reinterpretSlice Memory Go.s_off Go.s_len].
    rewrite Hlog. split; [|split].
    + unfold convertCalls, nverts. rewrite Z.add_0_l, <- !app_assoc. reflexivity.
    + reflexivity.
    + by destruct (scale (rend w)).
  - erewrite deferring_panic.
    2:{ eapply Hpanic.
        fold vp.
        rewrite Hrun. cbn [DrawForEach].
        erewrite bind_panic; [reflexivity|].
        apply (drawCommand_panics d r); [exact Hr|lia| |].
        - cbn. fold room. lia.
        - rewrite Hout, Ht. apply Hq. lia. }
    rewrite Hr.
    erewrite bind_val.
    2:{ rewrite SetScale_run.
        cbn [outcome ticks ticked with_log with_rend]. rewrite Hout, Ht.
        rewrite (Hq (S (S (S (ticks w)) + drawTicks pre))) by lia. reflexivity. }
    cbv beta iota. eexists. split; [reflexivity|].
    cbn [snd ret log rend clip scale ticked with_log with_rend set_scale set_clip].
    rewrite Hlog. split; [|split].
    + unfold convertCalls, nverts. rewrite <- !app_assoc. reflexivity.
    + reflexivity.
    + by destruct (scale (rend w)).
Qed.

Lemma quiet_until_failing_at (w : World) (k : nat) (e : Go.error) :
  outcome w = failing_at k e -> quiet_until w k.
Proof.
  intros Hout n Hn. rewrite Hout. unfold failing_at.
  destruct (Nat.eqb_spec n k); [lia|reflexivity].
Qed.

Lemma PostRender_early_failure_witness :
  let d := ready default_handler None false in
  let w0 := metal_world (failing_at 0 boom) [] in
  let w1 := metal_world (failing_at 1 boom) [] in
  PostRender d w0
  = (Val (Some (Go.ErrWrap "setting renderer scale" boom)),
     ticked w0 (RendererSetScale 2%positive (uiScale d) (uiScale d))) /\
  exists w',
    PostRender d w1
    = (Val (Some (Go.ErrWrap "converting render commands" boom)), w') /\
    log w' = log w1
      ++ convertCalls d 2%positive 3%positive 9%positive 10%positive 11%positive
      ++ [RendererSetScale 2%positive (fst (scale (rend w1))) (snd (scale (rend w1)))] /\
    rend w' = rend w1.
Proof.
  intros d w0 w1. split.
  - exact (proj1 (PostRender_early_failure d w0 2%positive 3%positive 9%positive
                    10%positive 11%positive boom eq_refl eq_refl eq_refl eq_refl eq_refl)
             eq_refl).
  - exact (proj2 (PostRender_early_failure d w1 2%positive 3%positive 9%positive
                    10%positive 11%positive boom eq_refl eq_refl eq_refl eq_refl eq_refl)
             eq_refl eq_refl eq_refl).
Defined.

Lemma PostRender_draw_failure_witness :
  let d := ready default_handler None false in
  let w := metal_world (failing_at 5 boom) [] in
  let pre := [ command 6 (-5) 0 100 50; command 0 0 0 10 10 ] in
  let cmd := command 3 0 (-10) 100 50 in
  let vp := viewport (rend w) in
  gui_commands w = pre ++ cmd :: [] /\
  quiet_until w (ticks w + 3 + drawTicks pre) /\
  outcome w (ticks w + 3 + drawTicks pre) = Some boom /\
  exists w',
    PostRender d w
    = (Val (Some (Go.ErrWrap "error in context.DrawForEach"
                    (Go.ErrWrap "rendering raw geometry" boom))), w') /\
    log w' = log w
      ++ convertCalls d 2%positive 3%positive 9%positive 10%positive 11%positive
      ++ drawCalls d 2%positive vp 9 pre 0
      ++ [ RendererSetClipRect 2%positive (Some (commandClipRect d vp cmd));
           RendererGeometry 2%positive (Some 7%positive) 9 6 3;
           RendererSetScale 2%positive F32.one F32.one ] /\
    clip (rend w') = Some (commandClipRect d vp cmd) /\
    scale (rend w') = scale (rend w).
Proof.
  intros d w pre cmd vp.
  assert (Hq : quiet_until w (ticks w + 3 + drawTicks pre))
    by (apply (quiet_until_failing_at w 5 boom); reflexivity).
  assert (Hnn : Forall (fun c => 0 <= nk.ElemCount c) pre)
    by (repeat constructor; discriminate).
  split; [reflexivity|]. split; [exact Hq|]. split; [reflexivity|].
  exact (PostRender_draw_failure d w 2%positive 3%positive 9%positive 10%positive
           11%positive pre [] cmd boom eq_refl eq_refl eq_refl eq_refl eq_refl eq_refl
           Hnn eq_refl ltac:(discriminate) Hq eq_refl eq_refl).
Defined.

Lemma PostRender_short_indices_witness :
  let d := ready default_handler None false in
  let tight := desktop no_failure "metal" (2, 0, 20) [] three_commands 7 in
  let roomy := with_spare tight 36 0 in
  let pre := [ command 6 (-5) 0 100 50; command 0 0 0 10 10 ] in
  let cmd := command 3 0 (-10) 100 50 in
  let vp := viewport (rend tight) in
  let calls (draw : list Call) :=
    convertCalls d 2%positive 3%positive 9%positive 10%positive 11%positive
    ++ drawCalls d 2%positive vp 7 pre 0
    ++ [ RendererSetClipRect 2%positive (Some (commandClipRect d vp cmd)) ]
    ++ draw ++ [ RendererSetScale 2%positive F32.one F32.one ] in
  gui_commands tight = pre ++ cmd :: [] /\
  Z.quot (gui_elements tight) 4 - totalElems pre < nk.ElemCount cmd /\
  quiet tight /\ quiet roomy /\
  (exists w',
     PostRender d tight = (Panic, w') /\
     log w' = log tight ++ calls [] /\
     clip (rend w') = Some (commandClipRect d vp cmd) /\
     scale (rend w') = scale (rend tight)) /\
  (exists w',
     PostRender d roomy = (Panic, w') /\
     log w' = log roomy
                ++ calls [ RendererGeometry 2%positive (nk.Texture cmd) 7 6 3 ] /\
     clip (rend w') = Some (commandClipRect d vp cmd) /\
     scale (rend w') = scale (rend roomy)).
Proof.
  intros d tight roomy pre cmd vp calls.
  assert (Hq : quiet tight) by (intros n _; reflexivity).
  assert (Hq' : quiet roomy) by (intros n _; reflexivity).
  assert (Hnn : Forall (fun c => 0 <= nk.ElemCount c) pre)
    by (repeat constructor; discriminate).
  split; [reflexivity|]. split; [reflexivity|]. split; [exact Hq|].
  split; [exact Hq'|]. split.
  - exact (PostRender_short_indices d tight 2%positive 3%positive 9%positive
             10%positive 11%positive pre [] cmd eq_refl eq_refl eq_refl eq_refl
             eq_refl eq_refl Hnn ltac:(discriminate) eq_refl Hq).
  - exact (PostRender_short_indices d roomy 2%positive 3%positive 9%positive
             10%positive 11%positive pre [] cmd eq_refl eq_refl eq_refl eq_refl
             eq_refl eq_refl Hnn ltac:(discriminate) eq_refl Hq').
Defined.

(** ** Init and Destroy *)

(** X16: when no call fails and the atlas bakes an image, [Init] returns
    no error. The driver then holds the window, the renderer, the
    context, the atlas, the two fonts, the font texture (which is also
    the null texture), the conversion configuration and the three
    buffers, created in that order; the clip rectangle is clamped from
    then on when the renderer is Metal and SDL is older than 2.0.22,
    and as before otherwise; the scale and the background colour are
    unchanged. The calls made are those of [initCalls], and the
    renderer is left as it was. *)
Theorem Init_succeeds (d : Driver) (w : World) (width height : Z) :
  quiet w -> baked w = Some (width, height) ->
  exists w',
    Init d w = (Val (initialized d w, None), w') /\
    log w' = log w ++ initCalls d w width height /\
    rend w' = rend w.
Proof.
  intros Hq Hb.
  destruct (Init_body_quiet d w width height Hq Hb) as (w' & Hrun & Hlog & _ & Hrend & _).
  exists w'. unfold Init. erewrite bind_val; [|exact Hrun]. auto.
Qed.

(** X17: [Destroy] after a successful [Init], no call failing, returns
    no error and releases what [Init] created, each resource once: the
    three buffers and the conversion configuration, last created first,
    the atlas and the context, the font texture, the renderer and the
    window, and then shuts SDL down. The two fonts are not released on
    their own. *)
Theorem Init_Destroy_releases (d : Driver) (w : World) (width height : Z) :
  quiet w -> baked w = Some (width, height) ->
  exists d' w' w'',
    Init d w = (Val (d', None), w') /\
    Destroy d' w' = (Val None, w'') /\
    log w'' = log w' ++ initReleases w.
Proof.
  intros Hq Hb.
  destruct (Init_body_quiet d w width height Hq Hb) as (w' & Hrun & _ & _ & _ & Hq').
  exists (initialized d w), w'. eexists. split.
  - unfold Init. erewrite bind_val; [|exact Hrun]. reflexivity.
  - rewrite Destroy_spec.
    assert (Hnone : firstError (outcome w') (ticks w')
                      (length (destroys (initialized d w))) = None).
    { cbn. rewrite !Hq' by lia. reflexivity. }
    rewrite Hnone. split; [reflexivity|]. reflexivity.
Qed.

(** X18: [Init] returns. When it returns an error other than that of
    the renderer-info step, it has released what the driver held, and
    the driver still holds the released resources: a [Destroy] after
    it releases the same resources a second time. *)
Theorem Init_failure_keeps_handles (d : Driver) (w : World) :
  returns (Init d) w (fun '(d', res) w' =>
    res <> None -> ~ info_failure res ->
    exists w1,
      log w' = log w1 ++ releases d' /\
      returns (Destroy d') w' (fun _ w'' =>
        log w'' = log w1 ++ releases d' ++ releases d')).
Proof.
  destruct (Init_returns d w) as ([d' res] & w' & Hrun & Hcase).
  exists (d', res), w'. split; [exact Hrun|]. intros Hres Hinfo.
  destruct Hcase as [Hnil|[Hi|(w1 & Hlog)]]; [done|done|].
  exists w1. split; [exact Hlog|].
  apply returns_Destroy. intros _ w'' Hlog'. rewrite Hlog', Hlog.
  by rewrite <- app_assoc.
Qed.

Lemma bakeFont_no_image (d : Driver) (a : Handle) (w : World) :
  atlas d = Some a -> baked w = None ->
  bakeFont d w
  = (Val (d, None, Some (Go.ErrNew "font baking returned nil image")),
     logged w (AtlasBake a)).
Proof.
  intros Ha Hb. unfold bakeFont. rewrite Ha. cbn [on].
  erewrite bind_val; [|erewrite bind_val; [|apply effect_run]; reflexivity].
  cbn [baked logged with_log]. rewrite Hb. reflexivity.
Qed.

(** X23: the atlas bakes no image. In a world where no call fails,
    [Init] then returns the error "baking font: font baking returned
    nil image". The window, the renderer, the context and the atlas
    were created and no font texture was; as the error is not nil,
    everything is released again before [Init] returns. *)
Theorem Init_without_font_image (d : Driver) (w : World) :
  quiet w -> baked w = None ->
  exists d' w',
    Init d w = (Val (d', Some noImage), w') /\
    window d' = Some (fresh w) /\ renderer d' = Some (nthHandle w 2) /\
    context d' = Some (nthHandle w 3) /\ atlas d' = Some (nthHandle w 4) /\
    fontTex d' = fontTex d /\
    log w' = log w ++ bakeCalls w ++ releases d'.
Proof.
  intros Hq Hb. unfold Init.
  assert (Hbody : exists d' w1,
    Init_body d w
    = (Val (d', Some (Go.ErrNew "font baking returned nil image"), Some noImage), w1) /\
    window d' = Some (fresh w) /\ renderer d' = Some (nthHandle w 2) /\
    context d' = Some (nthHandle w 3) /\ atlas d' = Some (nthHandle w 4) /\
    fontTex d' = fontTex d /\
    log w1 = log w ++ bakeCalls w).
  { unfold Init_body.
    erewrite bind_val; [|apply fallible_quiet; exact Hq]. cbv beta iota.
    erewrite bind_val; [|apply create_quiet; auto with quiet]. cbv beta iota. norm_fresh.
    erewrite bind_val; [|apply create_quiet; auto with quiet]. cbv beta iota. norm_fresh.
    cbn [renderer window set_renderer set_window set_sdl].
    unfold GetInfo, on.
    erewrite bind_val;
      [|erewrite bind_val; [|apply fallible_quiet; auto 10 with quiet];
        cbv beta iota; erewrite bind_val; [|reflexivity]; reflexivity].
    cbv beta iota.
    erewrite bind_val; [|reflexivity]. cbv beta iota.
    cbn [name rend version ticked with_fresh with_log].
    match goal with |- context [if String.eqb _ "metal" then _ else ?dd] =>
      set (d2 := dd) end.
    match goal with |- context [if String.eqb ?n "metal" then ?a else d2] =>
      set (d3 := if String.eqb n "metal" then a else d2) end.
    assert (Hd3 : d3 = set_clampClipRect d2
                         (if needsClamp w then true else clampClipRect d)).
    { subst d3. unfold needsClamp.
      destruct (String.eqb (name (rend w)) "metal"); cbn [andb].
      - destruct (version w) as [[major minor] patch].
        destruct (sdl.VERSIONNUM major minor patch <? sdl.VERSIONNUM 2 0 22); reflexivity.
      - reflexivity. }
    clearbody d3. subst d3.
    match goal with |- context [bind _ _ ?ww] => set (w4 := ww) end.
    assert (Hq4 : quiet w4) by (subst w4; intros n Hn; cbn in Hn |- *; apply Hq; lia).
    assert (Hf4 : fresh w4 = Pos.succ (Pos.succ (fresh w))) by reflexivity.
    assert (Hl4 : log w4 = log w ++ [ InitSDL; CreateWindow; CreateRenderer (Some (fresh w));
                                      RendererGetInfo (Pos.succ (fresh w)) ])
      by (subst w4; cbn; rewrite <- !app_assoc; reflexivity).
    assert (Hb4 : baked w4 = None) by exact Hb.
    clearbody w4.
    erewrite bind_val; [|apply create_quiet; auto with quiet]. cbv beta iota. norm_fresh.
    erewrite bind_val; [|apply create_quiet; auto 10 with quiet]. cbv beta iota. norm_fresh.
    cbn [atlas set_atlas set_context set_nk].
    erewrite bind_val; [|apply create_quiet; auto 10 with quiet]. cbv beta iota. norm_fresh.
    cbn [atlas set_font set_nk].
    erewrite bind_val; [|apply create_quiet; auto 10 with quiet]. cbv beta iota. norm_fresh.
    rewrite Hf4.
    erewrite bind_val;
      [|apply (bakeFont_no_image _ (Pos.succ (Pos.succ (Pos.succ (fresh w)))));
        [reflexivity|exact Hb4]].
    cbv beta iota. eexists _, _. split; [reflexivity|].
    destruct (nthHandle_succ w) as (H2 & H3 & H4 & _).
    rewrite <- H2, <- H3, <- H4. unfold bakeCalls. rewrite <- ?H2, <- ?H4.
    cbn. rewrite Hl4. repeat split. rewrite <- !app_assoc. reflexivity. }
  destruct Hbody as (d' & w1 & Hbody & Hwin & Hren & Hctx & Hatl & Htex & Hlog).
  erewrite bind_val; [|exact Hbody]. cbv beta iota.
  erewrite bind_val; [|apply Destroy_spec]. cbv beta iota.
  exists d'. eexists. split; [reflexivity|].
  repeat (split; [assumption|]). cbn [log with_log]. rewrite Hlog.
  by rewrite <- app_assoc.
Qed.

Lemma Init_without_font_image_witness :
  let d := blank unbound None in
  let w := with_mem (zoomed 2) [] 0 0 in
  quiet w /\ baked w = None /\
  exists d' w',
    Init d w = (Val (d', Some noImage), w') /\
    window d' = Some (fresh w) /\ renderer d' = Some (nthHandle w 2) /\
    context d' = Some (nthHandle w 3) /\ atlas d' = Some (nthHandle w 4) /\
    fontTex d' = fontTex d /\
    log w' = log w ++ bakeCalls w ++ releases d'.
Proof.
  intros d w.
  assert (Hq : quiet w) by (intros n _; reflexivity).
  split; [exact Hq|]. split; [reflexivity|].
  exact (Init_without_font_image d w Hq eq_refl).
Defined.

(** ** The clamp, and the detected scale *)

(** X19: the rectangle the clamp gives starts at or right of and at or
    below the origin, and is not wider and not higher than the
    viewport. A rectangle that is so already is left as it is, and
    clamping twice is clamping once. *)
Theorem clampRect_within (viewport clipRect : sdl.Rect) :
  let c := clampRect viewport clipRect in
  (0 <= sdl.X c /\ 0 <= sdl.Y c /\
   sdl.W c <= sdl.W viewport /\ sdl.H c <= sdl.H viewport) /\
  (0 <= sdl.X clipRect -> 0 <= sdl.Y clipRect ->
   sdl.W clipRect <= sdl.W viewport -> sdl.H clipRect <= sdl.H viewport ->
   c = clipRect) /\
  clampRect viewport c = c.
Proof.
  assert (Hin : forall r : sdl.Rect,
    0 <= sdl.X r -> 0 <= sdl.Y r ->
    sdl.W r <= sdl.W viewport -> sdl.H r <= sdl.H viewport ->
    clampRect viewport r = r).
  { intros [x y wd ht] Hx Hy Hw Hh. unfold clampRect. cbn in *.
    rewrite (proj2 (Z.ltb_ge x 0)) by lia. cbn.
    rewrite (proj2 (Z.ltb_ge y 0)) by lia. cbn.
    rewrite (proj2 (Z.ltb_ge (sdl.W viewport) wd)) by lia. cbn.
    rewrite (proj2 (Z.ltb_ge (sdl.H viewport) ht)) by lia. reflexivity. }
  assert (Hb : 0 <= sdl.X (clampRect viewport clipRect)
               /\ 0 <= sdl.Y (clampRect viewport clipRect)
               /\ sdl.W (clampRect viewport clipRect) <= sdl.W viewport
               /\ sdl.H (clampRect viewport clipRect) <= sdl.H viewport).
  { destruct clipRect as [x y wd ht]. unfold clampRect. cbn [sdl.X sdl.Y sdl.W sdl.H].
    generalize (Go.wrap32 (wd + ht)). intros wd'.
    destruct (Z.ltb_spec x 0); cbn [sdl.X sdl.Y sdl.W sdl.H];
      (generalize (Go.wrap32 (ht + y)); intros ht');
      destruct (Z.ltb_spec y 0); cbn [sdl.X sdl.Y sdl.W sdl.H];
      repeat match goal with
             | |- context [if ?a <? ?b then _ else _] =>
                 destruct (Z.ltb_spec a b); cbn [sdl.X sdl.Y sdl.W sdl.H]
             end; cbn [sdl.X sdl.Y sdl.W sdl.H] in *; lia. }
  intros c. split; [exact Hb|]. split; [apply Hin|].
  destruct Hb as (Hx & Hy & Hw & Hh). by apply Hin.
Qed.

Lemma computeUIScale_run (d : Driver) (w : World) (r win : Handle) :
  renderer d = Some r -> window d = Some win ->
  outcome w (ticks w) = None ->
  computeUIScale d w
  = (Val (set_uiScale d (autoDetected w), None), ticked w (RendererGetOutputSize r)).
Proof.
  intros Hr Hwin H0. unfold computeUIScale, GetOutputSize, GetSize.
  rewrite Hr, Hwin. unfold on.
  erewrite bind_val.
  2:{ erewrite bind_val; [|rewrite fallible_run, H0; reflexivity].
      cbv beta iota. erewrite bind_val; [|reflexivity]. reflexivity. }
  cbv beta iota.
  erewrite bind_val; [|reflexivity].
  cbn [windowSize ticked with_log rend outputSize]. unfold autoDetected.
  by destruct (windowSize w).
Qed.

(** X20: [SetUIScale(0)] stores the scale it detects, the height the
    renderer draws to over the height of the window, without the range
    check it applies to its argument. A detected scale that is NaN,
    negative or above 5 is stored all the same, and the driver is then
    in a state in which [SetUIScale] refuses the driver's own scale.
    For a window of height 0 the detected scale is NaN or infinite. *)
Theorem SetUIScale_detection_unchecked (d : Driver) (w : World) (r win : Handle) :
  renderer d = Some r -> window d = Some win ->
  outcome w (ticks w) = None ->
  let s := autoDetected w in
  let d' := set_uiScale d s in
  let w' := ticked w (RendererGetOutputSize r) in
  SetUIScale d F32.zero w = (Val (d', None), w') /\
  (F32.valid s = true ->
   F32.is_nan s \/ F32.below_zero s \/ F32.above_five s ->
   SetUIScale d' (uiScale d') w'
   = (Val (d', Some (Go.ErrNew "uiScale is out of bounds")), w')) /\
  (snd (windowSize w) = 0 -> F32.is_nan s \/ exists sign, s = S754_infinity sign).
Proof.
  intros Hr Hwin H0 s d' w'. split; [|split].
  - unfold SetUIScale.
    replace (negb (F32.eqb F32.zero F32.zero) || F32.ltb F32.zero F32.zero
             || F32.ltb F32.five F32.zero) with false by (vm_compute; reflexivity).
    replace (F32.eqb F32.zero F32.zero) with true by (vm_compute; reflexivity).
    erewrite bind_val; [|by apply (computeUIScale_run d w r win)].
    reflexivity.
  - intros Hvalid Hout. unfold SetUIScale. subst d'. cbn [uiScale set_uiScale set_opts].
    by rewrite (out_of_bounds_rejects s Hvalid Hout).
  - intros Hzero. subst s. unfold autoDetected. rewrite Hzero.
    change (F32.of_Z 0) with (S754_zero false).
    destruct (F32.of_Z (snd (outputSize (rend w)))) as [sx|sx| |sx mx ex]; cbn; eauto.
Qed.

Lemma quiet_no_failure (backend : string) (ver : Z * Z * Z) (evs : list sdl.Event)
    (cmds : list nk.DrawCommand) (indices : Z) :
  quiet (desktop no_failure backend ver evs cmds indices).
Proof. intros n _. reflexivity. Qed.

Lemma Init_succeeds_witness :
  let d := blank unbound None in
  let w := desktop no_failure "metal" (2, 0, 20) [] [] 0 in
  quiet w /\ baked w = Some (512, 256) /\
  initialized d w = ready unbound None true /\
  exists w',
    Init d w = (Val (initialized d w, None), w') /\
    log w' = log w ++ initCalls d w 512 256 /\
    rend w' = rend w.
Proof.
  intros d w.
  assert (Hq : quiet w) by apply quiet_no_failure.
  split; [exact Hq|]. split; [reflexivity|]. split; [reflexivity|].
  exact (Init_succeeds d w 512 256 Hq eq_refl).
Defined.

Lemma Init_Destroy_releases_witness :
  let d := blank unbound None in
  let w := desktop no_failure "opengl" (2, 0, 22) [] [] 0 in
  quiet w /\ baked w = Some (512, 256) /\
  initReleases w
  = [ NkFree 11%positive; NkFree 10%positive; NkFree 9%positive; NkFree 8%positive;
      NkFree 4%positive; NkFree 3%positive; TextureDestroy 7%positive;
      RendererDestroy 2%positive; WindowDestroy 1%positive; SdlQuit ] /\
  exists d' w' w'',
    Init d w = (Val (d', None), w') /\
    Destroy d' w' = (Val None, w'') /\
    log w'' = log w' ++ initReleases w.
Proof.
  intros d w.
  assert (Hq : quiet w) by apply quiet_no_failure.
  split; [exact Hq|]. split; [reflexivity|]. split; [reflexivity|].
  exact (Init_Destroy_releases d w 512 256 Hq eq_refl).
Defined.

Lemma Init_failure_keeps_handles_witness :
  let d := blank unbound None in
  let w := desktop (failing_at 2 boom) "opengl" (2, 0, 22) [] [] 0 in
  exists d' res w',
    Init d w = (Val (d', res), w') /\
    res = Some (Go.ErrWrap "creating SDL renderer" boom) /\
    window d' = Some 1%positive /\
    exists w1,
      log w' = log w1 ++ releases d' /\
      returns (Destroy d') w' (fun _ w'' =>
        log w'' = log w1 ++ releases d' ++ releases d').
Proof.
  intros d w.
  destruct (Init_failure_keeps_handles d w) as ([d' res] & w' & Hrun & Hkeep).
  exists d', res, w'. split; [exact Hrun|].
  vm_compute in Hrun. injection Hrun as Hd Hres Hw.
  split; [by rewrite <- Hres|]. split; [by rewrite <- Hd|].
  apply Hkeep.
  - rewrite <- Hres. discriminate.
  - rewrite <- Hres. intros [e He]. discriminate He.
Defined.

Lemma clampRect_within_witness :
  let viewport := {| sdl.X := 0; sdl.Y := 0; sdl.W := 800; sdl.H := 600 |} in
  let outside := {| sdl.X := -5; sdl.Y := -10; sdl.W := 900; sdl.H := 50 |} in
  let inside := {| sdl.X := 5; sdl.Y := 10; sdl.W := 800; sdl.H := 50 |} in
  (0 <= sdl.X (clampRect viewport outside) /\ 0 <= sdl.Y (clampRect viewport outside) /\
   sdl.W (clampRect viewport outside) <= 800 /\
   sdl.H (clampRect viewport outside) <= 600) /\
  clampRect viewport inside = inside /\
  clampRect viewport (clampRect viewport outside) = clampRect viewport outside.
Proof.
  intros viewport outside inside.
  destruct (clampRect_within viewport outside) as (Hb & _ & Hidem).
  destruct (clampRect_within viewport inside) as (_ & Hin & _).
  split; [exact Hb|]. split; [|exact Hidem].
  apply Hin; cbn; lia.
Defined.

Lemma SetUIScale_detection_unchecked_witness :
  let d := ready unbound None false in
  let w := zoomed 6 in
  let d' := set_uiScale d (autoDetected w) in
  let w' := ticked w (RendererGetOutputSize 2%positive) in
  autoDetected w = F32.of_Z 6 /\
  SetUIScale d F32.zero w = (Val (d', None), w') /\
  SetUIScale d' (uiScale d') w'
  = (Val (d', Some (Go.ErrNew "uiScale is out of bounds")), w').
Proof.
  intros d w d' w'.
  assert (Hs : autoDetected w = F32.of_Z 6) by (vm_compute; reflexivity).
  assert (Hvalid : F32.valid (autoDetected w) = true) by (vm_compute; reflexivity).
  assert (Habove : F32.above_five (autoDetected w)) by (vm_compute; reflexivity).
  destruct (SetUIScale_detection_unchecked d w 2%positive 1%positive
              eq_refl eq_refl eq_refl) as (Hrun & Hrej & _).
  split; [exact Hs|]. split; [exact Hrun|].
  apply Hrej; [exact Hvalid|]. right. right. exact Habove.
Defined.

(** ** The default SDL driver *)

Lemma infoCalls_S (count : nat) (i : Z) :
  infoCalls (S count) i = CallGetRenderDriverInfo i :: infoCalls count (i + 1).
Proof.
  unfold infoCalls. cbn [seq fmap list_fmap]. rewrite Z.add_0_r. f_equal.
  rewrite <- seq_shift, <- list_fmap_compose. apply list_fmap_ext.
  intros _ k _. cbn. f_equal. lia.
Qed.

Lemma getInfos_names (sdl : Sdl) (names : list string) (i : Z) :
  (forall (k : nat) (n : string),
     names !! k = Some n -> GetRenderDriverInfo sdl (i + Z.of_nat k) = inl n) ->
  getInfos sdl (length names) i = (infoCalls (length names) i, inl names).
Proof.
  revert i. induction names as [|n names IH]; intros i Hinfo; [reflexivity|].
  cbn [length getInfos].
  pose proof (Hinfo 0%nat n eq_refl) as H0. rewrite Z.add_0_r in H0. rewrite H0.
  rewrite IH.
  - by rewrite infoCalls_S.
  - intros k m Hk. rewrite <- (Hinfo (S k) m Hk). f_equal. lia.
Qed.

(** The infos up to index [i] are read, the one at [i] fails. *)
Lemma getInfos_fails (sdl : Sdl) (count : nat) (i0 : Z) (k : nat) (err : Go.error) :
  (k < count)%nat ->
  (forall j : nat, (j < k)%nat ->
     exists n, GetRenderDriverInfo sdl (i0 + Z.of_nat j) = inl n) ->
  GetRenderDriverInfo sdl (i0 + Z.of_nat k) = inr err ->
  getInfos sdl count i0 = (infoCalls (S k) i0, inr (i0 + Z.of_nat k, err)).
Proof.
  revert count i0. induction k as [|k IH]; intros count i0 Hk Hbefore Hfail.
  - destruct count as [|count]; [lia|]. cbn [getInfos].
    rewrite Z.add_0_r in Hfail |- *. rewrite Hfail, infoCalls_S. reflexivity.
  - destruct count as [|count]; [lia|]. cbn [getInfos].
    destruct (Hbefore 0%nat ltac:(lia)) as (n & Hn). rewrite Z.add_0_r in Hn. rewrite Hn.
    rewrite (IH count (i0 + 1)).
    + rewrite (infoCalls_S (S k)). do 3 f_equal. lia.
    + lia.
    + intros j Hj. destruct (Hbefore (S j) ltac:(lia)) as (m & Hm).
      exists m. rewrite <- Hm. f_equal. lia.
    + rewrite <- Hfail. f_equal. lia.
Qed.

Lemma findInfo_None (infos : list string) (driver : string) (i : Z) :
  findInfo infos driver i = None <-> driver ∉ infos.
Proof.
  revert i. induction infos as [|n infos IH]; intros i; cbn [findInfo].
  - split; [intros _; apply not_elem_of_nil|done].
  - rewrite not_elem_of_cons. destruct (String.eqb_spec n driver) as [->|Hne].
    + split; [discriminate|]. intros [H _]. done.
    + rewrite IH. split; [intros H; split; [congruence|done]|intros [_ H]; done].
Qed.

Lemma findInfo_Some (infos : list string) (driver : string) (i j : Z) :
  findInfo infos driver i = Some j ->
  exists k : nat, j = i + Z.of_nat k /\ infos !! k = Some driver /\
    forall k' : nat, (k' < k)%nat -> infos !! k' <> Some driver.
Proof.
  revert i. induction infos as [|n infos IH]; intros i; cbn [findInfo]; [discriminate|].
  destruct (String.eqb_spec n driver) as [->|Hne].
  - intros [= <-]. exists 0%nat. split; [lia|]. split; [reflexivity|]. intros k' Hk'. lia.
  - intros H. destruct (IH _ H) as (k & -> & Hk & Hfirst).
    exists (S k). split; [lia|]. split; [exact Hk|].
    intros [|k'] Hk'; cbn; [congruence|]. apply Hfirst. lia.
Qed.

Lemma preferenceLoop_none (drivers infos : list string) :
  (forall drv, drv ∈ drivers -> drv ∉ infos) ->
  preferenceLoop drivers infos = -1.
Proof.
  induction drivers as [|drv drivers IH]; intros Hnone; [reflexivity|].
  cbn [preferenceLoop].
  rewrite (proj2 (findInfo_None infos drv 0)) by (apply Hnone; apply list_elem_of_here).
  apply IH. intros d Hd. apply Hnone. by apply list_elem_of_further.
Qed.

Lemma preferenceLoop_first (drivers infos : list string) (p : nat) (drv : string) :
  drivers !! p = Some drv -> drv ∈ infos ->
  (forall (p' : nat) (drv' : string),
     (p' < p)%nat -> drivers !! p' = Some drv' -> drv' ∉ infos) ->
  exists k : nat,
    preferenceLoop drivers infos = Z.of_nat k /\ infos !! k = Some drv /\
    forall k' : nat, (k' < k)%nat -> infos !! k' <> Some drv.
Proof.
  revert p. induction drivers as [|d0 drivers IH]; intros p Hp Hin Hbefore; [done|].
  cbn [preferenceLoop]. destruct p as [|p].
  - cbn in Hp. injection Hp as ->.
    destruct (findInfo infos drv 0) as [j|] eqn:Hj.
    + apply findInfo_Some in Hj as (k & -> & Hk & Hfirst). exists k. split; [lia|]. auto.
    + by apply findInfo_None in Hj.
  - rewrite (proj2 (findInfo_None infos d0 0)) by (apply (Hbefore 0%nat); [lia|done]).
    apply (IH p); [done|done|]. intros p' drv' Hp' Hd. apply (Hbefore (S p')); [lia|done].
Qed.

(** X21: the render driver [CreateRenderer] asks SDL for. Without
    preferences it is -1, SDL's own choice, and SDL is not asked to
    name its drivers. With preferences, SDL naming its drivers without
    a failure, it is the first driver, in the order of SDL, whose name
    is the first preference, in the order of the preferences, that SDL
    has a driver for; when SDL has a driver for none of them,
    [CreateRenderer] returns an error and creates no renderer. *)
Theorem CreateRenderer_choice (sdl : Sdl) (Render : RenderOpts)
    (window : option Handle) (names : list string) :
  let made (index : Z) : res (option Handle * option Go.error) :=
    match SdlCreateRenderer sdl window index (Flags Render) with
    | inr err => Val (None, Some (Go.ErrWrap "creating renderer" err))
    | inl renderer => Val (Some renderer, None)
    end in
  (Drivers Render = [] ->
   DefaultSDLDriver_CreateRenderer sdl Render window
   = ([CallCreateRenderer window (-1) (Flags Render)], made (-1))) /\
  (Drivers Render <> [] -> enumerates sdl names ->
   (forall drv, drv ∈ Drivers Render -> drv ∉ names) ->
   DefaultSDLDriver_CreateRenderer sdl Render window
   = (CallGetNumRenderDrivers :: infoCalls (length names) 0,
      Val (None, Some (Go.ErrNew "could not find any preferred render driver")))) /\
  (forall (p : nat) (drv : string),
   enumerates sdl names ->
   Drivers Render !! p = Some drv -> drv ∈ names ->
   (forall (p' : nat) (drv' : string),
      (p' < p)%nat -> Drivers Render !! p' = Some drv' -> drv' ∉ names) ->
   exists k : nat,
     names !! k = Some drv /\
     (forall k' : nat, (k' < k)%nat -> names !! k' <> Some drv) /\
     DefaultSDLDriver_CreateRenderer sdl Render window
     = (CallGetNumRenderDrivers :: infoCalls (length names) 0
          ++ [CallCreateRenderer window (Z.of_nat k) (Flags Render)],
        made (Z.of_nat k))).
Proof.
  intros made. split; [|split].
  - intros H. unfold DefaultSDLDriver_CreateRenderer. rewrite H. reflexivity.
  - intros Hne [Hnum Hinfo] Hnone. unfold DefaultSDLDriver_CreateRenderer.
    destruct (Drivers Render) as [|d0 ds] eqn:Hd; [done|]. cbn [length Nat.eqb negb].
    rewrite Hnum. rewrite (proj2 (Z.ltb_ge _ _)) by lia. rewrite Nat2Z.id.
    rewrite getInfos_names by (intros k n Hk; rewrite Z.add_0_l; by apply Hinfo).
    rewrite preferenceLoop_none by exact Hnone. reflexivity.
  - intros p drv [Hnum Hinfo] Hp Hin Hbefore.
    destruct (preferenceLoop_first _ _ p drv Hp Hin Hbefore) as (k & Hk & Hname & Hfirst).
    exists k. split; [exact Hname|]. split; [exact Hfirst|].
    unfold DefaultSDLDriver_CreateRenderer.
    destruct (Drivers Render) as [|d0 ds] eqn:Hd; [done|]. cbn [length Nat.eqb negb].
    rewrite Hnum. rewrite (proj2 (Z.ltb_ge _ _)) by lia. rewrite Nat2Z.id.
    rewrite getInfos_names by (intros j n Hj; rewrite Z.add_0_l; by apply Hinfo).
    rewrite Hk. rewrite (proj2 (Z.ltb_ge _ _)) by lia. reflexivity.
Qed.

(** X22: when SDL fails to count its render drivers, or to give the
    info of one of them, [CreateRenderer] returns that error, wrapped,
    with the index of the driver in the message of the second; it asks
    for no further info and creates no renderer. *)
Theorem CreateRenderer_enumeration_failure (sdl : Sdl) (Render : RenderOpts)
    (window : option Handle) (err : Go.error) :
  Drivers Render <> [] ->
  (GetNumRenderDrivers sdl = inr err ->
   DefaultSDLDriver_CreateRenderer sdl Render window
   = ([CallGetNumRenderDrivers],
      Val (None, Some (Go.ErrWrap "getting number of render drivers" err)))) /\
  (forall (count : Z) (k : nat),
   GetNumRenderDrivers sdl = inl count -> Z.of_nat k < count ->
   (forall j : nat, (j < k)%nat ->
      exists n, GetRenderDriverInfo sdl (Z.of_nat j) = inl n) ->
   GetRenderDriverInfo sdl (Z.of_nat k) = inr err ->
   DefaultSDLDriver_CreateRenderer sdl Render window
   = (CallGetNumRenderDrivers :: infoCalls (S k) 0,
      Val (None, Some (Go.ErrWrap
                         ("getting info for render driver " ++ itoa (Z.of_nat k)) err)))).
Proof.
  intros Hne. split.
  - intros Hnum. unfold DefaultSDLDriver_CreateRenderer.
    destruct (Drivers Render) as [|d0 ds]; [done|]. cbn [length Nat.eqb negb].
    by rewrite Hnum.
  - intros count k Hnum Hk Hbefore Hfail. unfold DefaultSDLDriver_CreateRenderer.
    destruct (Drivers Render) as [|d0 ds]; [done|]. cbn [length Nat.eqb negb].
    rewrite Hnum. rewrite (proj2 (Z.ltb_ge _ _)) by lia.
    rewrite (getInfos_fails sdl (Z.to_nat count) 0 k err); [reflexivity|lia| |].
    + intros j Hj. rewrite Z.add_0_l. by apply Hbefore.
    + by rewrite Z.add_0_l.
Qed.

Lemma sdl_with_enumerates (names : list string) (h : Handle) :
  enumerates (sdl_with names h) names.
Proof.
  split; [reflexivity|]. intros i n Hi. cbn. by rewrite Nat2Z.id, Hi.
Qed.

Lemma CreateRenderer_choice_witness :
  let names := ["opengl"; "opengles2"; "software"; "opengl"] in
  let sdl := sdl_with names 2%positive in
  let window := Some 1%positive in
  DefaultSDLDriver_CreateRenderer sdl {| Drivers := []; Flags := 4 |} window
  = ([CallCreateRenderer window (-1) 4], Val (Some 2%positive, None)) /\
  DefaultSDLDriver_CreateRenderer sdl {| Drivers := ["metal"; "direct3d"]; Flags := 4 |} window
  = (CallGetNumRenderDrivers :: infoCalls 4 0,
     Val (None, Some (Go.ErrNew "could not find any preferred render driver"))) /\
  DefaultSDLDriver_CreateRenderer sdl {| Drivers := ["metal"; "opengl"; "software"]; Flags := 4 |} window
  = (CallGetNumRenderDrivers :: infoCalls 4 0 ++ [CallCreateRenderer window 0 4],
     Val (Some 2%positive, None)).
Proof.
  intros names sdl window.
  assert (Hen : enumerates sdl names) by apply sdl_with_enumerates.
  split; [|split].
  - exact (proj1 (CreateRenderer_choice sdl {| Drivers := []; Flags := 4 |} window names)
             eq_refl).
  - apply (proj1 (proj2 (CreateRenderer_choice sdl
                           {| Drivers := ["metal"; "direct3d"]; Flags := 4 |}
                           window names))); [discriminate|exact Hen|].
    intros drv Hdrv. apply (bool_decide_unpack _).
    cbn in Hdrv. set_unfold in Hdrv. by destruct Hdrv as [->|[->|[]]].
  - destruct (proj2 (proj2 (CreateRenderer_choice sdl
                              {| Drivers := ["metal"; "opengl"; "software"]; Flags := 4 |}
                              window names)) 1%nat "opengl" Hen eq_refl)
      as (k & Hk & Hfirst & Hrun).
    + apply (bool_decide_unpack _). reflexivity.
    + intros [|p'] drv' Hp' Hd; [|lia]. injection Hd as <-.
      apply (bool_decide_unpack _). reflexivity.
    + destruct k as [|k]; [exact Hrun|].
      exfalso. by apply (Hfirst 0%nat ltac:(lia)).
Defined.

Lemma CreateRenderer_enumeration_failure_witness :
  let Render := {| Drivers := ["opengl"]; Flags := 0 |} in
  Drivers Render <> [] /\
  GetRenderDriverInfo sdl_broken 1 = inr boom /\
  DefaultSDLDriver_CreateRenderer sdl_broken Render None
  = (CallGetNumRenderDrivers :: infoCalls 2 0,
     Val (None, Some (Go.ErrWrap "getting info for render driver 1" boom))).
Proof.
  intros Render.
  assert (Hne : Drivers Render <> []) by discriminate.
  split; [exact Hne|]. split; [reflexivity|].
  apply (proj2 (CreateRenderer_enumeration_failure sdl_broken Render None boom Hne)
           3 1%nat); [reflexivity|reflexivity| |reflexivity].
  intros [|j] Hj; [|lia]. by exists "opengl".
Defined.
